(** * LPWAN tracker: the event dispatcher, the send governor, the battery
      guard and the location worker, embedded from app.cpp and gnss.cpp.

    The firmware is a set of C++ functions over global variables.  The
    embedding keeps the globals in one record [world], writes every function
    as a computation in a small state monad with early exit, and records each
    call to a collaborator (console, radio, timers, sensors) in a trace.

    Integer types.  [time_t] is the 64-bit signed type of the toolchain's C
    library, [millis()] returns a 32-bit unsigned value and
    [send_repeat_time] is a 32-bit unsigned setting, so every sum and
    difference of those fits 64 bits and is written with exact [Z]
    arithmetic.  Narrower stores (uint8_t, uint16_t, uint32_t parameters)
    have their wrap-around written out. *)

From Stdlib Require Import ZArith List String Bool Lia.
Import ListNotations.
Open Scope string_scope.
Open Scope Z_scope.

(** ** Machine integers *)

Definition wrap8 (z : Z) : Z := z mod 256.
Definition wrap16 (z : Z) : Z := z mod 65536.
Definition wrap32 (z : Z) : Z := z mod 4294967296.

(** [u.val8[k]] of a union of an integer and a byte array on the
    little-endian target: byte [k] of the two's complement image. *)
Definition val8 (v k : Z) : Z := Z.land (Z.shiftr v (8 * k)) 255.

(** ** Data declared in the headers *)

(** tracker_data_short_s: the position fields poll_gnss writes. *)
Record tracker_data_short_s := {
  s_lat_1 : Z; s_lat_2 : Z; s_lat_3 : Z;
  s_long_1 : Z; s_long_2 : Z; s_long_3 : Z;
  s_alt_1 : Z; s_alt_2 : Z; s_alt_3 : Z
}.

(** tracker_data_prec_s: the same with four-byte latitude and longitude. *)
Record tracker_data_prec_s := {
  l_lat_1 : Z; l_lat_2 : Z; l_lat_3 : Z; l_lat_4 : Z;
  l_long_1 : Z; l_long_2 : Z; l_long_3 : Z; l_long_4 : Z;
  l_alt_1 : Z; l_alt_2 : Z; l_alt_3 : Z
}.

(** g_env_data: the two battery bytes the dispatcher writes, and the sensor
    fields that read_bme fills. *)
Record environment_data_s := {
  batt_1 : Z;
  batt_2 : Z;
  sensor : list Z
}.

(** Result of a LoRaWAN send request. *)
Inductive lmh_error_status := LMH_SUCCESS | LMH_BUSY | LMH_ERROR.

(** The values of [gnss_option]. *)
Inductive gnss_option_t := NO_GNSS_INIT | RAK1910_GNSS | RAK12500_GNSS.

Definition gnss_option_eqb (a b : gnss_option_t) : bool :=
  match a, b with
  | NO_GNSS_INIT, NO_GNSS_INIT => true
  | RAK1910_GNSS, RAK1910_GNSS => true
  | RAK12500_GNSS, RAK12500_GNSS => true
  | _, _ => false
  end.

(** The fields of g_lorawan_settings that the application reads. *)
Record s_lorawan_settings := {
  lorawan_enable : bool;
  send_repeat_time : Z;
  lora_region : Z;
  data_rate : Z;
  confirmed_msg_enabled : bool
}.

(** The constants and struct layouts of app.h, which is not part of the
    sources at hand: the bit position of each event flag, the three payload
    lengths, and the memory image of each payload struct. *)
Record app_h := {
  STATUS_bit : Z;
  ACC_TRIGGER_bit : Z;
  GNSS_FIN_bit : Z;
  LORA_JOIN_FIN_bit : Z;
  LORA_TX_FIN_bit : Z;
  LORA_DATA_bit : Z;
  TRACKER_DATA_SHORT_LEN : nat;
  TRACKER_DATA_PREC_LEN : nat;
  ENVIRONMENT_DATA_LEN : nat;
  short_image : tracker_data_short_s -> list Z;
  prec_image : tracker_data_prec_s -> list Z;
  env_image : environment_data_s -> list Z
}.

(** ** Software timers

    SoftwareTimer wraps a FreeRTOS timer: a period, a reload mode chosen at
    [begin], and whether it is currently counting. *)
Record SoftwareTimer := {
  period : Z;
  repeating : bool;
  running : bool
}.

Inductive timer_id := delayed_sending_id | g_task_wakeup_timer_id.

Inductive timer_op :=
| t_begin (ms : Z) (rep : bool)
| t_setPeriod (ms : Z)
| t_start
| t_stop
| t_reset.

(** The state of a timer after a call.  The period parameter is uint32_t;
    changing the period keeps a stopped timer stopped. *)
Definition timer_apply (op : timer_op) (t : SoftwareTimer) : SoftwareTimer :=
  match op with
  | t_begin ms rep => {| period := wrap32 ms; repeating := rep; running := false |}
  | t_setPeriod ms => {| period := wrap32 ms; repeating := repeating t; running := running t |}
  | t_start => {| period := period t; repeating := repeating t; running := true |}
  | t_stop => {| period := period t; repeating := repeating t; running := false |}
  | t_reset => {| period := period t; repeating := repeating t; running := true |}
  end.

(** ** Observable actions *)

Inductive action :=
| AT_PRINTF (line : string)
| AT_RX (lorawan : bool) (data : list Z)
| restart_advertising (secs : Z)
| start_bme
| read_bme
| clear_acc_int
| give_gnss_sem
| give_task_sem
| send_lora_packet (data : list Z)
| send_p2p_packet (data : list Z)
| timer_call (t : timer_id) (op : timer_op)
| start_gnss_task
| lmh_join
| init_gnss
| gnss_power_down
| delay (ms : Z)
| sd_nvic_SystemReset.

(** ** Inputs

    Values that come from outside (clock, converters, radio, receiver) are
    read from tapes: total functions of the number of reads made so far. *)
Record tape (A : Type) := { next : nat -> A; pos : nat }.
Arguments next {A} _ _.
Arguments pos {A} _.

Definition pull {A} (t : tape A) : A * tape A :=
  (next t (pos t), {| next := next t; pos := S (pos t) |}).

(** One NMEA character handed to the serial decoder: whether it completed a
    sentence, and which of the decoder's fields are then updated and valid. *)
Record nmea_char := {
  encoded : bool;
  nmea_location : option (Z * Z);
  nmea_altitude : option Z;
  nmea_hdop : option Z
}.

(** What the receiver offers during one turn of the polling loop. *)
Record gnss_sample := {
  getGnssFixOk : bool;
  getFixType : Z;
  getLatitude : Z;
  getLongitude : Z;
  getAltitude : Z;
  getHorizontalDOP : Z;
  serial1 : list nmea_char
}.

(** ** Globals *)

(** Globals owned by the WisBlock API. *)
Record api_globals := {
  g_lorawan_settings : s_lorawan_settings;
  g_task_event_type : Z;
  g_lpwan_has_joined : bool;
  g_enable_ble : bool;
  g_join_result : bool;
  g_rx_fin_result : bool;
  g_rx_lora_data : list Z;
  g_env_data : environment_data_s;
  g_task_wakeup_timer : SoftwareTimer
}.

(** Globals of app.cpp. *)
Record app_globals := {
  last_pos_send : Z;
  delayed_sending : SoftwareTimer;
  batt_level : Z;
  delayed_active : bool;
  min_delay : Z;
  send_fail : Z;
  low_batt_protection : bool;
  init_result : bool;
  g_gps_prec_6 : bool;
  packet_buff : list Z;
  packet_len : Z;
  has_env_sensor : bool
}.

(** Globals of gnss.cpp. *)
Record gnss_globals := {
  g_tracker_data_s : tracker_data_short_s;
  g_tracker_data_l : tracker_data_prec_s;
  last_read_ok : bool;
  gnss_option : gnss_option_t
}.

(** The outside: input tapes and the trace of actions, oldest first. *)
Record outside := {
  clock : tape Z;
  adc : tape Z;
  radio : tape lmh_error_status;
  p2p : tape bool;
  bme : tape (environment_data_s -> environment_data_s);
  receiver : tape gnss_sample;
  trace : list action
}.

Record world := {
  api : api_globals;
  app : app_globals;
  gnss : gnss_globals;
  out : outside
}.

(** ** Assignment to a global

    [set_x v w] is the world after [x = v]. *)

Definition with_api (x : api_globals) (w : world) : world :=
  {| api := x; app := app w; gnss := gnss w; out := out w |}.

Definition set_g_lorawan_settings v (w : world) : world :=
  with_api
    {| g_lorawan_settings := v;
       g_task_event_type := g_task_event_type (api w);
       g_lpwan_has_joined := g_lpwan_has_joined (api w);
       g_enable_ble := g_enable_ble (api w);
       g_join_result := g_join_result (api w);
       g_rx_fin_result := g_rx_fin_result (api w);
       g_rx_lora_data := g_rx_lora_data (api w);
       g_env_data := g_env_data (api w);
       g_task_wakeup_timer := g_task_wakeup_timer (api w) |} w.

Definition set_g_rx_fin_result v (w : world) : world :=
  with_api
    {| g_lorawan_settings := g_lorawan_settings (api w);
       g_task_event_type := g_task_event_type (api w);
       g_lpwan_has_joined := g_lpwan_has_joined (api w);
       g_enable_ble := g_enable_ble (api w);
       g_join_result := g_join_result (api w);
       g_rx_fin_result := v;
       g_rx_lora_data := g_rx_lora_data (api w);
       g_env_data := g_env_data (api w);
       g_task_wakeup_timer := g_task_wakeup_timer (api w) |} w.

Definition set_g_task_event_type v (w : world) : world :=
  with_api
    {| g_lorawan_settings := g_lorawan_settings (api w);
       g_task_event_type := v;
       g_lpwan_has_joined := g_lpwan_has_joined (api w);
       g_enable_ble := g_enable_ble (api w);
       g_join_result := g_join_result (api w);
       g_rx_fin_result := g_rx_fin_result (api w);
       g_rx_lora_data := g_rx_lora_data (api w);
       g_env_data := g_env_data (api w);
       g_task_wakeup_timer := g_task_wakeup_timer (api w) |} w.

Definition set_g_lpwan_has_joined v (w : world) : world :=
  with_api
    {| g_lorawan_settings := g_lorawan_settings (api w);
       g_task_event_type := g_task_event_type (api w);
       g_lpwan_has_joined := v;
       g_enable_ble := g_enable_ble (api w);
       g_join_result := g_join_result (api w);
       g_rx_fin_result := g_rx_fin_result (api w);
       g_rx_lora_data := g_rx_lora_data (api w);
       g_env_data := g_env_data (api w);
       g_task_wakeup_timer := g_task_wakeup_timer (api w) |} w.

Definition set_g_env_data v (w : world) : world :=
  with_api
    {| g_lorawan_settings := g_lorawan_settings (api w);
       g_task_event_type := g_task_event_type (api w);
       g_lpwan_has_joined := g_lpwan_has_joined (api w);
       g_enable_ble := g_enable_ble (api w);
       g_join_result := g_join_result (api w);
       g_rx_fin_result := g_rx_fin_result (api w);
       g_rx_lora_data := g_rx_lora_data (api w);
       g_env_data := v;
       g_task_wakeup_timer := g_task_wakeup_timer (api w) |} w.

Definition set_g_task_wakeup_timer v (w : world) : world :=
  with_api
    {| g_lorawan_settings := g_lorawan_settings (api w);
       g_task_event_type := g_task_event_type (api w);
       g_lpwan_has_joined := g_lpwan_has_joined (api w);
       g_enable_ble := g_enable_ble (api w);
       g_join_result := g_join_result (api w);
       g_rx_fin_result := g_rx_fin_result (api w);
       g_rx_lora_data := g_rx_lora_data (api w);
       g_env_data := g_env_data (api w);
       g_task_wakeup_timer := v |} w.

Definition with_app (x : app_globals) (w : world) : world :=
  {| api := api w; app := x; gnss := gnss w; out := out w |}.

Definition set_last_pos_send v (w : world) : world :=
  with_app
    {| last_pos_send := v;
       delayed_sending := delayed_sending (app w);
       batt_level := batt_level (app w);
       delayed_active := delayed_active (app w);
       min_delay := min_delay (app w);
       send_fail := send_fail (app w);
       low_batt_protection := low_batt_protection (app w);
       init_result := init_result (app w);
       g_gps_prec_6 := g_gps_prec_6 (app w);
       packet_buff := packet_buff (app w);
       packet_len := packet_len (app w);
       has_env_sensor := has_env_sensor (app w) |} w.

Definition set_delayed_sending v (w : world) : world :=
  with_app
    {| last_pos_send := last_pos_send (app w);
       delayed_sending := v;
       batt_level := batt_level (app w);
       delayed_active := delayed_active (app w);
       min_delay := min_delay (app w);
       send_fail := send_fail (app w);
       low_batt_protection := low_batt_protection (app w);
       init_result := init_result (app w);
       g_gps_prec_6 := g_gps_prec_6 (app w);
       packet_buff := packet_buff (app w);
       packet_len := packet_len (app w);
       has_env_sensor := has_env_sensor (app w) |} w.

Definition set_batt_level v (w : world) : world :=
  with_app
    {| last_pos_send := last_pos_send (app w);
       delayed_sending := delayed_sending (app w);
       batt_level := v;
       delayed_active := delayed_active (app w);
       min_delay := min_delay (app w);
       send_fail := send_fail (app w);
       low_batt_protection := low_batt_protection (app w);
       init_result := init_result (app w);
       g_gps_prec_6 := g_gps_prec_6 (app w);
       packet_buff := packet_buff (app w);
       packet_len := packet_len (app w);
       has_env_sensor := has_env_sensor (app w) |} w.

Definition set_delayed_active v (w : world) : world :=
  with_app
    {| last_pos_send := last_pos_send (app w);
       delayed_sending := delayed_sending (app w);
       batt_level := batt_level (app w);
       delayed_active := v;
       min_delay := min_delay (app w);
       send_fail := send_fail (app w);
       low_batt_protection := low_batt_protection (app w);
       init_result := init_result (app w);
       g_gps_prec_6 := g_gps_prec_6 (app w);
       packet_buff := packet_buff (app w);
       packet_len := packet_len (app w);
       has_env_sensor := has_env_sensor (app w) |} w.

Definition set_min_delay v (w : world) : world :=
  with_app
    {| last_pos_send := last_pos_send (app w);
       delayed_sending := delayed_sending (app w);
       batt_level := batt_level (app w);
       delayed_active := delayed_active (app w);
       min_delay := v;
       send_fail := send_fail (app w);
       low_batt_protection := low_batt_protection (app w);
       init_result := init_result (app w);
       g_gps_prec_6 := g_gps_prec_6 (app w);
       packet_buff := packet_buff (app w);
       packet_len := packet_len (app w);
       has_env_sensor := has_env_sensor (app w) |} w.

Definition set_send_fail v (w : world) : world :=
  with_app
    {| last_pos_send := last_pos_send (app w);
       delayed_sending := delayed_sending (app w);
       batt_level := batt_level (app w);
       delayed_active := delayed_active (app w);
       min_delay := min_delay (app w);
       send_fail := v;
       low_batt_protection := low_batt_protection (app w);
       init_result := init_result (app w);
       g_gps_prec_6 := g_gps_prec_6 (app w);
       packet_buff := packet_buff (app w);
       packet_len := packet_len (app w);
       has_env_sensor := has_env_sensor (app w) |} w.

Definition set_low_batt_protection v (w : world) : world :=
  with_app
    {| last_pos_send := last_pos_send (app w);
       delayed_sending := delayed_sending (app w);
       batt_level := batt_level (app w);
       delayed_active := delayed_active (app w);
       min_delay := min_delay (app w);
       send_fail := send_fail (app w);
       low_batt_protection := v;
       init_result := init_result (app w);
       g_gps_prec_6 := g_gps_prec_6 (app w);
       packet_buff := packet_buff (app w);
       packet_len := packet_len (app w);
       has_env_sensor := has_env_sensor (app w) |} w.

Definition set_init_result v (w : world) : world :=
  with_app
    {| last_pos_send := last_pos_send (app w);
       delayed_sending := delayed_sending (app w);
       batt_level := batt_level (app w);
       delayed_active := delayed_active (app w);
       min_delay := min_delay (app w);
       send_fail := send_fail (app w);
       low_batt_protection := low_batt_protection (app w);
       init_result := v;
       g_gps_prec_6 := g_gps_prec_6 (app w);
       packet_buff := packet_buff (app w);
       packet_len := packet_len (app w);
       has_env_sensor := has_env_sensor (app w) |} w.

Definition set_packet_buff v (w : world) : world :=
  with_app
    {| last_pos_send := last_pos_send (app w);
       delayed_sending := delayed_sending (app w);
       batt_level := batt_level (app w);
       delayed_active := delayed_active (app w);
       min_delay := min_delay (app w);
       send_fail := send_fail (app w);
       low_batt_protection := low_batt_protection (app w);
       init_result := init_result (app w);
       g_gps_prec_6 := g_gps_prec_6 (app w);
       packet_buff := v;
       packet_len := packet_len (app w);
       has_env_sensor := has_env_sensor (app w) |} w.

Definition set_packet_len v (w : world) : world :=
  with_app
    {| last_pos_send := last_pos_send (app w);
       delayed_sending := delayed_sending (app w);
       batt_level := batt_level (app w);
       delayed_active := delayed_active (app w);
       min_delay := min_delay (app w);
       send_fail := send_fail (app w);
       low_batt_protection := low_batt_protection (app w);
       init_result := init_result (app w);
       g_gps_prec_6 := g_gps_prec_6 (app w);
       packet_buff := packet_buff (app w);
       packet_len := v;
       has_env_sensor := has_env_sensor (app w) |} w.

Definition set_has_env_sensor v (w : world) : world :=
  with_app
    {| last_pos_send := last_pos_send (app w);
       delayed_sending := delayed_sending (app w);
       batt_level := batt_level (app w);
       delayed_active := delayed_active (app w);
       min_delay := min_delay (app w);
       send_fail := send_fail (app w);
       low_batt_protection := low_batt_protection (app w);
       init_result := init_result (app w);
       g_gps_prec_6 := g_gps_prec_6 (app w);
       packet_buff := packet_buff (app w);
       packet_len := packet_len (app w);
       has_env_sensor := v |} w.

Definition with_gnss (x : gnss_globals) (w : world) : world :=
  {| api := api w; app := app w; gnss := x; out := out w |}.

Definition set_g_tracker_data_s v (w : world) : world :=
  with_gnss
    {| g_tracker_data_s := v;
       g_tracker_data_l := g_tracker_data_l (gnss w);
       last_read_ok := last_read_ok (gnss w);
       gnss_option := gnss_option (gnss w) |} w.

Definition set_g_tracker_data_l v (w : world) : world :=
  with_gnss
    {| g_tracker_data_s := g_tracker_data_s (gnss w);
       g_tracker_data_l := v;
       last_read_ok := last_read_ok (gnss w);
       gnss_option := gnss_option (gnss w) |} w.

Definition set_last_read_ok v (w : world) : world :=
  with_gnss
    {| g_tracker_data_s := g_tracker_data_s (gnss w);
       g_tracker_data_l := g_tracker_data_l (gnss w);
       last_read_ok := v;
       gnss_option := gnss_option (gnss w) |} w.

Definition with_out (x : outside) (w : world) : world :=
  {| api := api w; app := app w; gnss := gnss w; out := x |}.

Definition set_clock v (w : world) : world :=
  with_out
    {| clock := v;
       adc := adc (out w);
       radio := radio (out w);
       p2p := p2p (out w);
       bme := bme (out w);
       receiver := receiver (out w);
       trace := trace (out w) |} w.

Definition set_adc v (w : world) : world :=
  with_out
    {| clock := clock (out w);
       adc := v;
       radio := radio (out w);
       p2p := p2p (out w);
       bme := bme (out w);
       receiver := receiver (out w);
       trace := trace (out w) |} w.

Definition set_radio v (w : world) : world :=
  with_out
    {| clock := clock (out w);
       adc := adc (out w);
       radio := v;
       p2p := p2p (out w);
       bme := bme (out w);
       receiver := receiver (out w);
       trace := trace (out w) |} w.

Definition set_p2p v (w : world) : world :=
  with_out
    {| clock := clock (out w);
       adc := adc (out w);
       radio := radio (out w);
       p2p := v;
       bme := bme (out w);
       receiver := receiver (out w);
       trace := trace (out w) |} w.

Definition set_bme v (w : world) : world :=
  with_out
    {| clock := clock (out w);
       adc := adc (out w);
       radio := radio (out w);
       p2p := p2p (out w);
       bme := v;
       receiver := receiver (out w);
       trace := trace (out w) |} w.

Definition set_receiver v (w : world) : world :=
  with_out
    {| clock := clock (out w);
       adc := adc (out w);
       radio := radio (out w);
       p2p := p2p (out w);
       bme := bme (out w);
       receiver := v;
       trace := trace (out w) |} w.

Definition set_trace v (w : world) : world :=
  with_out
    {| clock := clock (out w);
       adc := adc (out w);
       radio := radio (out w);
       p2p := p2p (out w);
       bme := bme (out w);
       receiver := receiver (out w);
       trace := v |} w.

(** ** Computations

    A statement either falls through to the next one, executes [return],
    resets the device, or exhausts a loop budget. *)
Inductive ctl (A : Type) :=
| Next (a : A)
| Returned
| Halted
| Spinning.
Arguments Next {A} a.
Arguments Returned {A}.
Arguments Halted {A}.
Arguments Spinning {A}.

Definition M (A : Type) : Type := world -> ctl A * world.

Definition ret {A} (a : A) : M A := fun w => (Next a, w).

Definition bind {A B} (c : M A) (k : A -> M B) : M B :=
  fun w =>
    match c w with
    | (Next a, w') => k a w'
    | (Returned, w') => (Returned, w')
    | (Halted, w') => (Halted, w')
    | (Spinning, w') => (Spinning, w')
    end.

Declare Scope prog_scope.
Delimit Scope prog_scope with prog.
Notation "x <- c ;; k" := (bind c (fun x => k))
  (at level 61, c at next level, right associativity) : prog_scope.
Notation "c ;; k" := (bind c (fun _ => k))
  (at level 61, right associativity) : prog_scope.
Open Scope prog_scope.

Definition gets {A} (f : world -> A) : M A := fun w => (Next (f w), w).
Definition modify (f : world -> world) : M unit := fun w => (Next tt, f w).
Definition when (b : bool) (c : M unit) : M unit := if b then c else ret tt.
Definition stop {A} (how : ctl A) : M A := fun w => (how, w).

(** [return;] and the boundary of the function that catches it. *)
Definition return_ : M unit := stop Returned.
Definition function_ (body : M unit) : M unit :=
  fun w =>
    match body w with
    | (Returned, w') => (Next tt, w')
    | r => r
    end.

(** The final state and the outcome of a computation. *)
Definition exec {A} (c : M A) (w : world) : world := snd (c w).
Definition result {A} (c : M A) (w : world) : ctl A := fst (c w).

(** *** Calls to collaborators *)

Definition emit (a : action) : M unit :=
  modify (fun w => set_trace (trace (out w) ++ [a]) w).

(** The next value of an input tape. *)
Definition read_tape {A} (sel : world -> tape A) (put : tape A -> world -> world) : M A :=
  fun w => (Next (fst (pull (sel w))), put (snd (pull (sel w))) w).

Definition millis : M Z := read_tape (fun w => clock (out w)) set_clock.

(** read_batt() delivers millivolts; the tape holds them as whole numbers. *)
Definition read_batt : M Z := read_tape (fun w => adc (out w)) set_adc.

Definition call_send_lora_packet (data : list Z) : M lmh_error_status :=
  emit (send_lora_packet data) ;;
  read_tape (fun w => radio (out w)) set_radio.

Definition call_send_p2p_packet (data : list Z) : M bool :=
  emit (send_p2p_packet data) ;;
  read_tape (fun w => p2p (out w)) set_p2p.

(** read_bme() lives in the sensor module; what it stores into g_env_data
    is taken from the tape. *)
Definition call_read_bme : M unit :=
  emit read_bme ;;
  f <- read_tape (fun w => bme (out w)) set_bme ;;
  modify (fun w => set_g_env_data (f (g_env_data (api w))) w).

Definition timer_get (id : timer_id) (w : world) : SoftwareTimer :=
  match id with
  | delayed_sending_id => delayed_sending (app w)
  | g_task_wakeup_timer_id => g_task_wakeup_timer (api w)
  end.

Definition timer_put (id : timer_id) (t : SoftwareTimer) (w : world) : world :=
  match id with
  | delayed_sending_id => set_delayed_sending t w
  | g_task_wakeup_timer_id => set_g_task_wakeup_timer t w
  end.

(** A method call on one of the two timers. *)
Definition timer (id : timer_id) (op : timer_op) : M unit :=
  modify (fun w => timer_put id (timer_apply op (timer_get id w)) w) ;;
  emit (timer_call id op).

(** *** Buffers *)

Definition memset0 (n : nat) : list Z := repeat 0 n.

Definition memcpy (buf : list Z) (off : nat) (src : list Z) (n : nat) : list Z :=
  firstn off buf ++ firstn n src ++ skipn (off + n) buf.

(** *** Event flags: single bits of the 16-bit g_task_event_type *)

Definition flag (bit : Z) : Z := 2 ^ bit.
Definition N_flag (bit : Z) : Z := Z.lxor 65535 (flag bit).

(** (g_task_event_type & MASK) == MASK *)
Definition pending (mask : Z) (w : world) : bool :=
  Z.land (g_task_event_type (api w)) mask =? mask.

Definition event_pending (mask : Z) : M bool := gets (pending mask).

Definition and_events (n_mask : Z) : M unit :=
  modify (fun w => set_g_task_event_type (Z.land (g_task_event_type (api w)) n_mask) w).

Definition or_events (mask : Z) : M unit :=
  modify (fun w => set_g_task_event_type (Z.lor (g_task_event_type (api w)) mask) w).

Section Firmware.

Variable h : app_h.

Definition STATUS : Z := flag (STATUS_bit h).
Definition N_STATUS : Z := N_flag (STATUS_bit h).
Definition ACC_TRIGGER : Z := flag (ACC_TRIGGER_bit h).
Definition N_ACC_TRIGGER : Z := N_flag (ACC_TRIGGER_bit h).
Definition GNSS_FIN : Z := flag (GNSS_FIN_bit h).
Definition N_GNSS_FIN : Z := N_flag (GNSS_FIN_bit h).
Definition LORA_JOIN_FIN : Z := flag (LORA_JOIN_FIN_bit h).
Definition N_LORA_JOIN_FIN : Z := N_flag (LORA_JOIN_FIN_bit h).
Definition LORA_TX_FIN : Z := flag (LORA_TX_FIN_bit h).
Definition N_LORA_TX_FIN : Z := N_flag (LORA_TX_FIN_bit h).
Definition LORA_DATA : Z := flag (LORA_DATA_bit h).
Definition N_LORA_DATA : Z := N_flag (LORA_DATA_bit h).

(** ** app.cpp *)

(** send_delayed: the callback of the delayed_sending timer. *)
Definition send_delayed : M unit :=
  or_events STATUS ;;
  emit give_task_sem.

(** The delay between two locations that init_app derives from the send
    interval. *)
Definition set_delay : M unit :=
  rep <- gets (fun w => send_repeat_time (g_lorawan_settings (api w))) ;;
  if negb (rep =? 0)
  then modify (set_min_delay (rep / 2))
  else modify (set_min_delay 30000).

(** init_app, from the start of the sensors on (the banner before it only
    prints); the three arguments are the results of init_gnss(), init_acc()
    and init_bme().  The receiver detection that init_gnss() performs is
    modelled apart, in [init_gnss_detect]. *)
Definition init_app (gnss_ok acc_ok env_found : bool) : M bool :=
  emit init_gnss ;;
  lorawan <- gets (fun w => lorawan_enable (g_lorawan_settings (api w))) ;;
  when (negb lorawan)
    (emit start_gnss_task ;;
     now <- millis ;;
     modify (set_last_pos_send now) ;;
     modify (set_g_lpwan_has_joined true)) ;;
  modify (set_has_env_sensor env_found) ;;
  set_delay ;;
  md <- gets (fun w => min_delay (app w)) ;;
  timer delayed_sending_id (t_begin md false) ;;
  emit (AT_PRINTF "GNSS Precision:") ;;
  prec6 <- gets (fun w => g_gps_prec_6 (app w)) ;;
  (if prec6
   then emit (AT_PRINTF "   6 decimal digit precision")
   else emit (AT_PRINTF "   4 decimal digit precision")) ;;
  emit (AT_PRINTF "============================") ;;
  (if gnss_ok
   then emit (AT_PRINTF "+EVT:GNSS OK")
   else (emit (AT_PRINTF "+EVT:GNSS FAIL") ;; modify (set_init_result false))) ;;
  (if acc_ok
   then emit (AT_PRINTF "+EVT:ACC OK")
   else (emit (AT_PRINTF "+EVT:ACC FAIL") ;; modify (set_init_result false))) ;;
  (if env_found
   then emit (AT_PRINTF "+EVT:ENV OK")
   else emit (AT_PRINTF "+EVT:ENV FAIL")) ;;
  gets (fun w => init_result (app w)).

(** Timer triggered event, first part: failure report, advertising, and
    the start of the sensors when the battery allows it. *)
Definition wake_sensors : M unit :=
  ok <- gets (fun w => init_result (app w)) ;;
  when (negb ok) (emit (AT_PRINTF "+EVT:HW_FAILURE")) ;;
  ble <- gets (fun w => g_enable_ble (api w)) ;;
  when ble (emit (restart_advertising 15)) ;;
  low <- gets (fun w => low_batt_protection (app w)) ;;
  when (negb low)
    (env <- gets (fun w => has_env_sensor (app w)) ;;
     when ok (when env (emit start_bme)) ;;
     opt <- gets (fun w => gnss_option (gnss w)) ;;
     when (negb (gnss_option_eqb opt NO_GNSS_INIT)) (emit give_gnss_sem)).

(** Get battery level. *)
Definition get_battery_level : M unit :=
  mv <- read_batt ;;
  modify (set_batt_level (wrap16 (mv / 10))) ;;
  modify (fun w => set_g_env_data
                     {| batt_1 := val8 (batt_level (app w)) 1;
                        batt_2 := batt_2 (g_env_data (api w));
                        sensor := sensor (g_env_data (api w)) |} w) ;;
  modify (fun w => set_g_env_data
                     {| batt_1 := batt_1 (g_env_data (api w));
                        batt_2 := val8 (batt_level (app w)) 0;
                        sensor := sensor (g_env_data (api w)) |} w).

(** Protection against battery drain. *)
Definition battery_protection : M unit :=
  batt16 <- gets (fun w => batt_level (app w)) ;;
  low <- gets (fun w => low_batt_protection (app w)) ;;
  if batt16 <? 290 then
    modify (set_low_batt_protection true) ;;
    timer g_task_wakeup_timer_id (t_setPeriod (1 * 60 * 60 * 1000)) ;;
    timer g_task_wakeup_timer_id t_reset
  else if (batt16 >? 410) && low then
    modify (set_low_batt_protection false) ;;
    rep <- gets (fun w => send_repeat_time (g_lorawan_settings (api w))) ;;
    timer g_task_wakeup_timer_id (t_setPeriod rep) ;;
    timer g_task_wakeup_timer_id t_reset
  else ret tt.

(** Send only the battery level, when protected or without receiver. *)
Definition send_battery_level : M unit :=
  low <- gets (fun w => low_batt_protection (app w)) ;;
  opt <- gets (fun w => gnss_option (gnss w)) ;;
  when (low || gnss_option_eqb opt NO_GNSS_INIT)
    (lorawan <- gets (fun w => lorawan_enable (g_lorawan_settings (api w))) ;;
     data <- gets (fun w => firstn 4 (env_image h (g_env_data (api w)))) ;;
     if lorawan then
       r <- call_send_lora_packet data ;;
       match r with
       | LMH_SUCCESS => ret tt
       | LMH_BUSY => emit (AT_PRINTF "+EVT:BUSY")
       | LMH_ERROR => emit (AT_PRINTF "+EVT:SIZE_ERROR")
       end
     else
       _ <- call_send_p2p_packet data ;;
       ret tt).

(** Timer triggered event. *)
Definition status_event : M unit :=
  raised <- event_pending STATUS ;;
  when raised
    (and_events N_STATUS ;;
     wake_sensors ;;
     get_battery_level ;;
     battery_protection ;;
     send_battery_level).

(** The time to wait before the delayed send: the conditional expression
    that initialises wait_time, with its two further clock reads. *)
Definition compute_wait_time (last md : Z) : M Z :=
  now2 <- millis ;;
  if Z.abs (if md - (now2 - last) >=? 0 then 1 else 0) =? 0
  then ret md
  else now3 <- millis ;; ret (md - (now3 - last)).

(** Check time since last send: the value of send_now, and the arming of
    the delayed_sending timer when the send has to wait. *)
Definition check_send_now : M bool :=
  rep <- gets (fun w => send_repeat_time (g_lorawan_settings (api w))) ;;
  if negb (rep =? 0) then
    now1 <- millis ;;
    last <- gets (fun w => last_pos_send (app w)) ;;
    md <- gets (fun w => min_delay (app w)) ;;
    if now1 - last <? md then
      active <- gets (fun w => delayed_active (app w)) ;;
      when (negb active)
        (timer delayed_sending_id t_stop ;;
         wait_time <- compute_wait_time last md ;;
         timer delayed_sending_id (t_setPeriod wait_time) ;;
         timer delayed_sending_id t_start ;;
         modify (set_delayed_active true)) ;;
      ret false
    else ret true
  else ret true.

(** After the check: the send request when it is due, and the reset of
    the standard timer. *)
Definition request_send (send_now : bool) : M unit :=
  when send_now
    (now <- millis ;;
     modify (set_last_pos_send now) ;;
     or_events STATUS) ;;
  rep <- gets (fun w => send_repeat_time (g_lorawan_settings (api w))) ;;
  when (negb (rep =? 0)) (timer g_task_wakeup_timer_id t_reset).

(** ACC trigger event. *)
Definition acc_event : M unit :=
  raised <- event_pending ACC_TRIGGER ;;
  joined <- gets (fun w => g_lpwan_has_joined (api w)) ;;
  when (raised && joined)
    (and_events N_ACC_TRIGGER ;;
     emit clear_acc_int ;;
     send_now <- check_send_now ;;
     request_send send_now).

Definition copy_to_packet (off : nat) (src : world -> list Z) (n : nat) : M unit :=
  modify (fun w => set_packet_buff (memcpy (packet_buff (app w)) off (src w) n) w).

Definition set_len (n : nat) : M unit :=
  modify (set_packet_len (wrap8 (Z.of_nat n))).

Definition tracker_l (w : world) : list Z := prec_image h (g_tracker_data_l (gnss w)).
Definition tracker_s (w : world) : list Z := short_image h (g_tracker_data_s (gnss w)).
Definition env_data (w : world) : list Z := env_image h (g_env_data (api w)).

(** The packet handed to the radio: packet_buff, packet_len. *)
Definition packet (w : world) : list Z :=
  firstn (Z.to_nat (packet_len (app w))) (packet_buff (app w)).

(** Filling packet_buff after a location search. *)
Definition build_packet : M unit :=
  let PREC := TRACKER_DATA_PREC_LEN h in
  let SHORT := TRACKER_DATA_SHORT_LEN h in
  let ENV := ENVIRONMENT_DATA_LEN h in
  modify (set_packet_buff (memset0 (PREC + ENV))) ;;
  ok <- gets (fun w => last_read_ok (gnss w)) ;;
  prec6 <- gets (fun w => g_gps_prec_6 (app w)) ;;
  env <- gets (fun w => has_env_sensor (app w)) ;;
  if ok then
    if prec6 then
      copy_to_packet 0 tracker_l PREC ;;
      if env then
        copy_to_packet PREC env_data ENV ;;
        set_len (PREC + ENV)
      else
        copy_to_packet PREC env_data 4 ;;
        set_len (PREC + 4)
    else
      copy_to_packet 0 tracker_s SHORT ;;
      if env then
        copy_to_packet SHORT env_data ENV ;;
        set_len (SHORT + ENV)
      else
        copy_to_packet SHORT env_data 4 ;;
        set_len (SHORT + 4)
  else
    if env then
      copy_to_packet 0 env_data ENV ;;
      set_len ENV
    else
      copy_to_packet 0 env_data 4 ;;
      set_len 4.

(** Send packet over LoRaWAN: the nested switch on the send result. *)
Definition send_over_lorawan : M unit :=
  data <- gets packet ;;
  r <- call_send_lora_packet data ;;
  match r with
  | LMH_SUCCESS => ret tt
  | LMH_BUSY => emit (AT_PRINTF "+EVT:BUSY")
  | LMH_ERROR =>
      r2 <- call_send_lora_packet data ;;
      match r2 with
      | LMH_SUCCESS => ret tt
      | LMH_BUSY => emit (AT_PRINTF "+EVT:BUSY")
      | LMH_ERROR =>
          emit (AT_PRINTF "+EVT:SIZE_ERROR RETRY") ;;
          _ <- call_send_lora_packet data ;;
          emit (AT_PRINTF "+EVT:SIZE_ERROR")
      end
  end.

(** GNSS location search finished, first part: get the environment data,
    remember the time of sending, clear the delay flag. *)
Definition remember_sending : M unit :=
  call_read_bme ;;
  now <- millis ;;
  modify (set_last_pos_send now) ;;
  modify (set_delayed_active false).

(** Check payload size: region 8 with data rate 0 leaves the handler. *)
Definition check_payload_size : M unit :=
  cfg <- gets (fun w => g_lorawan_settings (api w)) ;;
  when (lora_region cfg =? 8)
    (when (data_rate cfg =? 0)
       (emit (AT_PRINTF "+EVT:DR_ERROR") ;;
        return_)).

Definition send_packet : M unit :=
  lorawan <- gets (fun w => lorawan_enable (g_lorawan_settings (api w))) ;;
  if lorawan then
    check_payload_size ;;
    send_over_lorawan
  else
    data <- gets packet ;;
    sent <- call_send_p2p_packet data ;;
    if sent then ret tt else emit (AT_PRINTF "+EVT:SIZE_ERROR").

(** GNSS location search finished. *)
Definition gnss_fin_event : M unit :=
  raised <- event_pending GNSS_FIN ;;
  when raised
    (and_events N_GNSS_FIN ;;
     remember_sending ;;
     build_packet ;;
     send_packet).

Definition app_event_handler : M unit :=
  function_ (status_event ;; acc_event ;; gnss_fin_event).

(** lora_data_handler: join finished, TX finished, data received. *)
Definition join_fin_event : M unit :=
  raised <- event_pending LORA_JOIN_FIN ;;
  when raised
    (and_events N_LORA_JOIN_FIN ;;
     joined <- gets (fun w => g_join_result (api w)) ;;
     if joined then
       emit (AT_PRINTF "+EVT:JOINED") ;;
       emit start_gnss_task ;;
       now <- millis ;;
       modify (set_last_pos_send now)
     else
       emit (AT_PRINTF "+EVT:JOIN FAILED") ;;
       emit lmh_join).

Definition tx_fin_event : M unit :=
  raised <- event_pending LORA_TX_FIN ;;
  when raised
    (and_events N_LORA_TX_FIN ;;
     cfg <- gets (fun w => g_lorawan_settings (api w)) ;;
     ack <- gets (fun w => g_rx_fin_result (api w)) ;;
     (if confirmed_msg_enabled cfg && lorawan_enable cfg
      then emit (AT_PRINTF (if ack then "+EVT:SEND CONFIRMED SUCCESS"
                            else "+EVT:SEND CONFIRMED FAIL"))
      else emit (AT_PRINTF "+EVT:SEND OK")) ;;
     when (negb ack)
       (modify (fun w => set_send_fail (wrap8 (send_fail (app w) + 1)) w) ;;
        fails <- gets (fun w => send_fail (app w)) ;;
        when (fails =? 10)
          (emit (delay 100) ;;
           emit sd_nvic_SystemReset ;;
           stop Halted))).

Definition lora_data_event : M unit :=
  raised <- event_pending LORA_DATA ;;
  when raised
    (and_events N_LORA_DATA ;;
     lorawan <- gets (fun w => lorawan_enable (g_lorawan_settings (api w))) ;;
     data <- gets (fun w => g_rx_lora_data (api w)) ;;
     emit (AT_RX lorawan data)).

Definition lora_data_handler : M unit :=
  function_ (join_fin_event ;; tx_fin_event ;; lora_data_event).

(** ** The timer service

    When a running timer expires it calls its callback; a timer begun
    without reload stops counting before the callback runs. *)
Definition timer_expire (id : timer_id) (callback : M unit) : M unit :=
  t <- gets (timer_get id) ;;
  when (running t)
    (modify (timer_put id {| period := period t;
                             repeating := repeating t;
                             running := repeating t |}) ;;
     callback).

(** ** gnss.cpp *)

(** The timeout of the polling loop. *)
Definition check_limit (w : world) : Z :=
  let rep := send_repeat_time (g_lorawan_settings (api w)) in
  if rep =? 0 then 90000
  else if rep <=? 90000 then rep / 2
  else 90000.

(** The local variables of poll_gnss. *)
Record poll_locals := {
  latitude : Z;
  longitude : Z;
  altitude : Z;
  accuracy : Z;
  has_pos : bool;
  has_alt : bool
}.

Definition poll_start : poll_locals :=
  {| latitude := 0; longitude := 0; altitude := 0; accuracy := 0;
     has_pos := false; has_alt := false |}.

(** One decoded character of the serial receiver. *)
Definition nmea_step (c : nmea_char) (l : poll_locals) : poll_locals :=
  if encoded c then
    match nmea_location c, nmea_altitude c, nmea_hdop c with
    | Some (lat, lng), _, _ =>
        {| latitude := lat; longitude := lng; altitude := altitude l;
           accuracy := accuracy l; has_pos := true; has_alt := has_alt l |}
    | None, Some alt, _ =>
        {| latitude := latitude l; longitude := longitude l; altitude := alt;
           accuracy := accuracy l; has_pos := has_pos l; has_alt := true |}
    | None, None, Some hdop =>
        {| latitude := latitude l; longitude := longitude l; altitude := altitude l;
           accuracy := hdop; has_pos := has_pos l; has_alt := has_alt l |}
    | None, None, None => l
    end
  else l.

(** while (Serial1.available() > 0): stops at the first character after
    which both the position and the altitude are known. *)
Fixpoint serial_loop (cs : list nmea_char) (l : poll_locals) : poll_locals :=
  match cs with
  | [] => l
  | c :: cs' =>
      let l' := nmea_step c l in
      if has_pos l' && has_alt l' then l' else serial_loop cs' l'
  end.

(** while ((millis() - time_out) < check_limit), with a budget of turns. *)
Fixpoint poll_loop (fuel : nat) (time_out limit : Z) (l : poll_locals) : M poll_locals :=
  match fuel with
  | O => stop Spinning
  | S fuel' =>
      now <- millis ;;
      if now - time_out <? limit then
        opt <- gets (fun w => gnss_option (gnss w)) ;;
        s <- read_tape (fun w => receiver (out w)) set_receiver ;;
        if gnss_option_eqb opt RAK12500_GNSS then
          if getGnssFixOk s then
            if getFixType s >=? 3 then
              modify (set_last_read_ok true) ;;
              ret {| latitude := getLatitude s; longitude := getLongitude s;
                     altitude := getAltitude s; accuracy := getHorizontalDOP s;
                     has_pos := has_pos l; has_alt := has_alt l |}
            else poll_loop fuel' time_out limit l
          else
            emit (delay 1000) ;;
            poll_loop fuel' time_out limit l
        else
          let l' := serial_loop (serial1 s) l in
          if has_pos l' && has_alt l' then
            modify (set_last_read_ok true) ;;
            ret l'
          else poll_loop fuel' time_out limit l'
      else ret l
  end.

(** Save default Cayenne LPP precision. *)
Definition save_short (l : poll_locals) : tracker_data_short_s :=
  let lat := Z.quot (latitude l) 1000 in
  let lng := Z.quot (longitude l) 1000 in
  let alt := Z.quot (altitude l) 10 in
  {| s_lat_1 := val8 lat 2; s_lat_2 := val8 lat 1; s_lat_3 := val8 lat 0;
     s_long_1 := val8 lng 2; s_long_2 := val8 lng 1; s_long_3 := val8 lng 0;
     s_alt_1 := val8 alt 2; s_alt_2 := val8 alt 1; s_alt_3 := val8 alt 0 |}.

(** Save extended precision. *)
Definition save_prec (l : poll_locals) : tracker_data_prec_s :=
  let lat := Z.quot (latitude l) 10 in
  let lng := Z.quot (longitude l) 10 in
  let alt := Z.quot (altitude l) 10 in
  {| l_lat_1 := val8 lat 3; l_lat_2 := val8 lat 2; l_lat_3 := val8 lat 1;
     l_lat_4 := val8 lat 0;
     l_long_1 := val8 lng 3; l_long_2 := val8 lng 2; l_long_3 := val8 lng 1;
     l_long_4 := val8 lng 0;
     l_alt_1 := val8 alt 2; l_alt_2 := val8 alt 1; l_alt_3 := val8 alt 0 |}.

Definition zero_short : tracker_data_short_s :=
  {| s_lat_1 := 0; s_lat_2 := 0; s_lat_3 := 0;
     s_long_1 := 0; s_long_2 := 0; s_long_3 := 0;
     s_alt_1 := 0; s_alt_2 := 0; s_alt_3 := 0 |}.

Definition zero_prec : tracker_data_prec_s :=
  {| l_lat_1 := 0; l_lat_2 := 0; l_lat_3 := 0; l_lat_4 := 0;
     l_long_1 := 0; l_long_2 := 0; l_long_3 := 0; l_long_4 := 0;
     l_alt_1 := 0; l_alt_2 := 0; l_alt_3 := 0 |}.

(** poll_gnss after the loop: power down, then the test on last_read_ok. *)
Definition poll_finish (l : poll_locals) : M bool :=
  emit gnss_power_down ;;
  ok <- gets (fun w => last_read_ok (gnss w)) ;;
  if ok then
    if (latitude l =? 0) && (longitude l =? 0) then
      modify (set_last_read_ok false) ;;
      ret false
    else
      modify (set_g_tracker_data_s (save_short l)) ;;
      modify (set_g_tracker_data_l (save_prec l)) ;;
      ret true
  else
    modify (set_g_tracker_data_s zero_short) ;;
    modify (set_g_tracker_data_l zero_prec) ;;
    modify (set_last_read_ok false) ;;
    ret false.

(** poll_gnss up to the end of the loop: the values found. *)
Definition acquisition (fuel : nat) : M poll_locals :=
  modify (set_last_read_ok false) ;;
  emit init_gnss ;;
  time_out <- millis ;;
  limit <- gets check_limit ;;
  poll_loop fuel time_out limit poll_start.

Definition poll_gnss (fuel : nat) : M bool :=
  l <- acquisition fuel ;;
  poll_finish l.

(** One turn of gnss_task, once its semaphore has been taken. *)
Definition gnss_task (fuel : nat) : M unit :=
  emit (AT_PRINTF "+EVT:START_LOCATION") ;;
  got_location <- poll_gnss fuel ;;
  emit (AT_PRINTF (if got_location then "+EVT:LOCATION FIX" else "+EVT:LOCATION NOFIX")) ;;
  or_events GNSS_FIN ;;
  emit give_task_sem.

End Firmware.

(** ** A concrete header and a concrete device

    Event bits as the WisBlock API numbers them, and payload structs that
    start with two Cayenne LPP marker bytes followed by the fields in the
    order poll_gnss stores them. *)
Definition sample_short_image (t : tracker_data_short_s) : list Z :=
  [1; 136; s_lat_1 t; s_lat_2 t; s_lat_3 t; s_long_1 t; s_long_2 t; s_long_3 t;
   s_alt_1 t; s_alt_2 t; s_alt_3 t].

Definition sample_prec_image (t : tracker_data_prec_s) : list Z :=
  [1; 137; l_lat_1 t; l_lat_2 t; l_lat_3 t; l_lat_4 t;
   l_long_1 t; l_long_2 t; l_long_3 t; l_long_4 t;
   l_alt_1 t; l_alt_2 t; l_alt_3 t].

Definition sample_env_image (e : environment_data_s) : list Z :=
  [2; 2; batt_1 e; batt_2 e] ++ firstn 12 (sensor e ++ repeat 0 12%nat).

Definition sample_h : app_h :=
  {| STATUS_bit := 0;
     ACC_TRIGGER_bit := 15;
     GNSS_FIN_bit := 14;
     LORA_JOIN_FIN_bit := 6;
     LORA_TX_FIN_bit := 4;
     LORA_DATA_bit := 3;
     TRACKER_DATA_SHORT_LEN := 11;
     TRACKER_DATA_PREC_LEN := 13;
     ENVIRONMENT_DATA_LEN := 16;
     short_image := sample_short_image;
     prec_image := sample_prec_image;
     env_image := sample_env_image |}.

Definition const_tape {A} (a : A) : tape A := {| next := fun _ => a; pos := 0 |}.

(** A tape that plays a list and then repeats a last value. *)
Definition list_tape {A} (l : list A) (d : A) : tape A :=
  {| next := fun n => nth n l d; pos := 0 |}.

Definition sample_settings : s_lorawan_settings :=
  {| lorawan_enable := true;
     send_repeat_time := 60000;
     lora_region := 5;
     data_rate := 3;
     confirmed_msg_enabled := true |}.

Definition stopped (ms : Z) (rep : bool) : SoftwareTimer :=
  {| period := ms; repeating := rep; running := false |}.

Definition no_sample : gnss_sample :=
  {| getGnssFixOk := false; getFixType := 0; getLatitude := 0; getLongitude := 0;
     getAltitude := 0; getHorizontalDOP := 0; serial1 := [] |}.

(** A joined LoRaWAN tracker with a u-blox receiver and no pending event:
    the globals as their initialisers and init_app leave them. *)
Definition sample_world : world :=
  {| api := {| g_lorawan_settings := sample_settings;
               g_task_event_type := 0;
               g_lpwan_has_joined := true;
               g_enable_ble := false;
               g_join_result := true;
               g_rx_fin_result := true;
               g_rx_lora_data := [];
               g_env_data := {| batt_1 := 0; batt_2 := 0; sensor := [] |};
               g_task_wakeup_timer :=
                 {| period := 60000; repeating := true; running := true |} |};
     app := {| last_pos_send := 0;
               delayed_sending := stopped 30000 false;
               batt_level := 0;
               delayed_active := false;
               min_delay := 30000;
               send_fail := 0;
               low_batt_protection := false;
               init_result := true;
               g_gps_prec_6 := true;
               packet_buff := memset0 29;
               packet_len := 0;
               has_env_sensor := false |};
     gnss := {| g_tracker_data_s := zero_short;
                g_tracker_data_l := zero_prec;
                last_read_ok := false;
                gnss_option := RAK12500_GNSS |};
     out := {| clock := const_tape 0;
               adc := const_tape 4000;
               radio := const_tape LMH_SUCCESS;
               p2p := const_tape true;
               bme := const_tape (fun e => e);
               receiver := const_tape no_sample;
               trace := [] |} |}.

Definition with_clock (l : list Z) (d : Z) (w : world) : world :=
  set_clock (list_tape l d) w.

(** The payload lengths and struct images of app.h fit each other: every
    image has the length of its struct, the battery block of four bytes
    lies inside the environment struct, and the packet length fits its
    uint8_t. *)
Definition layout_ok (h : app_h) : Prop :=
  (forall e, List.length (env_image h e) = ENVIRONMENT_DATA_LEN h) /\
  (forall t, List.length (short_image h t) = TRACKER_DATA_SHORT_LEN h) /\
  (forall t, List.length (prec_image h t) = TRACKER_DATA_PREC_LEN h) /\
  (4 <= ENVIRONMENT_DATA_LEN h)%nat /\
  (TRACKER_DATA_SHORT_LEN h <= TRACKER_DATA_PREC_LEN h)%nat /\
  (TRACKER_DATA_PREC_LEN h + ENVIRONMENT_DATA_LEN h < 256)%nat.

(** The position block that a valid fix would put in front of the
    environment block. *)
Definition position_block_length (h : app_h) (w : world) : nat :=
  if g_gps_prec_6 (app w) then TRACKER_DATA_PREC_LEN h else TRACKER_DATA_SHORT_LEN h.

(** The sample tracker (no environment sensor) when a search has just
    ended without a fix. *)
Definition no_fix_world : world :=
  set_g_task_event_type (GNSS_FIN sample_h) sample_world.

(** The sample tracker with a motion flag raised before the join. *)
Definition motion_before_join : world :=
  set_g_lpwan_has_joined false
    (set_g_task_event_type (ACC_TRIGGER sample_h) sample_world).

(** The sample tracker configured for region 8 at data rate 0, when a
    location search has just ended. *)
Definition region8_dr0 : s_lorawan_settings :=
  {| lorawan_enable := true;
     send_repeat_time := 60000;
     lora_region := 8;
     data_rate := 0;
     confirmed_msg_enabled := true |}.

Definition fix_in_region8 : world :=
  set_g_lorawan_settings region8_dr0
    (set_g_task_event_type (GNSS_FIN sample_h) sample_world).

(** The world in which gnss_task starts its search: the start line is out. *)
Definition task_started (w : world) : world :=
  exec (emit (AT_PRINTF "+EVT:START_LOCATION")) w.

(** A u-blox receiver that reports a 3D fix at latitude 0, longitude 0. *)
Definition null_island : gnss_sample :=
  {| getGnssFixOk := true; getFixType := 3; getLatitude := 0; getLongitude := 0;
     getAltitude := 12000; getHorizontalDOP := 150; serial1 := [] |}.

Definition null_island_world : world :=
  set_receiver (const_tape null_island) sample_world.

(** The sample tracker after a failed search, with a radio that is busy
    once and free afterwards. *)
Definition busy_once_world : world :=
  set_radio (list_tape [LMH_BUSY] LMH_SUCCESS) no_fix_world.

(** The sample tracker after a failed search, with a radio that refuses
    the packet twice and accepts it the third time. *)
Definition third_time_world : world :=
  set_radio (list_tape [LMH_ERROR; LMH_ERROR] LMH_SUCCESS) no_fix_world.

(** The radio has finished a transmission: the API stores the result,
    raises LORA_TX_FIN and wakes the handler. *)
Definition tx_finished (h : app_h) (ack : bool) : M unit :=
  modify (set_g_rx_fin_result ack) ;;
  or_events (LORA_TX_FIN h) ;;
  lora_data_handler h.

(** A series of finished transmissions, until a reset ends it. *)
Fixpoint tx_cycles (h : app_h) (acks : list bool) : M unit :=
  match acks with
  | [] => ret tt
  | ack :: rest => tx_finished h ack ;; tx_cycles h rest
  end.

(** The number of failed transmissions of a series. *)
Definition failures (acks : list bool) : nat := List.length (filter negb acks).

(** The failures in a row at the end of a series, counted on from [n]: a
    counter that a success would set back to 0. *)
Fixpoint consecutive_failures (n : nat) (acks : list bool) : nat :=
  match acks with
  | [] => n
  | ack :: rest => consecutive_failures (if ack then 0%nat else S n) rest
  end.

(** Nine failures, a success, and one more failure. *)
Definition nine_one_one : list bool := repeat false 9 ++ [true; false].

(** The battery level that the next timer event will find: the next
    converter value, in hundredths of a volt, as a uint16_t. *)
Definition battery_reading (w : world) : Z :=
  wrap16 (fst (pull (adc (out w))) / 10).

(** The battery level that the timer event after [k] more will find. *)
Definition reading_at (w : world) (k : nat) : Z :=
  wrap16 (next (adc (out w)) (pos (adc (out w)) + k) / 10).

(** The state of the timer section when the battery has been measured. *)
Definition status_measured (h : app_h) (w : world) : world :=
  exec get_battery_level (exec wake_sensors (exec (and_events (N_STATUS h)) w)).

(** The periodic timer fires: the API raises STATUS and the handler runs. *)
Definition wakeup (h : app_h) : M unit :=
  or_events (STATUS h) ;;
  app_event_handler h.

Fixpoint wakeups (h : app_h) (n : nat) : M unit :=
  match n with
  | O => ret tt
  | S k => wakeup h ;; wakeups h k
  end.

(** [grows c]: [c] only appends to the trace. *)
Definition grows {A} (c : M A) : Prop :=
  forall w, exists l, trace (out (exec c w)) = (trace (out w) ++ l)%list.

(** The sample tracker at a timer event, with a chosen battery voltage in
    millivolts and a chosen protection flag. *)
Definition timer_event_world (mv : Z) (low : bool) : world :=
  set_low_batt_protection low
    (set_adc (const_tape mv)
       (set_g_task_event_type (STATUS sample_h) sample_world)).

(** A call on the periodic wake-up timer, as the trace shows it. *)
Definition wake_call (op : timer_op) : action := timer_call g_task_wakeup_timer_id op.

(** The calls on the delayed_sending timer that a trace holds. *)
Definition is_delayed_call (a : action) : bool :=
  match a with
  | timer_call delayed_sending_id _ => true
  | _ => false
  end.

Definition delayed_calls (tr : list action) : list action := filter is_delayed_call tr.

(** The delayed_sending timer runs out [n] times in a row, nothing else
    happening in between. *)
Fixpoint expirations (h : app_h) (n : nat) : M unit :=
  match n with
  | O => ret tt
  | S k => timer_expire delayed_sending_id (send_delayed h) ;; expirations h k
  end.

(** The sample tracker, 1 s after a send, at a motion event. *)
Definition motion_at (clock_reads : list Z) (w : world) : world :=
  with_clock clock_reads (last clock_reads 0)
    (set_g_task_event_type (ACC_TRIGGER sample_h) w).

(** The sample tracker after the motion event at 1000 ms has armed the
    delayed send, at a second motion event at 2000 ms. *)
Definition second_motion : world :=
  motion_at [2000] (exec (app_event_handler sample_h) (motion_at [1000] sample_world)).

(** The sample tracker at a motion event during which the clock moves on
    from 29999 ms over 30000 ms to 30001 ms. *)
Definition clock_moves_on : world := motion_at [29999; 30000; 30001] sample_world.

(** ** Notions used in the proofs *)

(** [keeps f c]: whatever its outcome, [c] leaves the observation [f] of
    the world as it was.  [falls c]: [c] always reaches the next statement. *)
Definition keeps {A X} (f : world -> X) (c : M A) : Prop :=
  forall w, f (exec c w) = f w.

Definition falls {A} (c : M A) : Prop :=
  forall w, exists a, result c w = Next a.

(** The flag bits of app.h are distinct bits of a 16-bit word. *)
Definition flags_ok (h : app_h) : Prop :=
  let bits := [STATUS_bit h; ACC_TRIGGER_bit h; GNSS_FIN_bit h;
               LORA_JOIN_FIN_bit h; LORA_TX_FIN_bit h; LORA_DATA_bit h] in
  NoDup bits /\ Forall (fun b => 0 <= b < 16) bits.

(** Bit [i] of g_task_event_type. *)
Definition event_bit (i : Z) (w : world) : bool :=
  Z.testbit (g_task_event_type (api w)) i.

(** The state in which the fix section builds the packet, and the state
    in which it sends. *)
Definition fix_noted (h : app_h) (w : world) : world :=
  exec remember_sending (exec (and_events (N_GNSS_FIN h)) w).

Definition fix_built (h : app_h) (w : world) : world :=
  exec (build_packet h) (fix_noted h w).

(** ** Reading a payload field back

    The value of a field stored most significant byte first, without and
    with sign. *)
Definition be_unsigned (bytes : list Z) : Z :=
  fold_left (fun acc b => acc * 256 + b) bytes 0.

Definition be_signed (bytes : list Z) : Z :=
  let u := be_unsigned bytes in
  let bits := 8 * Z.of_nat (List.length bytes) in
  if u <? 2 ^ (bits - 1) then u else u - 2 ^ bits.

(** The position given as an example in poll_gnss: 14.4213730 N,
    121.0069140 E, 35 m. *)
Definition manila : poll_locals :=
  {| latitude := 144213730; longitude := 1210069140; altitude := 35000;
     accuracy := 120; has_pos := false; has_alt := false |}.

(** A position in the south-west: 33.9248685 S, 70.6509278 W, 12 m below
    the reference. *)
Definition south_west : poll_locals :=
  {| latitude := -339248685; longitude := -706509278; altitude := -12000;
     accuracy := 120; has_pos := false; has_alt := false |}.

(** The clock value and the receiver sample that the [k]-th coming read
    will return. *)
Definition clock_at (w : world) (k : nat) : Z :=
  next (clock (out w)) (pos (clock (out w)) + k).

Definition sample_at (w : world) (k : nat) : gnss_sample :=
  next (receiver (out w)) (pos (receiver (out w)) + k).

(** The world after one read of the clock and one of the receiver. *)
Definition turn_taken (w : world) : world :=
  set_receiver (snd (pull (receiver (out w)))) (set_clock (snd (pull (clock (out w)))) w).

(** A u-blox sample that poll_gnss accepts. *)
Definition fix_3d (s : gnss_sample) : bool := getGnssFixOk s && (getFixType s >=? 3).

(** The sample tracker with a clock that advances 1 s per read and a
    receiver that has no fix for two turns and then a 3D fix in Manila. *)
Definition manila_sample : gnss_sample :=
  {| getGnssFixOk := true; getFixType := 3; getLatitude := 144213730;
     getLongitude := 1210069140; getAltitude := 35000; getHorizontalDOP := 120;
     serial1 := [] |}.

Definition searching_world : world :=
  set_receiver (list_tape [no_sample; no_sample] manila_sample)
    (set_clock {| next := fun n => 1000 * Z.of_nat n; pos := 0 |} sample_world).

(** The same tracker with a receiver that never has a fix. *)
Definition blind_world : world :=
  set_clock {| next := fun n => 1000 * Z.of_nat n; pos := 0 |} sample_world.

(** The world in which the polling loop of poll_gnss starts. *)
Definition search_started (w : world) : world :=
  set_clock (snd (pull (clock (out w))))
    (exec (emit init_gnss) (set_last_read_ok false w)).

(** The local variables after a u-blox sample has been accepted. *)
Definition locals_of (s : gnss_sample) : poll_locals :=
  {| latitude := getLatitude s; longitude := getLongitude s;
     altitude := getAltitude s; accuracy := getHorizontalDOP s;
     has_pos := false; has_alt := false |}.

(** How many of has_pos and has_alt are set, and how many characters of
    the serial input completed a sentence. *)
Definition flags_set (l : poll_locals) : nat :=
  ((if has_pos l then 1 else 0) + (if has_alt l then 1 else 0))%nat.

Definition sentences (cs : list nmea_char) : nat := List.length (filter encoded cs).

(** A sentence that reports position and altitude at once. *)
Definition full_sentence : nmea_char :=
  {| encoded := true; nmea_location := Some (144213730, 1210069140);
     nmea_altitude := Some 35000; nmea_hdop := Some 120 |}.

(** A sentence that reports the altitude only. *)
Definition altitude_sentence : nmea_char :=
  {| encoded := true; nmea_location := None;
     nmea_altitude := Some 35000; nmea_hdop := None |}.

(** Whether a motion event finds a send due: the test of check_send_now
    on the first clock value. *)
Definition send_due (w : world) : bool :=
  (send_repeat_time (g_lorawan_settings (api w)) =? 0) ||
  negb (clock_at w 0 - last_pos_send (app w) <? min_delay (app w)).

(** The sample tracker at a motion event 40 s after the last send. *)
Definition motion_after_40s : world := motion_at [40000; 40001] sample_world.


(** The sample tracker with an environment sensor, after a search that
    stored the fix of Manila, when the fix-completed event is handled. *)
Definition fix_world : world :=
  set_has_env_sensor true
    (set_last_read_ok true
       (set_g_tracker_data_l (save_prec manila)
          (set_g_tracker_data_s (save_short manila) no_fix_world))).

(** The API has finished a join attempt with the given result. *)
Definition join_finished_world (joined : bool) : world :=
  with_api
    {| g_lorawan_settings := sample_settings;
       g_task_event_type := flag (LORA_JOIN_FIN_bit sample_h);
       g_lpwan_has_joined := joined;
       g_enable_ble := false;
       g_join_result := joined;
       g_rx_fin_result := true;
       g_rx_lora_data := [];
       g_env_data := g_env_data (api sample_world);
       g_task_wakeup_timer := g_task_wakeup_timer (api sample_world) |}
    sample_world.

(** ** init_gnss: the choice of the receiver

    init_gnss() works on two variables of gnss.cpp, i2c_gnss and
    gnss_option, and on what the u-blox library answers: my_gnss.begin() on
    I2C, and the successive my_gnss.begin(Serial1).  The calls it makes on
    the hardware are recorded in order.  The wait [while (!Serial1)] ends at
    once: the serial port of this core is usable as soon as it is begun. *)
Inductive gnss_call :=
| digitalWrite_WB_IO2_HIGH
| pause (ms : Z)
| my_gnss_begin
| my_gnss_begin_Serial1
| my_gnss_setI2COutput
| my_gnss_setUART1Output
| my_gnss_setSerialRate (baud : Z)
| my_gnss_factoryReset
| my_gnss_saveConfiguration
| my_gnss_setMeasurementRate (ms : Z)
| Serial1_begin (baud : Z)
| Serial1_end.

Record receiver_bus := {
  i2c_gnss : bool;
  chosen : gnss_option_t;
  i2c_answers : tape bool;
  serial_answers : tape bool;
  calls : list gnss_call
}.

Definition call (c : gnss_call) (b : receiver_bus) : receiver_bus :=
  {| i2c_gnss := i2c_gnss b; chosen := chosen b; i2c_answers := i2c_answers b;
     serial_answers := serial_answers b; calls := (calls b ++ [c])%list |}.

Definition set_i2c_gnss (v : bool) (b : receiver_bus) : receiver_bus :=
  {| i2c_gnss := v; chosen := chosen b; i2c_answers := i2c_answers b;
     serial_answers := serial_answers b; calls := calls b |}.

Definition set_chosen (v : gnss_option_t) (b : receiver_bus) : receiver_bus :=
  {| i2c_gnss := i2c_gnss b; chosen := v; i2c_answers := i2c_answers b;
     serial_answers := serial_answers b; calls := calls b |}.

(** my_gnss.begin() *)
Definition ask_i2c (b : receiver_bus) : bool * receiver_bus :=
  (fst (pull (i2c_answers b)),
   call my_gnss_begin
     {| i2c_gnss := i2c_gnss b; chosen := chosen b;
        i2c_answers := snd (pull (i2c_answers b));
        serial_answers := serial_answers b; calls := calls b |}).

(** my_gnss.begin(Serial1) *)
Definition ask_serial (b : receiver_bus) : bool * receiver_bus :=
  (fst (pull (serial_answers b)),
   call my_gnss_begin_Serial1
     {| i2c_gnss := i2c_gnss b; chosen := chosen b;
        i2c_answers := i2c_answers b;
        serial_answers := snd (pull (serial_answers b)); calls := calls b |}).

(** The do-while loop over the baud rates, from the value [retry] of its
    counter on; the answer is gnss_found. *)
Fixpoint serial_search (fuel : nat) (retry : Z) (b : receiver_bus)
  : option (bool * receiver_bus) :=
  match fuel with
  | O => None
  | S fuel' =>
      let (at_38400, b1) := ask_serial (call (Serial1_begin 38400) b) in
      if at_38400 then
        Some (true, set_chosen RAK12500_GNSS (call my_gnss_setUART1Output b1))
      else
        let (at_9600, b2) := ask_serial (call (Serial1_begin 9600) (call (pause 100) b1)) in
        let b3 := if at_9600
                  then call (pause 100) (call (my_gnss_setSerialRate 38400) b2)
                  else call (pause 2000) (call my_gnss_factoryReset b2) in
        let retry' := wrap8 (retry + 1) in
        if retry' =? 3 then Some (false, b3) else serial_search fuel' retry' b3
  end.

(** init_gnss: its return value and the state it leaves. *)
Definition init_gnss_detect (fuel : nat) (b : receiver_bus) : option (bool * receiver_bus) :=
  let b0 := call (pause 500) (call digitalWrite_WB_IO2_HIGH b) in
  if gnss_option_eqb (chosen b0) NO_GNSS_INIT then
    let (on_i2c, b1) := ask_i2c b0 in
    let b2 := if on_i2c
              then set_chosen RAK12500_GNSS
                     (call my_gnss_setI2COutput (set_i2c_gnss true b1))
              else set_i2c_gnss false b1 in
    match (if i2c_gnss b2 then Some (on_i2c, b2) else serial_search fuel 0 b2) with
    | None => None
    | Some (gnss_found, b3) =>
        if gnss_found then
          Some (true, call (my_gnss_setMeasurementRate 500)
                        (call my_gnss_saveConfiguration b3))
        else
          Some (true, call (Serial1_begin 9600)
                        (call (pause 500)
                           (call Serial1_end (set_chosen RAK1910_GNSS b3))))
    end
  else if gnss_option_eqb (chosen b0) RAK12500_GNSS then
    let b1 := if i2c_gnss b0
              then call my_gnss_setI2COutput (snd (ask_i2c b0))
              else call my_gnss_setUART1Output
                     (snd (ask_serial (call (Serial1_begin 38400) b0))) in
    Some (true, call (my_gnss_setMeasurementRate 500) b1)
  else
    Some (true, call (Serial1_begin 9600) b0).

(** The answer that the [k]-th my_gnss.begin(Serial1) from now will get. *)
Definition serial_answer (b : receiver_bus) (k : nat) : bool :=
  next (serial_answers b) (k + pos (serial_answers b)).

(** A board on which nothing has been detected yet. *)
Definition fresh_bus (on_i2c : bool) (on_serial : list bool) : receiver_bus :=
  {| i2c_gnss := false; chosen := NO_GNSS_INIT;
     i2c_answers := const_tape on_i2c;
     serial_answers := list_tape on_serial false;
     calls := [] |}.

(** ** lora_data_handler: the hexadecimal copy of the received data

    After the prints, the data section writes the received bytes once more,
    with sprintf, into the local array log_buff of 3 * g_rx_data_len chars.
    A store that does not fit into the array has no result. *)
Definition hex_digit (d : Z) : Z := if d <? 10 then 48 + d else 55 + d.

(** What sprintf(.., "%02X ", v) stores for a byte: two digits, a space and
    the terminating zero. *)
Definition sprintf_02X (v : Z) : list Z := [hex_digit (v / 16); hex_digit (v mod 16); 32; 0].

Definition store (buf : list Z) (off : nat) (chars : list Z) : option (list Z) :=
  if (off + List.length chars <=? List.length buf)%nat
  then Some (memcpy buf off chars (List.length chars))
  else None.

(** The loop over g_rx_lora_data, with log_idx in its 8 bits. *)
Fixpoint log_loop (data : list Z) (log_idx : Z) (log_buff : list Z) : option (list Z) :=
  match data with
  | [] => Some log_buff
  | v :: rest =>
      match store log_buff (Z.to_nat log_idx) (sprintf_02X v) with
      | Some log_buff' => log_loop rest (wrap8 (log_idx + 3)) log_buff'
      | None => None
      end
  end.

Definition log_received (data : list Z) : option (list Z) :=
  log_loop data 0 (memset0 (List.length data * 3)).

(** * Reasoning about computations *)


Section Rules.

Context {A B X : Type} (f : world -> X).

Lemma keeps_ret (a : A) : keeps f (ret a).
Proof. intro w. reflexivity. Qed.

Lemma keeps_gets (g : world -> A) : keeps f (gets g).
Proof. intro w. reflexivity. Qed.

Lemma keeps_stop (how : ctl A) : keeps f (stop how).
Proof. intro w. reflexivity. Qed.

Lemma keeps_modify (g : world -> world) :
  (forall w, f (g w) = f w) -> keeps f (modify g).
Proof. intros Hg w. apply Hg. Qed.

Lemma keeps_read_tape (sel : world -> tape A) put :
  (forall t w, f (put t w) = f w) -> keeps f (read_tape sel put).
Proof. intros Hp w. apply Hp. Qed.

Lemma keeps_bind (c : M A) (k : A -> M B) :
  keeps f c -> (forall a, keeps f (k a)) -> keeps f (bind c k).
Proof.
  intros Hc Hk w. unfold exec, bind.
  specialize (Hc w). unfold exec in Hc.
  destruct (c w) as [[a| | |] w']; simpl in *; try assumption.
  rewrite <- Hc. apply Hk.
Qed.

Lemma falls_ret (a : A) : falls (ret a).
Proof. intro w. exists a. reflexivity. Qed.

Lemma falls_gets (g : world -> A) : falls (gets g).
Proof. intro w. exists (g w). reflexivity. Qed.

Lemma falls_read_tape (sel : world -> tape A) put : falls (read_tape sel put).
Proof. intro w. eexists. reflexivity. Qed.

Lemma falls_bind (c : M A) (k : A -> M B) :
  falls c -> (forall a, falls (k a)) -> falls (bind c k).
Proof.
  intros Hc Hk w. unfold result, bind.
  destruct (Hc w) as [a Ha]. unfold result in Ha.
  destruct (c w) as [r w']; simpl in Ha; subst r.
  apply Hk.
Qed.

(** Sequencing: after a statement that falls through, the rest runs in
    the state it left. *)
Lemma exec_bind (c : M A) (k : A -> M B) w a :
  result c w = Next a -> exec (bind c k) w = exec (k a) (exec c w).
Proof.
  unfold result, exec, bind. destruct (c w) as [r w']; simpl.
  intros ->. reflexivity.
Qed.

Lemma result_bind (c : M A) (k : A -> M B) w a :
  result c w = Next a -> result (bind c k) w = result (k a) (exec c w).
Proof.
  unfold result, exec, bind. destruct (c w) as [r w']; simpl.
  intros ->. reflexivity.
Qed.

End Rules.

Lemma keeps_when {X} (f : world -> X) b c : keeps f c -> keeps f (when b c).
Proof. destruct b; intro Hc; [exact Hc | intro w; reflexivity]. Qed.

Lemma keeps_function {X} (f : world -> X) c : keeps f c -> keeps f (function_ c).
Proof.
  intros Hc w. specialize (Hc w). unfold exec, function_ in *.
  destruct (c w) as [[[]| | |] w']; exact Hc.
Qed.

Lemma falls_modify g : falls (modify g).
Proof. intro w. exists tt. reflexivity. Qed.

Lemma falls_when b c : falls c -> falls (when b c).
Proof. destruct b; intro Hc; [exact Hc | apply falls_ret]. Qed.

Lemma exec_function c w : exec (function_ c) w = exec c w.
Proof. unfold exec, function_. destruct (c w) as [[[]| | |] w']; reflexivity. Qed.

Lemma exec_seq (c k : M unit) w :
  falls c -> exec (c ;; k) w = exec k (exec c w).
Proof. intro Hc. destruct (Hc w) as [[] Ha]. apply (exec_bind c (fun _ => k) w tt Ha). Qed.

(** Syntax-directed proofs of [keeps] and [falls]. *)
Ltac head_of c :=
  match c with
  | ?g _ => head_of g
  | _ => c
  end.

Ltac keeps_step :=
  lazymatch goal with
  | |- keeps _ (bind _ _) => apply keeps_bind; [| intro]
  | |- keeps _ (ret _) => apply keeps_ret
  | |- keeps _ (gets _) => apply keeps_gets
  | |- keeps _ (stop _) => apply keeps_stop
  | |- keeps _ (when _ _) => apply keeps_when
  | |- keeps _ (function_ _) => apply keeps_function
  | |- keeps _ (modify _) => apply keeps_modify; intro; reflexivity
  | |- keeps _ (read_tape _ _) => apply keeps_read_tape; intros; reflexivity
  | |- keeps _ (if ?b then _ else _) => destruct b
  | |- keeps _ (match ?r with LMH_SUCCESS => _ | _ => _ end) => destruct r
  | |- keeps _ ?c => let g := head_of c in unfold g
  end.

Ltac keeps_auto := repeat keeps_step.

Ltac falls_step :=
  lazymatch goal with
  | |- falls (bind _ _) => apply falls_bind; [| intro]
  | |- falls (ret _) => apply falls_ret
  | |- falls (gets _) => apply falls_gets
  | |- falls (when _ _) => apply falls_when
  | |- falls (modify _) => apply falls_modify
  | |- falls (read_tape _ _) => apply falls_read_tape
  | |- falls (if ?b then _ else _) => destruct b
  | |- falls (match ?r with LMH_SUCCESS => _ | _ => _ end) => destruct r
  | |- falls ?c => let g := head_of c in unfold g
  end.

Ltac falls_auto := repeat falls_step.

(** Stepping through a sequence whose first statement is a primitive. *)
Lemma run_gets {A B} (g : world -> A) (k : A -> M B) w :
  bind (gets g) k w = k (g w) w.
Proof. reflexivity. Qed.

Lemma run_modify {B} g (k : unit -> M B) w :
  bind (modify g) k w = k tt (g w).
Proof. reflexivity. Qed.

Lemma run_read_tape {A B} (sel : world -> tape A) put (k : A -> M B) w :
  bind (read_tape sel put) k w = k (fst (pull (sel w))) (put (snd (pull (sel w))) w).
Proof. reflexivity. Qed.

Lemma run_bind_assoc {A B C} (c : M A) (k : A -> M B) (k' : B -> M C) w :
  bind (bind c k) k' w = bind c (fun a => bind (k a) k') w.
Proof. unfold bind. destruct (c w) as [[a| | |] w']; reflexivity. Qed.

(** * The event flags *)



Lemma flag_testbit b i : 0 <= b -> Z.testbit (flag b) i = (b =? i).
Proof. intro Hb. unfold flag. apply Z.pow2_bits_eqb. exact Hb. Qed.

Lemma N_flag_testbit b i :
  0 <= b -> 0 <= i < 16 -> Z.testbit (N_flag b) i = negb (b =? i).
Proof.
  intros Hb Hi. unfold N_flag. rewrite Z.lxor_spec, flag_testbit by exact Hb.
  change 65535 with (Z.ones 16). rewrite Z.ones_spec_low by exact Hi.
  reflexivity.
Qed.

Lemma pending_event_bit b w : 0 <= b -> pending (flag b) w = event_bit b w.
Proof.
  intro Hb. unfold pending, event_bit.
  set (ev := g_task_event_type (api w)).
  destruct (Z.testbit ev b) eqn:Hbit.
  - apply Z.eqb_eq. apply Z.bits_inj'. intros n Hn.
    rewrite Z.land_spec, flag_testbit by exact Hb.
    destruct (Z.eqb_spec b n) as [<- | Hne].
    + rewrite Hbit. reflexivity.
    + apply andb_false_r.
  - apply Z.eqb_neq. intro Heq.
    assert (Hf : Z.testbit (Z.land ev (flag b)) b = true).
    { rewrite Heq, flag_testbit by exact Hb. apply Z.eqb_refl. }
    rewrite Z.land_spec, Hbit in Hf. discriminate Hf.
Qed.

Lemma keeps_and_events i b :
  0 <= b -> 0 <= i < 16 -> i <> b -> keeps (event_bit i) (and_events (N_flag b)).
Proof.
  intros Hb Hi Hne w. unfold event_bit, exec, and_events, modify. simpl.
  rewrite Z.land_spec, N_flag_testbit by assumption.
  destruct (Z.eqb_spec b i) as [-> | _]; [contradiction Hne; reflexivity |].
  apply andb_true_r.
Qed.

Lemma keeps_or_events i b :
  0 <= b -> i <> b -> keeps (event_bit i) (or_events (flag b)).
Proof.
  intros Hb Hne w. unfold event_bit, exec, or_events, modify. simpl.
  rewrite Z.lor_spec, flag_testbit by assumption.
  destruct (Z.eqb_spec b i) as [-> | _]; [contradiction Hne; reflexivity |].
  apply orb_false_r.
Qed.

Lemma event_bit_or_events b w :
  0 <= b -> event_bit b (exec (or_events (flag b)) w) = true.
Proof.
  intro Hb. unfold event_bit, exec, or_events, modify. simpl.
  rewrite Z.lor_spec, flag_testbit, Z.eqb_refl by assumption.
  apply orb_true_r.
Qed.

Lemma event_bit_and_events b w :
  0 <= b < 16 -> event_bit b (exec (and_events (N_flag b)) w) = false.
Proof.
  intro Hb. unfold event_bit, exec, and_events, modify. simpl.
  rewrite Z.land_spec, N_flag_testbit, Z.eqb_refl by lia.
  apply andb_false_r.
Qed.

(** The facts about the bit positions that the proofs use. *)
Lemma flags_ok_facts h :
  flags_ok h ->
  (0 <= STATUS_bit h < 16 /\ 0 <= ACC_TRIGGER_bit h < 16 /\
   0 <= GNSS_FIN_bit h < 16 /\ 0 <= LORA_JOIN_FIN_bit h < 16 /\
   0 <= LORA_TX_FIN_bit h < 16 /\ 0 <= LORA_DATA_bit h < 16) /\
  (STATUS_bit h <> ACC_TRIGGER_bit h /\ STATUS_bit h <> GNSS_FIN_bit h /\
   ACC_TRIGGER_bit h <> GNSS_FIN_bit h /\
   LORA_JOIN_FIN_bit h <> LORA_TX_FIN_bit h /\
   LORA_JOIN_FIN_bit h <> LORA_DATA_bit h /\
   LORA_TX_FIN_bit h <> LORA_DATA_bit h).
Proof.
  intros [Hnd Hrange]. split.
  - repeat match goal with
           | Hf : Forall _ (_ :: _) |- _ => inversion_clear Hf
           end.
    repeat split; lia.
  - repeat match goal with
           | Hn : NoDup (_ :: _) |- _ => inversion_clear Hn
           end.
    simpl in *. repeat split; intro Heq; symmetry in Heq; tauto.
Qed.

(** * The dispatcher as three sections *)

Section Dispatcher.

Variable h : app_h.

Lemma status_event_falls : falls (status_event h).
Proof. falls_auto. Qed.

Lemma acc_event_falls : falls (acc_event h).
Proof. falls_auto. Qed.

Lemma build_packet_falls : falls (build_packet h).
Proof. falls_auto. Qed.

Lemma remember_sending_falls : falls remember_sending.
Proof. falls_auto. Qed.

(** The handler runs its three sections one after the other. *)
Lemma handler_exec w :
  exec (app_event_handler h) w =
  exec (gnss_fin_event h) (exec (acc_event h) (exec (status_event h) w)).
Proof.
  unfold app_event_handler. rewrite exec_function.
  rewrite exec_seq by apply status_event_falls.
  rewrite exec_seq by apply acc_event_falls.
  reflexivity.
Qed.

(** What the timer section never touches. *)
Lemma status_event_gnss : keeps gnss (status_event h).
Proof. keeps_auto. Qed.

Lemma status_event_joined : keeps (fun w => g_lpwan_has_joined (api w)) (status_event h).
Proof. keeps_auto. Qed.

Lemma status_event_settings : keeps (fun w => g_lorawan_settings (api w)) (status_event h).
Proof. keeps_auto. Qed.

Lemma status_event_governor :
  keeps (fun w => (last_pos_send (app w), delayed_sending (app w),
                   delayed_active (app w), min_delay (app w))) (status_event h).
Proof. keeps_auto. Qed.

Lemma status_event_equipment :
  keeps (fun w => (has_env_sensor (app w), g_gps_prec_6 (app w))) (status_event h).
Proof. keeps_auto. Qed.

(** What the motion section never touches. *)
Lemma acc_event_gnss : keeps gnss (acc_event h).
Proof. keeps_auto. Qed.

Lemma acc_event_settings : keeps (fun w => g_lorawan_settings (api w)) (acc_event h).
Proof. keeps_auto. Qed.

Lemma acc_event_equipment :
  keeps (fun w => (has_env_sensor (app w), g_gps_prec_6 (app w))) (acc_event h).
Proof. keeps_auto. Qed.

Lemma acc_event_battery :
  keeps (fun w => (low_batt_protection (app w), period (g_task_wakeup_timer (api w))))
        (acc_event h).
Proof. keeps_auto. Qed.

(** What the fix section never touches. *)
Lemma gnss_fin_event_battery :
  keeps (fun w => (low_batt_protection (app w), g_task_wakeup_timer (api w)))
        (gnss_fin_event h).
Proof. keeps_auto. Qed.

Lemma gnss_fin_event_timer : keeps (fun w => delayed_sending (app w)) (gnss_fin_event h).
Proof. keeps_auto. Qed.

Lemma gnss_fin_event_gnss : keeps gnss (gnss_fin_event h).
Proof. keeps_auto. Qed.

Hypothesis Hok : flags_ok h.

Ltac flag_side :=
  let H := fresh in
  pose proof (flags_ok_facts h Hok) as H; lia.

Ltac keeps_events :=
  repeat lazymatch goal with
         | |- keeps _ (and_events _) => apply keeps_and_events; flag_side
         | |- keeps _ (or_events _) => apply keeps_or_events; flag_side
         | _ => keeps_step
         end.

Lemma status_event_ACC : keeps (event_bit (ACC_TRIGGER_bit h)) (status_event h).
Proof. keeps_events. Qed.

Lemma status_event_GNSS : keeps (event_bit (GNSS_FIN_bit h)) (status_event h).
Proof. keeps_events. Qed.

Lemma acc_event_GNSS : keeps (event_bit (GNSS_FIN_bit h)) (acc_event h).
Proof. keeps_events. Qed.

Lemma gnss_fin_event_ACC : keeps (event_bit (ACC_TRIGGER_bit h)) (gnss_fin_event h).
Proof. keeps_events. Qed.

(** A fix-completed flag that is raised when the handler starts is still
    raised when the handler reaches the fix section. *)
Lemma GNSS_FIN_reaches_section w :
  pending (GNSS_FIN h) w = true ->
  pending (GNSS_FIN h) (exec (acc_event h) (exec (status_event h) w)) = true.
Proof.
  pose proof (flags_ok_facts h Hok) as Hr.
  unfold GNSS_FIN. rewrite !pending_event_bit by lia.
  rewrite acc_event_GNSS, status_event_GNSS. trivial.
Qed.

End Dispatcher.

(** * Motion before the join *)

(** Without a join the motion section does nothing at all. *)
Lemma acc_event_not_joined h w :
  g_lpwan_has_joined (api w) = false -> acc_event h w = (Next tt, w).
Proof.
  intro Hj. unfold acc_event, event_pending.
  rewrite !run_gets, Hj, andb_false_r. reflexivity.
Qed.

(** C10: with the motion flag raised and the network not joined, the
    handler behaves as the handler without its motion section (no latch
    clearing, no send request, no timer call on behalf of the motion), and
    the motion flag is still raised when the handler ends. *)
Theorem C10_motion_waits_for_join (h : app_h) (w : world) :
  flags_ok h ->
  pending (ACC_TRIGGER h) w = true ->
  g_lpwan_has_joined (api w) = false ->
  acc_event h (exec (status_event h) w) = (Next tt, exec (status_event h) w) /\
  app_event_handler h w = function_ (status_event h ;; gnss_fin_event h) w /\
  pending (ACC_TRIGGER h) (exec (app_event_handler h) w) = true.
Proof.
  intros Hok Hacc Hj.
  assert (Hj' : g_lpwan_has_joined (api (exec (status_event h) w)) = false).
  { rewrite (status_event_joined h w). exact Hj. }
  split; [| split].
  - apply acc_event_not_joined. exact Hj'.
  - unfold app_event_handler, function_, bind.
    unfold exec in Hj'.
    destruct (status_event h w) as [[[]| | |] w1]; try reflexivity.
    simpl in Hj'. rewrite (acc_event_not_joined h w1 Hj'). reflexivity.
  - pose proof (flags_ok_facts h Hok) as Hr.
    unfold ACC_TRIGGER in *. rewrite pending_event_bit in * by lia.
    rewrite handler_exec.
    rewrite (gnss_fin_event_ACC h Hok).
    unfold exec at 1. rewrite (acc_event_not_joined h _ Hj'). simpl.
    rewrite (status_event_ACC h Hok). exact Hacc.
Qed.

(** * The fix section *)

Lemma run_seq {B} (c : M unit) (k : M B) w :
  falls c -> (c ;; k) w = k (exec c w).
Proof.
  intro Hc. destruct (Hc w) as [[] Ha].
  unfold bind, exec, result in *. destruct (c w) as [r w']. simpl in *.
  subst r. reflexivity.
Qed.

Section FixSection.

Variable h : app_h.


Lemma gnss_fin_event_steps w :
  pending (GNSS_FIN h) w = true ->
  gnss_fin_event h w = send_packet (fix_built h w).
Proof.
  intro Hp. unfold gnss_fin_event, event_pending. rewrite run_gets, Hp.
  unfold when, fix_built, fix_noted.
  rewrite (run_seq (and_events (N_GNSS_FIN h)) _ w (falls_modify _)).
  rewrite (run_seq remember_sending _ _ remember_sending_falls).
  rewrite (run_seq (build_packet h) _ _ (build_packet_falls h)).
  reflexivity.
Qed.

Lemma gnss_fin_event_idle w :
  pending (GNSS_FIN h) w = false -> gnss_fin_event h w = (Next tt, w).
Proof.
  intro Hp. unfold gnss_fin_event, event_pending. rewrite run_gets, Hp. reflexivity.
Qed.

Lemma build_packet_trace : keeps (fun w => trace (out w)) (build_packet h).
Proof. keeps_auto. Qed.

Lemma build_packet_api : keeps api (build_packet h).
Proof. keeps_auto. Qed.

Lemma build_packet_gnss : keeps gnss (build_packet h).
Proof. keeps_auto. Qed.

Lemma build_packet_equipment :
  keeps (fun w => (has_env_sensor (app w), g_gps_prec_6 (app w))) (build_packet h).
Proof. keeps_auto. Qed.

Lemma fix_noted_trace w :
  trace (out (fix_noted h w)) = (trace (out w) ++ [read_bme])%list.
Proof. reflexivity. Qed.

Lemma fix_noted_settings w :
  g_lorawan_settings (api (fix_noted h w)) = g_lorawan_settings (api w).
Proof. reflexivity. Qed.

Lemma fix_noted_gnss w : gnss (fix_noted h w) = gnss w.
Proof. reflexivity. Qed.

Lemma fix_noted_equipment w :
  (has_env_sensor (app (fix_noted h w)), g_gps_prec_6 (app (fix_noted h w))) =
  (has_env_sensor (app w), g_gps_prec_6 (app w)).
Proof. reflexivity. Qed.

Lemma fix_built_trace w :
  trace (out (fix_built h w)) = (trace (out w) ++ [read_bme])%list.
Proof. unfold fix_built. rewrite build_packet_trace. apply fix_noted_trace. Qed.

Lemma fix_built_settings w :
  g_lorawan_settings (api (fix_built h w)) = g_lorawan_settings (api w).
Proof.
  unfold fix_built. rewrite (build_packet_api (fix_noted h w)). apply fix_noted_settings.
Qed.

(** Region 8 at data rate 0: the rate error, then [return]. *)
Lemma send_packet_rate_error w :
  lorawan_enable (g_lorawan_settings (api w)) = true ->
  lora_region (g_lorawan_settings (api w)) = 8 ->
  data_rate (g_lorawan_settings (api w)) = 0 ->
  send_packet w = (Returned, exec (emit (AT_PRINTF "+EVT:DR_ERROR")) w).
Proof.
  intros Hl Hr Hd. unfold send_packet. rewrite run_gets, Hl.
  unfold check_payload_size. rewrite run_bind_assoc, run_gets, Hr, Hd.
  reflexivity.
Qed.

End FixSection.

(** C9: in LoRaWAN mode with region 8 and data rate 0, a fix-completed
    event makes the handler read the environment sensor, print
    +EVT:DR_ERROR and return: the fix section adds exactly these two actions
    to the trace, so the packet is never handed to send_lora_packet. *)
Theorem C9_rate_error_instead_of_send (h : app_h) (w : world) :
  flags_ok h ->
  pending (GNSS_FIN h) w = true ->
  lorawan_enable (g_lorawan_settings (api w)) = true ->
  lora_region (g_lorawan_settings (api w)) = 8 ->
  data_rate (g_lorawan_settings (api w)) = 0 ->
  let before := exec (acc_event h) (exec (status_event h) w) in
  result (gnss_fin_event h) before = Returned /\
  trace (out (exec (app_event_handler h) w)) =
    (trace (out before) ++ [read_bme; AT_PRINTF "+EVT:DR_ERROR"])%list.
Proof.
  intros Hok Hp Hl Hr Hd before.
  assert (Hcfg : g_lorawan_settings (api before) = g_lorawan_settings (api w)).
  { unfold before. rewrite (acc_event_settings h), (status_event_settings h). reflexivity. }
  assert (Hp' : pending (GNSS_FIN h) before = true)
    by (apply GNSS_FIN_reaches_section; assumption).
  assert (Hrun : gnss_fin_event h before =
                 (Returned, exec (emit (AT_PRINTF "+EVT:DR_ERROR")) (fix_built h before))).
  { rewrite (gnss_fin_event_steps h before Hp').
    apply send_packet_rate_error; rewrite fix_built_settings, Hcfg; assumption. }
  split.
  - unfold result. rewrite Hrun. reflexivity.
  - rewrite handler_exec. fold before. unfold exec at 1. rewrite Hrun.
    cbn [snd]. unfold exec at 1, emit, modify. cbn [snd set_trace with_out out trace].
    rewrite fix_built_trace, <- app_assoc. reflexivity.
Qed.

(** * The packet after a failed location search *)

Lemma gnss_fin_event_exec h w :
  pending (GNSS_FIN h) w = true ->
  exec (gnss_fin_event h) w = exec send_packet (fix_built h w).
Proof.
  intro Hp. unfold exec. rewrite (gnss_fin_event_steps h w Hp). reflexivity.
Qed.


Section InvalidFix.

Variable h : app_h.
Hypothesis Hlayout : layout_ok h.

Lemma wrap8_small n : (n < 256)%nat -> Z.to_nat (wrap8 (Z.of_nat n)) = n.
Proof.
  intro Hn. unfold wrap8. rewrite Z.mod_small by lia. apply Nat2Z.id.
Qed.

(** memcpy to the start of the buffer, then the first [n] bytes of it. *)
Lemma firstn_memcpy_0 buf src n :
  (n <= List.length src)%nat -> firstn n (memcpy buf 0 src n) = firstn n src.
Proof.
  intro Hn. unfold memcpy. simpl.
  rewrite firstn_app, firstn_firstn, Nat.min_id.
  rewrite firstn_length_le by exact Hn.
  rewrite Nat.sub_diag. simpl. apply app_nil_r.
Qed.

Lemma build_packet_no_fix w :
  last_read_ok (gnss w) = false ->
  packet (exec (build_packet h) w) =
  firstn (if has_env_sensor (app w) then ENVIRONMENT_DATA_LEN h else 4%nat)
         (env_data h w).
Proof.
  intro Hbad. unfold build_packet. cbv zeta. unfold exec.
  rewrite run_modify, !run_gets. cbn [gnss app set_packet_buff with_app
    last_read_ok g_gps_prec_6 has_env_sensor].
  rewrite Hbad.
  destruct Hlayout as (Henv & _ & _ & H4 & _ & H256).
  destruct (has_env_sensor (app w)).
  - unfold copy_to_packet, set_len. rewrite !run_modify.
    unfold modify, packet. cbn [snd].
    cbn [app set_packet_len set_packet_buff with_app packet_len packet_buff].
    rewrite wrap8_small by lia.
    apply firstn_memcpy_0. unfold env_data. rewrite Henv. lia.
  - unfold copy_to_packet, set_len. rewrite !run_modify.
    unfold modify, packet. cbn [snd].
    cbn [app set_packet_len set_packet_buff with_app packet_len packet_buff].
    rewrite wrap8_small by lia.
    apply firstn_memcpy_0. unfold env_data. rewrite Henv. lia.
Qed.

Lemma fix_noted_has_env w :
  has_env_sensor (app (fix_noted h w)) = has_env_sensor (app w).
Proof. reflexivity. Qed.

Lemma packet_same_app w1 w2 : app w1 = app w2 -> packet w1 = packet w2.
Proof. unfold packet. intros ->. reflexivity. Qed.

Lemma env_data_same_api w1 w2 : api w1 = api w2 -> env_data h w1 = env_data h w2.
Proof. unfold env_data. intros ->. reflexivity. Qed.

Lemma send_packet_api : keeps api send_packet.
Proof. keeps_auto. Qed.

Lemma send_packet_app : keeps app send_packet.
Proof. keeps_auto. Qed.

Lemma send_packet_gnss : keeps gnss send_packet.
Proof. keeps_auto. Qed.

Lemma status_event_has_env : keeps (fun w => has_env_sensor (app w)) (status_event h).
Proof. keeps_auto. Qed.

Lemma acc_event_has_env : keeps (fun w => has_env_sensor (app w)) (acc_event h).
Proof. keeps_auto. Qed.

Hypothesis Hok : flags_ok h.

(** After a fix-completed event over a failed search, the packet is the
    start of g_env_data: the whole struct with an environment sensor, its
    first four bytes without. *)
Lemma handler_no_fix w :
  pending (GNSS_FIN h) w = true ->
  last_read_ok (gnss w) = false ->
  packet (exec (app_event_handler h) w) =
  firstn (if has_env_sensor (app w) then ENVIRONMENT_DATA_LEN h else 4%nat)
         (env_data h (exec (app_event_handler h) w)).
Proof.
  intros Hp Hbad. rewrite handler_exec.
  set (before := exec (acc_event h) (exec (status_event h) w)).
  assert (Hp' : pending (GNSS_FIN h) before = true)
    by (apply GNSS_FIN_reaches_section; assumption).
  assert (Hg : last_read_ok (gnss before) = false).
  { unfold before. rewrite (acc_event_gnss h), (status_event_gnss h). exact Hbad. }
  assert (He : has_env_sensor (app before) = has_env_sensor (app w)).
  { unfold before. rewrite acc_event_has_env, status_event_has_env. reflexivity. }
  clearbody before.
  rewrite (gnss_fin_event_exec h before Hp').
  rewrite (packet_same_app _ _ (send_packet_app (fix_built h before))).
  rewrite (env_data_same_api _ _ (send_packet_api (fix_built h before))).
  rewrite (env_data_same_api (fix_built h before) (fix_noted h before))
    by apply build_packet_api.
  rewrite <- He, <- (fix_noted_has_env before).
  rewrite <- (fix_noted_gnss h before) in Hg.
  apply (build_packet_no_fix (fix_noted h before) Hg).
Qed.

End InvalidFix.

(** The sample header is well formed. *)
Lemma sample_flags_ok : flags_ok sample_h.
Proof.
  split.
  - repeat (constructor; [simpl; intuition discriminate |]). constructor.
  - repeat (constructor; [simpl; lia |]). constructor.
Qed.

Lemma sample_layout_ok : layout_ok sample_h.
Proof.
  repeat split; try (simpl; lia).
  intro e. cbn [env_image sample_h ENVIRONMENT_DATA_LEN]. unfold sample_env_image.
  rewrite length_app, firstn_length_le; [reflexivity |].
  rewrite length_app, repeat_length. lia.
Qed.

(** C1, as stated, fails without an environment sensor: after a failed
    search the packet is 4 bytes long, not position block plus 4. *)
Lemma C1_no_sensor_frame_has_no_position :
  pending (GNSS_FIN sample_h) no_fix_world = true /\
  last_read_ok (gnss no_fix_world) = false /\
  has_env_sensor (app no_fix_world) = false /\
  List.length (packet (exec (app_event_handler sample_h) no_fix_world)) = 4%nat /\
  List.length (packet (exec (app_event_handler sample_h) no_fix_world)) <>
    (position_block_length sample_h no_fix_world + 4)%nat.
Proof.
  repeat split; try reflexivity. vm_compute. discriminate.
Qed.

(** C1 (amended): after a fix-completed event over a failed search, the
    packet holds no position field.  With an environment sensor it is the
    whole environment struct; without one it is the first four bytes of that
    struct, the battery block, and is 4 bytes long. *)
Theorem C1_invalid_fix_frame (h : app_h) (w : world) :
  flags_ok h ->
  layout_ok h ->
  pending (GNSS_FIN h) w = true ->
  last_read_ok (gnss w) = false ->
  let w' := exec (app_event_handler h) w in
  (has_env_sensor (app w) = true ->
   packet w' = env_data h w' /\
   List.length (packet w') = ENVIRONMENT_DATA_LEN h) /\
  (has_env_sensor (app w) = false ->
   packet w' = firstn 4 (env_data h w') /\
   List.length (packet w') = 4%nat).
Proof.
  intros Hok Hlay Hp Hbad w'.
  pose proof (handler_no_fix h Hlay Hok w Hp Hbad) as Hpk. fold w' in Hpk.
  destruct Hlay as (Henv & _ & _ & H4 & _).
  assert (Hlen : List.length (env_data h w') = ENVIRONMENT_DATA_LEN h) by apply Henv.
  split; intro Hs; rewrite Hs in Hpk; rewrite Hpk.
  - rewrite <- Hlen at 1 2. rewrite firstn_all. split; [reflexivity | exact Hlen].
  - split; [reflexivity |]. apply firstn_length_le. lia.
Qed.

Lemma C1_invalid_fix_frame_witness :
  let w' := exec (app_event_handler sample_h) no_fix_world in
  (has_env_sensor (app no_fix_world) = true ->
   packet w' = env_data sample_h w' /\
   List.length (packet w') = ENVIRONMENT_DATA_LEN sample_h) /\
  (has_env_sensor (app no_fix_world) = false ->
   packet w' = firstn 4 (env_data sample_h w') /\
   List.length (packet w') = 4%nat).
Proof.
  apply (C1_invalid_fix_frame sample_h no_fix_world sample_flags_ok sample_layout_ok);
    reflexivity.
Defined.

Lemma C10_motion_waits_for_join_witness :
  acc_event sample_h (exec (status_event sample_h) motion_before_join) =
    (Next tt, exec (status_event sample_h) motion_before_join) /\
  app_event_handler sample_h motion_before_join =
    function_ (status_event sample_h ;; gnss_fin_event sample_h) motion_before_join /\
  pending (ACC_TRIGGER sample_h) (exec (app_event_handler sample_h) motion_before_join) = true.
Proof.
  apply (C10_motion_waits_for_join sample_h motion_before_join sample_flags_ok);
    reflexivity.
Defined.

Lemma C9_rate_error_instead_of_send_witness :
  let before := exec (acc_event sample_h) (exec (status_event sample_h) fix_in_region8) in
  result (gnss_fin_event sample_h) before = Returned /\
  trace (out (exec (app_event_handler sample_h) fix_in_region8)) =
    (trace (out before) ++ [read_bme; AT_PRINTF "+EVT:DR_ERROR"])%list.
Proof.
  apply (C9_rate_error_instead_of_send sample_h fix_in_region8 sample_flags_ok);
    reflexivity.
Defined.

(** * The degenerate fix *)

Lemma run_bind_next {A B} (c : M A) (k : A -> M B) w a :
  result c w = Next a -> bind c k w = k a (exec c w).
Proof.
  unfold result, exec, bind. destruct (c w) as [r w']. simpl. intros ->. reflexivity.
Qed.

Section PollLoop.

Context {X : Type} (f : world -> X).
Hypothesis f_clock : forall t w, f (set_clock t w) = f w.
Hypothesis f_receiver : forall t w, f (set_receiver t w) = f w.
Hypothesis f_trace : forall t w, f (set_trace t w) = f w.
Hypothesis f_ok : forall b w, f (set_last_read_ok b w) = f w.

(** The polling loop touches the clock, the receiver, the trace and
    last_read_ok, and nothing else. *)
Lemma poll_loop_keeps fuel time_out limit l :
  keeps f (poll_loop fuel time_out limit l).
Proof.
  revert l. induction fuel as [| fuel IH]; intro l; simpl.
  - apply keeps_stop.
  - apply keeps_bind; [apply keeps_read_tape; exact f_clock | intro now].
    destruct (now - time_out <? limit); [| apply keeps_ret].
    apply keeps_bind; [apply keeps_gets | intro opt].
    apply keeps_bind; [apply keeps_read_tape; exact f_receiver | intro s].
    destruct (gnss_option_eqb opt RAK12500_GNSS).
    + destruct (getGnssFixOk s).
      * destruct (getFixType s >=? 3); [| apply IH].
        apply keeps_bind; [apply keeps_modify; apply f_ok | intro; apply keeps_ret].
      * apply keeps_bind; [| intro; apply IH].
        apply keeps_modify. intro w. apply f_trace.
    + destruct (has_pos (serial_loop (serial1 s) l) && has_alt (serial_loop (serial1 s) l));
        [| apply IH].
      apply keeps_bind; [apply keeps_modify; apply f_ok | intro; apply keeps_ret].
Qed.

Lemma acquisition_keeps fuel : keeps f (acquisition fuel).
Proof.
  unfold acquisition.
  apply keeps_bind; [apply keeps_modify; apply f_ok | intros _].
  apply keeps_bind; [apply keeps_modify; intro w; apply f_trace | intros _].
  apply keeps_bind; [apply keeps_read_tape; exact f_clock | intro t].
  apply keeps_bind; [apply keeps_gets | intro lim].
  apply poll_loop_keeps.
Qed.

End PollLoop.

Lemma acquisition_app fuel : keeps app (acquisition fuel).
Proof. apply acquisition_keeps; reflexivity. Qed.

Lemma acquisition_api fuel : keeps api (acquisition fuel).
Proof. apply acquisition_keeps; reflexivity. Qed.

Lemma poll_finish_app l : keeps app (poll_finish l).
Proof. keeps_auto. Qed.

Lemma poll_finish_api l : keeps api (poll_finish l).
Proof. keeps_auto. Qed.

Lemma poll_gnss_app fuel : keeps app (poll_gnss fuel).
Proof.
  unfold poll_gnss. apply keeps_bind; [apply acquisition_app | intro; apply poll_finish_app].
Qed.

Lemma poll_gnss_api fuel : keeps api (poll_gnss fuel).
Proof.
  unfold poll_gnss. apply keeps_bind; [apply acquisition_api | intro; apply poll_finish_api].
Qed.

(** poll_gnss always comes back from its last part with an answer. *)
Lemma poll_finish_falls l : falls (poll_finish l).
Proof. falls_auto. Qed.

(** At latitude 0 and longitude 0 the last part of poll_gnss answers false
    and leaves last_read_ok false, whatever the loop had set it to. *)
Lemma poll_finish_zero l w :
  latitude l = 0 -> longitude l = 0 ->
  result (poll_finish l) w = Next false /\
  last_read_ok (gnss (exec (poll_finish l) w)) = false.
Proof.
  intros Hlat Hlon. unfold result, exec, poll_finish.
  unfold emit. rewrite run_modify, run_gets.
  cbn [gnss set_trace with_out last_read_ok].
  rewrite Hlat, Hlon. cbn [Z.eqb andb].
  destruct (last_read_ok (gnss w)); split; reflexivity.
Qed.

Lemma poll_gnss_zero fuel l w :
  result (acquisition fuel) w = Next l ->
  latitude l = 0 -> longitude l = 0 ->
  result (poll_gnss fuel) w = Next false /\
  last_read_ok (gnss (exec (poll_gnss fuel) w)) = false.
Proof.
  intros Hacq Hlat Hlon. unfold result at 1, exec, poll_gnss.
  rewrite (run_bind_next _ _ w l Hacq).
  apply poll_finish_zero; assumption.
Qed.

Section DegenerateFix.

Variable h : app_h.
Hypothesis Hok : flags_ok h.

(** One turn of gnss_task around a search that ends at latitude 0 and
    longitude 0: the turn completes, the fix-completed flag is raised,
    and last_read_ok is false. *)
Lemma gnss_task_zero fuel l w :
  result (acquisition fuel) (task_started w) = Next l ->
  latitude l = 0 -> longitude l = 0 ->
  result (gnss_task h fuel) w = Next tt /\
  pending (GNSS_FIN h) (exec (gnss_task h fuel) w) = true /\
  last_read_ok (gnss (exec (gnss_task h fuel) w)) = false /\
  has_env_sensor (app (exec (gnss_task h fuel) w)) = has_env_sensor (app w).
Proof.
  intros Hacq Hlat Hlon.
  destruct (poll_gnss_zero fuel l (task_started w) Hacq Hlat Hlon) as [Hres Hbad].
  assert (Hrun : gnss_task h fuel w =
                 (emit (AT_PRINTF "+EVT:LOCATION NOFIX") ;;
                  or_events (GNSS_FIN h) ;;
                  emit give_task_sem) (exec (poll_gnss fuel) (task_started w))).
  { unfold gnss_task.
    rewrite (run_seq (emit (AT_PRINTF "+EVT:START_LOCATION")) _ w (falls_modify _)).
    fold (task_started w).
    rewrite (run_bind_next _ _ _ false Hres). reflexivity. }
  pose proof (poll_gnss_app fuel (task_started w)) as Happ.
  revert Hrun Hbad Happ.
  generalize (exec (poll_gnss fuel) (task_started w)). intros w1 Hrun Hbad Happ.
  unfold result, exec at 1 2 3. rewrite Hrun. clear Hrun.
  pose proof (flags_ok_facts h Hok) as Hf.
  repeat split.
  - unfold GNSS_FIN. rewrite pending_event_bit by lia.
    unfold emit, or_events. rewrite !run_modify.
    unfold modify. cbn [snd]. unfold event_bit.
    cbn [api set_trace with_out set_g_task_event_type with_api g_task_event_type].
    rewrite Z.lor_spec, flag_testbit, Z.eqb_refl by lia. apply orb_true_r.
  - exact Hbad.
  - transitivity (has_env_sensor (app w1)); [reflexivity |].
    rewrite Happ. reflexivity.
Qed.

End DegenerateFix.

(** C8: when the search of poll_gnss ends with latitude 0 and longitude 0,
    poll_gnss answers false and leaves last_read_ok false whether or not
    the receiver had reported a fix, and the packet built by the handler
    that follows the turn of gnss_task has the shape of a failed search:
    the environment struct alone, or its first four bytes. *)
Theorem C8_zero_fix_is_no_fix (h : app_h) (fuel : nat) (l : poll_locals) (w : world) :
  flags_ok h ->
  layout_ok h ->
  result (acquisition fuel) (task_started w) = Next l ->
  latitude l = 0 ->
  longitude l = 0 ->
  result (poll_gnss fuel) (task_started w) = Next false /\
  last_read_ok (gnss (exec (poll_gnss fuel) (task_started w))) = false /\
  let w' := exec (gnss_task h fuel ;; app_event_handler h) w in
  packet w' =
  firstn (if has_env_sensor (app w) then ENVIRONMENT_DATA_LEN h else 4%nat)
         (env_data h w').
Proof.
  intros Hok Hlay Hacq Hlat Hlon.
  destruct (poll_gnss_zero fuel l (task_started w) Hacq Hlat Hlon) as [Hres Hbad].
  destruct (gnss_task_zero h Hok fuel l w Hacq Hlat Hlon) as (Hturn & Hp & Hbad' & Henv).
  split; [exact Hres | split; [exact Hbad |]].
  intro w'. unfold w'.
  rewrite (exec_bind (gnss_task h fuel) (fun _ => app_event_handler h) w tt Hturn).
  rewrite <- Henv.
  apply handler_no_fix; assumption.
Qed.

Lemma C8_zero_fix_is_no_fix_witness :
  result (poll_gnss 1) (task_started null_island_world) = Next false /\
  last_read_ok (gnss (exec (poll_gnss 1) (task_started null_island_world))) = false /\
  let w' := exec (gnss_task sample_h 1 ;; app_event_handler sample_h) null_island_world in
  packet w' =
  firstn (if has_env_sensor (app null_island_world)
          then ENVIRONMENT_DATA_LEN sample_h else 4%nat)
         (env_data sample_h w').
Proof.
  apply (C8_zero_fix_is_no_fix sample_h 1
           {| latitude := 0; longitude := 0; altitude := 12000; accuracy := 150;
              has_pos := false; has_alt := false |}
           null_island_world sample_flags_ok sample_layout_ok);
    reflexivity.
Defined.

(** * Sending over LoRaWAN *)

(** C6, as stated, fails: a busy radio is not asked again.  The handler
    hands the packet over once and prints +EVT:BUSY, although the radio
    would have accepted the next request. *)
Lemma C6_busy_is_not_retried :
  next (radio (out busy_once_world)) 0 = LMH_BUSY /\
  next (radio (out busy_once_world)) 1 = LMH_SUCCESS /\
  trace (out (exec (app_event_handler sample_h) busy_once_world)) =
    [read_bme; send_lora_packet [2; 2; 0; 0]; AT_PRINTF "+EVT:BUSY"].
Proof. repeat split. Qed.

(** C6 (amended): the send path asks the radio again only after an error
    result, never after a busy one (which is reported as +EVT:BUSY); it
    makes at most three requests, all with the same packet; and after the
    third request it prints +EVT:SIZE_ERROR without looking at the third
    result. *)
Theorem C6_lorawan_send_attempts (w : world) :
  let r1 := next (radio (out w)) (pos (radio (out w))) in
  let r2 := next (radio (out w)) (S (pos (radio (out w)))) in
  let p := send_lora_packet (packet w) in
  let added l := trace (out (exec send_over_lorawan w)) = (trace (out w) ++ l)%list in
  (r1 = LMH_SUCCESS -> added [p]) /\
  (r1 = LMH_BUSY -> added [p; AT_PRINTF "+EVT:BUSY"]) /\
  (r1 = LMH_ERROR -> r2 = LMH_SUCCESS -> added [p; p]) /\
  (r1 = LMH_ERROR -> r2 = LMH_BUSY -> added [p; p; AT_PRINTF "+EVT:BUSY"]) /\
  (r1 = LMH_ERROR -> r2 = LMH_ERROR ->
   added [p; p; AT_PRINTF "+EVT:SIZE_ERROR RETRY"; p; AT_PRINTF "+EVT:SIZE_ERROR"]).
Proof.
  intros r1 r2 p added. unfold added, exec, send_over_lorawan, call_send_lora_packet, emit.
  rewrite run_gets, run_bind_assoc, run_modify, run_read_tape.
  cbn [fst snd pull out set_trace with_out radio pos next].
  fold r1. fold p.
  repeat split; intros H1; rewrite H1; try intros H2.
  - cbn. rewrite <- ?app_assoc. reflexivity.
  - cbn. rewrite <- ?app_assoc. reflexivity.
  - rewrite run_bind_assoc, run_modify, run_read_tape.
    cbn [fst snd pull out set_trace with_out set_radio radio pos next].
    fold r2. rewrite H2. cbn. rewrite <- ?app_assoc. reflexivity.
  - rewrite run_bind_assoc, run_modify, run_read_tape.
    cbn [fst snd pull out set_trace with_out set_radio radio pos next].
    fold r2. rewrite H2. cbn. rewrite <- ?app_assoc. reflexivity.
  - rewrite run_bind_assoc, run_modify, run_read_tape.
    cbn [fst snd pull out set_trace with_out set_radio radio pos next].
    fold r2. rewrite H2. cbn. rewrite <- ?app_assoc. reflexivity.
Qed.

Lemma C6_lorawan_send_attempts_witness :
  next (radio (out third_time_world)) 0 = LMH_ERROR /\
  next (radio (out third_time_world)) 1 = LMH_ERROR /\
  trace (out (exec send_over_lorawan third_time_world)) =
    (trace (out third_time_world) ++
     [send_lora_packet (packet third_time_world);
      send_lora_packet (packet third_time_world);
      AT_PRINTF "+EVT:SIZE_ERROR RETRY";
      send_lora_packet (packet third_time_world);
      AT_PRINTF "+EVT:SIZE_ERROR"])%list.
Proof.
  split; [reflexivity | split; [reflexivity |]].
  apply (C6_lorawan_send_attempts third_time_world); reflexivity.
Defined.

(** * The timeout of the location search *)

(** C7, as stated, fails between 90 s and 180 s: with a send interval of
    120 s the search may last 90 s, not half the interval. *)
Lemma C7_two_minutes_interval :
  let w := set_g_lorawan_settings
             {| lorawan_enable := true; send_repeat_time := 120000;
                lora_region := 5; data_rate := 3; confirmed_msg_enabled := true |}
             sample_world in
  check_limit w = 90000 /\
  check_limit w <> Z.min (send_repeat_time (g_lorawan_settings (api w)) / 2) 90000.
Proof. split; [reflexivity | vm_compute; discriminate]. Qed.

(** C7 (amended): the timeout is half the send interval, which is also the
    smaller of that half and 90 s, when the interval is not 0 and at most
    90 s; it is 90 s when the interval is 0 or above 90 s. *)
Theorem C7_check_limit (w : world) :
  let rep := send_repeat_time (g_lorawan_settings (api w)) in
  (rep <> 0 -> rep <= 90000 ->
   check_limit w = rep / 2 /\ check_limit w = Z.min (rep / 2) 90000) /\
  (rep = 0 \/ rep > 90000 -> check_limit w = 90000).
Proof.
  intro rep. unfold check_limit. fold rep.
  destruct (Z.eqb_spec rep 0) as [H0 | H0]; destruct (Z.leb_spec rep 90000) as [H9 | H9].
  - split; [intros Hn; contradiction | reflexivity].
  - split; [intros Hn; contradiction | reflexivity].
  - split.
    + intros _ _. split; [reflexivity |].
      assert (rep / 2 <= 90000) by (apply Z.div_le_upper_bound; lia). lia.
    + intros [Hz | Hgt]; [contradiction | lia].
  - split; [intros _ Hle; lia | reflexivity].
Qed.

Lemma C7_check_limit_witness :
  let rep := send_repeat_time (g_lorawan_settings (api sample_world)) in
  (rep <> 0 -> rep <= 90000 ->
   check_limit sample_world = rep / 2 /\
   check_limit sample_world = Z.min (rep / 2) 90000) /\
  (rep = 0 \/ rep > 90000 -> check_limit sample_world = 90000).
Proof. exact (C7_check_limit sample_world). Defined.

(** * Failed transmissions *)

Section TxFinished.

Variable h : app_h.
Hypothesis Hok : flags_ok h.

Lemma join_fin_event_falls : falls (join_fin_event h).
Proof. falls_auto. Qed.

Lemma lora_data_event_falls : falls (lora_data_event h).
Proof. falls_auto. Qed.

Lemma join_fin_event_app_kept :
  keeps (fun w => (send_fail (app w), g_rx_fin_result (api w),
                   g_lorawan_settings (api w))) (join_fin_event h).
Proof. keeps_auto. Qed.

Lemma join_fin_event_send_fail : keeps (fun w => send_fail (app w)) (join_fin_event h).
Proof. keeps_auto. Qed.

Lemma join_fin_event_ack : keeps (fun w => g_rx_fin_result (api w)) (join_fin_event h).
Proof. keeps_auto. Qed.

Lemma lora_data_event_send_fail : keeps (fun w => send_fail (app w)) (lora_data_event h).
Proof. keeps_auto. Qed.

Lemma join_fin_event_TX : keeps (event_bit (LORA_TX_FIN_bit h)) (join_fin_event h).
Proof.
  pose proof (flags_ok_facts h Hok) as Hf.
  repeat lazymatch goal with
         | |- keeps _ (and_events _) => apply keeps_and_events; lia
         | _ => keeps_step
         end.
Qed.

(** The TX section on a failed transmission: the counter goes up by one
    (in its 8 bits), and the device is reset when it has reached 10. *)
Lemma tx_fin_event_nak w :
  pending (LORA_TX_FIN h) w = true ->
  g_rx_fin_result (api w) = false ->
  let n := wrap8 (send_fail (app w) + 1) in
  send_fail (app (exec (tx_fin_event h) w)) = n /\
  result (tx_fin_event h) w = (if n =? 10 then Halted else Next tt) /\
  (n = 10 ->
   exists pre, trace (out (exec (tx_fin_event h) w)) =
               (pre ++ [delay 100; sd_nvic_SystemReset])%list).
Proof.
  intros Hp Hnak n.
  unfold result, exec, tx_fin_event, event_pending, and_events, emit,
    bind, gets, modify, when, stop.
  rewrite Hp. cbn [api set_g_task_event_type with_api g_rx_fin_result
                   g_lorawan_settings].
  rewrite Hnak.
  destruct (confirmed_msg_enabled (g_lorawan_settings (api w)) &&
            lorawan_enable (g_lorawan_settings (api w)));
    cbn [negb app set_send_fail with_app set_trace with_out
         set_g_task_event_type with_api send_fail]; fold n;
    (destruct (Z.eqb_spec n 10) as [Hn | Hn];
     [ split; [reflexivity | split; [reflexivity | intros _]];
       eexists; cbn [out trace snd set_trace with_out set_send_fail with_app set_g_task_event_type with_api]; rewrite <- app_assoc; reflexivity
     | split; [reflexivity | split; [reflexivity | intro; contradiction]] ]).
Qed.

(** The TX section on a successful transmission leaves the counter. *)
Lemma tx_fin_event_ack w :
  g_rx_fin_result (api w) = true ->
  send_fail (app (exec (tx_fin_event h) w)) = send_fail (app w) /\
  result (tx_fin_event h) w = Next tt.
Proof.
  intros Hack.
  unfold result, exec, tx_fin_event, event_pending, and_events, emit,
    bind, gets, modify, when, stop.
  destruct (pending (LORA_TX_FIN h) w); [| split; reflexivity].
  cbn [api set_g_task_event_type with_api g_rx_fin_result g_lorawan_settings].
  rewrite Hack.
  destruct (confirmed_msg_enabled (g_lorawan_settings (api w)) &&
            lorawan_enable (g_lorawan_settings (api w))); split; reflexivity.
Qed.

(** The state in which the TX section starts after a finished
    transmission. *)
Lemma tx_finished_steps ack w :
  exists w1,
    tx_finished h ack w = function_ (tx_fin_event h ;; lora_data_event h) w1 /\
    pending (LORA_TX_FIN h) w1 = true /\
    g_rx_fin_result (api w1) = ack /\
    send_fail (app w1) = send_fail (app w).
Proof.
  pose proof (flags_ok_facts h Hok) as Hf.
  set (w0 := exec (or_events (LORA_TX_FIN h)) (exec (modify (set_g_rx_fin_result ack)) w)).
  exists (exec (join_fin_event h) w0).
  split; [| split; [| split]].
  - unfold tx_finished. rewrite run_modify.
    rewrite (run_seq (or_events (LORA_TX_FIN h)) _ _ (falls_modify _)).
    unfold lora_data_handler, function_.
    rewrite (run_seq (join_fin_event h) _ _ join_fin_event_falls).
    reflexivity.
  - unfold LORA_TX_FIN. rewrite pending_event_bit by lia.
    rewrite join_fin_event_TX. unfold w0. apply event_bit_or_events. lia.
  - rewrite join_fin_event_ack. reflexivity.
  - rewrite join_fin_event_send_fail. reflexivity.
Qed.

(** One finished transmission: a success leaves the counter, a failure
    raises it by one, and the failure that brings it to 10 resets the
    device. *)
Lemma tx_finished_step (ack : bool) (w : world) :
  let n := if ack then send_fail (app w) else wrap8 (send_fail (app w) + 1) in
  send_fail (app (exec (tx_finished h ack) w)) = n /\
  result (tx_finished h ack) w = (if negb ack && (n =? 10) then Halted else Next tt) /\
  (ack = false -> n = 10 ->
   exists pre, trace (out (exec (tx_finished h ack) w)) =
               (pre ++ [delay 100; sd_nvic_SystemReset])%list).
Proof.
  intro n. destruct (tx_finished_steps ack w) as (w1 & Hrun & Hp & Hack & Hsf).
  unfold result, exec. rewrite Hrun. clear Hrun. unfold function_, bind.
  destruct ack.
  - destruct (tx_fin_event_ack w1 Hack) as [Hs Hr].
    unfold result, exec in Hs, Hr.
    destruct (tx_fin_event h w1) as [r w2]. cbn [fst snd] in Hs, Hr. subst r.
    destruct (lora_data_event_falls w2) as [[] Hd].
    pose proof (lora_data_event_send_fail w2) as Hk.
    unfold result, exec in Hd, Hk.
    destruct (lora_data_event h w2) as [r w3]. cbn [fst snd] in Hd, Hk |- *. subst r.
    cbn [fst snd negb andb]. split; [| split; [reflexivity | intro; discriminate]].
    unfold n. congruence.
  - destruct (tx_fin_event_nak w1 Hp Hack) as (Hs & Hr & Ht).
    rewrite Hsf in Hs, Hr, Ht. fold n in Hs, Hr, Ht.
    unfold result, exec in Hs, Hr, Ht.
    destruct (tx_fin_event h w1) as [r w2]. cbn [fst snd] in Hs, Hr, Ht. subst r.
    cbn [negb andb].
    destruct (n =? 10) eqn:E.
    + cbn [fst snd]. split; [exact Hs | split; [reflexivity | intros _ Hn; auto]].
    + destruct (lora_data_event_falls w2) as [[] Hd].
      pose proof (lora_data_event_send_fail w2) as Hk.
      unfold result, exec in Hd, Hk.
      destruct (lora_data_event h w2) as [r w3]. cbn [fst snd] in Hd, Hk |- *. subst r.
      cbn [fst snd]. split; [congruence | split; [reflexivity |]].
      intros _ Hn. apply Z.eqb_neq in E. contradiction.
Qed.

Lemma failures_cons ack acks :
  failures (ack :: acks) = if ack then failures acks else S (failures acks).
Proof. unfold failures. destruct ack; reflexivity. Qed.

(** Fewer than ten failures in all: the series runs to its end and the
    counter holds their number. *)
Lemma tx_cycles_count acks : forall w n,
  send_fail (app w) = Z.of_nat n ->
  (n + failures acks < 10)%nat ->
  result (tx_cycles h acks) w = Next tt /\
  send_fail (app (exec (tx_cycles h acks) w)) = Z.of_nat (n + failures acks).
Proof.
  induction acks as [| ack acks IH]; intros w n Hsf Hlt.
  - simpl. rewrite Nat.add_0_r. split; [reflexivity | exact Hsf].
  - rewrite failures_cons in *. cbn [tx_cycles].
    destruct (tx_finished_step ack w) as (Hs & Hr & _). cbv zeta in Hs, Hr.
    destruct ack; cbn [negb andb] in Hr.
    + rewrite (result_bind _ _ w tt Hr), (exec_bind _ _ w tt Hr).
      apply IH; [congruence | exact Hlt].
    + assert (Hn : wrap8 (send_fail (app w) + 1) = Z.of_nat (S n)).
      { unfold wrap8. rewrite Hsf, Z.mod_small by lia. lia. }
      rewrite Hn in Hs, Hr.
      destruct (Z.eqb_spec (Z.of_nat (S n)) 10) as [E | E]; [lia |].
      rewrite (result_bind _ _ w tt Hr), (exec_bind _ _ w tt Hr).
      replace (n + S (failures acks))%nat with (S n + failures acks)%nat by lia.
      apply IH; [exact Hs | lia].
Qed.

(** The failure that follows nine earlier ones resets the device. *)
Lemma tx_cycles_tenth acks : forall w n,
  send_fail (app w) = Z.of_nat n ->
  (n + failures acks = 9)%nat ->
  result (tx_cycles h (acks ++ [false])) w = Halted /\
  exists pre, trace (out (exec (tx_cycles h (acks ++ [false])) w)) =
              (pre ++ [delay 100; sd_nvic_SystemReset])%list.
Proof.
  induction acks as [| ack acks IH]; intros w n Hsf Hnine.
  - change ([] ++ [false])%list with [false]. cbn [tx_cycles].
    destruct (tx_finished_step false w) as (Hs & Hr & Ht). cbv zeta in Hs, Hr, Ht.
    assert (Hn : wrap8 (send_fail (app w) + 1) = 10).
    { unfold wrap8. rewrite Hsf, Z.mod_small by (cbn in Hnine; lia).
      cbn in Hnine. lia. }
    rewrite Hn in Hr. cbn [negb andb Z.eqb Pos.eqb] in Hr.
    specialize (Ht eq_refl Hn).
    unfold result, exec, bind in *.
    destruct (tx_finished h false w) as [r w1]. cbn [fst snd] in *. subst r.
    cbn [fst snd]. split; [reflexivity | exact Ht].
  - rewrite failures_cons in Hnine.
    change ((ack :: acks) ++ [false])%list with (ack :: (acks ++ [false]))%list.
    cbn [tx_cycles].
    destruct (tx_finished_step ack w) as (Hs & Hr & _). cbv zeta in Hs, Hr.
    destruct ack; cbn [negb andb] in Hr.
    + rewrite (result_bind _ _ w tt Hr), (exec_bind _ _ w tt Hr).
      apply (IH _ n); [congruence | exact Hnine].
    + assert (Hn : wrap8 (send_fail (app w) + 1) = Z.of_nat (S n)).
      { unfold wrap8. rewrite Hsf, Z.mod_small by lia. lia. }
      rewrite Hn in Hs, Hr.
      destruct (Z.eqb_spec (Z.of_nat (S n)) 10) as [E | E]; [lia |].
      rewrite (result_bind _ _ w tt Hr), (exec_bind _ _ w tt Hr).
      apply (IH _ (S n)); [exact Hs | lia].
Qed.

End TxFinished.

(** C5, as stated, fails: the counter is never set back, so the failures
    need not be consecutive.  Nine failures, a success and one more failure
    reset the device, although no ten failures in a row have occurred at
    any point of the series. *)
Lemma C5_failures_need_not_be_consecutive :
  (forall k, (consecutive_failures 0 (firstn k nine_one_one) < 10)%nat) /\
  consecutive_failures 0 nine_one_one = 1%nat /\
  result (tx_cycles sample_h nine_one_one) sample_world = Halted.
Proof.
  split; [| split; reflexivity].
  intro k. do 12 (destruct k as [| k]; [vm_compute; lia |]). vm_compute. lia.
Qed.

(** C5 (amended): every finished transmission without acknowledgement
    raises send_fail by one and no success lowers it.  Counted from a fresh
    start, the device keeps running as long as fewer than 10 transmissions
    have failed, and the tenth failed transmission resets it: delay(100),
    then sd_nvic_SystemReset, are the last actions. *)
Theorem C5_reset_on_tenth_failure (h : app_h) (w : world) (acks : list bool) :
  flags_ok h ->
  send_fail (app w) = 0 ->
  ((failures acks < 10)%nat ->
   result (tx_cycles h acks) w = Next tt /\
   send_fail (app (exec (tx_cycles h acks) w)) = Z.of_nat (failures acks)) /\
  (failures acks = 9%nat ->
   result (tx_cycles h (acks ++ [false])) w = Halted /\
   exists pre, trace (out (exec (tx_cycles h (acks ++ [false])) w)) =
               (pre ++ [delay 100; sd_nvic_SystemReset])%list).
Proof.
  intros Hok Hsf. split; intro Hf.
  - apply (tx_cycles_count h Hok acks w 0%nat); [exact Hsf | exact Hf].
  - apply (tx_cycles_tenth h Hok acks w 0%nat); [exact Hsf | exact Hf].
Qed.

Lemma C5_reset_on_tenth_failure_witness :
  ((failures (repeat false 9) < 10)%nat ->
   result (tx_cycles sample_h (repeat false 9)) sample_world = Next tt /\
   send_fail (app (exec (tx_cycles sample_h (repeat false 9)) sample_world)) =
     Z.of_nat (failures (repeat false 9))) /\
  (failures (repeat false 9) = 9%nat ->
   result (tx_cycles sample_h (repeat false 9 ++ [false])) sample_world = Halted /\
   exists pre,
     trace (out (exec (tx_cycles sample_h (repeat false 9 ++ [false])) sample_world)) =
     (pre ++ [delay 100; sd_nvic_SystemReset])%list).
Proof.
  apply (C5_reset_on_tenth_failure sample_h sample_world (repeat false 9) sample_flags_ok).
  reflexivity.
Defined.

(** * The trace only grows *)

Lemma grows_ret {A} (a : A) : grows (ret a).
Proof. intro w. exists []. symmetry. apply app_nil_r. Qed.

Lemma grows_gets {A} (g : world -> A) : grows (gets g).
Proof. intro w. exists []. symmetry. apply app_nil_r. Qed.

Lemma grows_stop {A} (how : ctl A) : grows (stop how).
Proof. intro w. exists []. symmetry. apply app_nil_r. Qed.

Lemma grows_emit a : grows (emit a).
Proof. intro w. exists [a]. reflexivity. Qed.

Lemma grows_modify g :
  (forall w, trace (out (g w)) = trace (out w)) -> grows (modify g).
Proof. intros Hg w. exists []. rewrite app_nil_r. apply Hg. Qed.

Lemma grows_read_tape {A} (sel : world -> tape A) put :
  (forall t w, trace (out (put t w)) = trace (out w)) -> grows (read_tape sel put).
Proof. intros Hp w. exists []. rewrite app_nil_r. apply Hp. Qed.

Lemma grows_bind {A B} (c : M A) (k : A -> M B) :
  grows c -> (forall a, grows (k a)) -> grows (bind c k).
Proof.
  intros Hc Hk w. unfold exec, bind.
  destruct (Hc w) as [l1 H1]. unfold exec in H1.
  destruct (c w) as [[a| | |] w']; simpl in *; try (exists l1; exact H1).
  destruct (Hk a w') as [l2 H2]. unfold exec in H2.
  exists (l1 ++ l2)%list. rewrite H2, H1. symmetry. apply app_assoc.
Qed.

Lemma grows_when b c : grows c -> grows (when b c).
Proof. destruct b; intro Hc; [exact Hc | apply grows_ret]. Qed.

Lemma grows_function c : grows c -> grows (function_ c).
Proof.
  intros Hc w. destruct (Hc w) as [l Hl]. exists l.
  rewrite exec_function. exact Hl.
Qed.

Ltac grows_step :=
  lazymatch goal with
  | |- grows (bind _ _) => apply grows_bind; [| intro]
  | |- grows (ret _) => apply grows_ret
  | |- grows (gets _) => apply grows_gets
  | |- grows (stop _) => apply grows_stop
  | |- grows (emit _) => apply grows_emit
  | |- grows (when _ _) => apply grows_when
  | |- grows (function_ _) => apply grows_function
  | |- grows (modify _) => apply grows_modify; intro; reflexivity
  | |- grows (read_tape _ _) => apply grows_read_tape; intros; reflexivity
  | |- grows (if ?b then _ else _) => destruct b
  | |- grows (match ?r with LMH_SUCCESS => _ | _ => _ end) => destruct r
  | |- grows ?c => let g := head_of c in unfold g
  end.

Ltac grows_auto := repeat grows_step.

Lemma acc_event_grows h : grows (acc_event h).
Proof. grows_auto. Qed.

Lemma gnss_fin_event_grows h : grows (gnss_fin_event h).
Proof. grows_auto. Qed.

Lemma send_battery_level_grows h : grows (send_battery_level h).
Proof. grows_auto. Qed.

Lemma wake_sensors_grows : grows wake_sensors.
Proof. grows_auto. Qed.

Lemma status_event_grows h : grows (status_event h).
Proof. grows_auto. Qed.

Lemma app_event_handler_grows h : grows (app_event_handler h).
Proof. grows_auto. Qed.

(** * The battery guard *)


(** Below 290: protection on, one hour, timer reset. *)
Lemma battery_protection_low w :
  batt_level (app w) < 290 ->
  let w' := exec battery_protection w in
  low_batt_protection (app w') = true /\
  period (g_task_wakeup_timer (api w')) = 3600000 /\
  trace (out w') =
    (trace (out w) ++ [wake_call (t_setPeriod 3600000); wake_call t_reset])%list.
Proof.
  intros Hlt w'. unfold w', exec, battery_protection. rewrite !run_gets.
  apply Z.ltb_lt in Hlt. rewrite Hlt.
  unfold timer, emit, bind, modify. cbn. rewrite <- app_assoc.
  repeat split.
Qed.

(** Above 410 while protected: protection off, the configured interval,
    timer reset. *)
Lemma battery_protection_high w :
  410 < batt_level (app w) ->
  low_batt_protection (app w) = true ->
  let rep := send_repeat_time (g_lorawan_settings (api w)) in
  let w' := exec battery_protection w in
  low_batt_protection (app w') = false /\
  period (g_task_wakeup_timer (api w')) = wrap32 rep /\
  trace (out w') =
    (trace (out w) ++ [wake_call (t_setPeriod rep); wake_call t_reset])%list.
Proof.
  intros Hgt Hlow rep w'. unfold w', exec, battery_protection. rewrite !run_gets.
  assert (H1 : (batt_level (app w) <? 290) = false) by (apply Z.ltb_ge; lia).
  assert (H2 : (batt_level (app w) >? 410) = true) by (apply Z.gtb_lt; lia).
  rewrite H1, H2, Hlow. cbn [andb].
  unfold timer, emit, bind, modify, gets. cbn. rewrite <- app_assoc.
  repeat split.
Qed.

(** Otherwise nothing happens. *)
Lemma battery_protection_idle w :
  290 <= batt_level (app w) ->
  batt_level (app w) <= 410 \/ low_batt_protection (app w) = false ->
  battery_protection w = (Next tt, w).
Proof.
  intros Hge Hor. unfold battery_protection. rewrite !run_gets.
  assert (H1 : (batt_level (app w) <? 290) = false) by (apply Z.ltb_ge; lia).
  rewrite H1.
  destruct Hor as [Hle | Hlow].
  - assert (H2 : (batt_level (app w) >? 410) = false).
    { rewrite Z.gtb_ltb. apply Z.ltb_ge. lia. }
    rewrite H2. reflexivity.
  - rewrite Hlow, andb_false_r. reflexivity.
Qed.

Lemma battery_protection_falls : falls battery_protection.
Proof. falls_auto. Qed.

Lemma wake_sensors_falls : falls wake_sensors.
Proof. falls_auto. Qed.

Lemma get_battery_level_falls : falls get_battery_level.
Proof. falls_auto. Qed.

Lemma wake_sensors_adc : keeps (fun w => adc (out w)) wake_sensors.
Proof. keeps_auto. Qed.

Lemma wake_sensors_app : keeps app wake_sensors.
Proof. keeps_auto. Qed.

Lemma wake_sensors_api : keeps api wake_sensors.
Proof. keeps_auto. Qed.

Section TimerSection.

Variable h : app_h.

Lemma status_event_exec w :
  pending (STATUS h) w = true ->
  exec (status_event h) w =
  exec (send_battery_level h) (exec battery_protection (status_measured h w)).
Proof.
  intro Hp. unfold exec at 1, status_event, event_pending. rewrite run_gets, Hp.
  unfold when, status_measured.
  rewrite (run_seq (and_events (N_STATUS h)) _ w (falls_modify _)).
  rewrite (run_seq wake_sensors _ _ wake_sensors_falls).
  rewrite (run_seq get_battery_level _ _ get_battery_level_falls).
  rewrite (run_seq battery_protection _ _ battery_protection_falls).
  unfold exec. reflexivity.
Qed.

Lemma status_event_idle w :
  pending (STATUS h) w = false -> status_event h w = (Next tt, w).
Proof.
  intro Hp. unfold status_event, event_pending. rewrite run_gets, Hp. reflexivity.
Qed.

Lemma get_battery_level_reads w :
  batt_level (app (exec get_battery_level w)) = battery_reading w /\
  low_batt_protection (app (exec get_battery_level w)) = low_batt_protection (app w) /\
  g_lorawan_settings (api (exec get_battery_level w)) = g_lorawan_settings (api w) /\
  g_task_wakeup_timer (api (exec get_battery_level w)) = g_task_wakeup_timer (api w) /\
  trace (out (exec get_battery_level w)) = trace (out w) /\
  adc (out (exec get_battery_level w)) = snd (pull (adc (out w))).
Proof. repeat split. Qed.

(** When the battery has been measured, batt_level holds the reading and
    the protection flag is still the one of the start. *)
Lemma status_measured_facts w :
  let m := status_measured h w in
  batt_level (app m) = battery_reading w /\
  low_batt_protection (app m) = low_batt_protection (app w) /\
  g_lorawan_settings (api m) = g_lorawan_settings (api w) /\
  adc (out m) = snd (pull (adc (out w))) /\
  exists l, trace (out m) = (trace (out w) ++ l)%list.
Proof.
  intro m. unfold m, status_measured.
  set (w0 := exec (and_events (N_STATUS h)) w).
  assert (H0 : adc (out w0) = adc (out w) /\ app w0 = app w /\
               g_lorawan_settings (api w0) = g_lorawan_settings (api w) /\
               trace (out w0) = trace (out w)) by (repeat split).
  clearbody w0. destruct H0 as (Ha0 & Hp0 & Hs0 & Ht0).
  pose proof (wake_sensors_adc w0) as Ha1. pose proof (wake_sensors_app w0) as Hp1.
  pose proof (wake_sensors_api w0) as Hi1. cbv beta in Ha1.
  destruct (wake_sensors_grows w0) as [l Hl].
  revert Ha1 Hp1 Hi1 Hl. generalize (exec wake_sensors w0). intros w1 Ha1 Hp1 Hi1 Hl.
  destruct (get_battery_level_reads w1) as (Hb & Hlow & Hs & _ & Ht & Ha).
  rewrite Hb, Hlow, Hs, Ht, Ha. unfold battery_reading.
  rewrite Ha1, Ha0, Hp1, Hp0, Hi1, Hs0, Hl, Ht0.
  repeat split. exists l. reflexivity.
Qed.

Lemma send_battery_level_battery :
  keeps (fun w => (low_batt_protection (app w), g_task_wakeup_timer (api w)))
        (send_battery_level h).
Proof. keeps_auto. Qed.

Lemma send_battery_level_low :
  keeps (fun w => low_batt_protection (app w)) (send_battery_level h).
Proof. keeps_auto. Qed.

Lemma send_battery_level_period :
  keeps (fun w => period (g_task_wakeup_timer (api w))) (send_battery_level h).
Proof. keeps_auto. Qed.

Lemma acc_event_low : keeps (fun w => low_batt_protection (app w)) (acc_event h).
Proof. keeps_auto. Qed.

Lemma acc_event_period :
  keeps (fun w => period (g_task_wakeup_timer (api w))) (acc_event h).
Proof. keeps_auto. Qed.

Lemma gnss_fin_event_low : keeps (fun w => low_batt_protection (app w)) (gnss_fin_event h).
Proof. keeps_auto. Qed.

Lemma gnss_fin_event_period :
  keeps (fun w => period (g_task_wakeup_timer (api w))) (gnss_fin_event h).
Proof. keeps_auto. Qed.

(** After the handler, the protection flag and the period of the wake-up
    timer are those that the battery test left. *)
Lemma handler_battery w :
  pending (STATUS h) w = true ->
  let g := exec battery_protection (status_measured h w) in
  let w' := exec (app_event_handler h) w in
  low_batt_protection (app w') = low_batt_protection (app g) /\
  period (g_task_wakeup_timer (api w')) = period (g_task_wakeup_timer (api g)) /\
  exists l, trace (out w') = (trace (out g) ++ l)%list.
Proof.
  intros Hp g w'. unfold w'. rewrite handler_exec, (status_event_exec w Hp). fold g.
  clearbody g.
  rewrite gnss_fin_event_low, acc_event_low, send_battery_level_low.
  rewrite gnss_fin_event_period, acc_event_period, send_battery_level_period.
  split; [reflexivity | split; [reflexivity |]].
  destruct (send_battery_level_grows h g) as [l1 H1].
  revert H1. generalize (exec (send_battery_level h) g). intros g1 H1.
  destruct (acc_event_grows h g1) as [l2 H2].
  revert H2. generalize (exec (acc_event h) g1). intros g2 H2.
  destruct (gnss_fin_event_grows h g2) as [l3 H3].
  exists (l1 ++ l2 ++ l3)%list. rewrite H3, H2, H1, <- !app_assoc. reflexivity.
Qed.

End TimerSection.

(** * The handler always comes back *)

Lemma send_over_lorawan_falls : falls send_over_lorawan.
Proof. falls_auto. Qed.

Lemma send_packet_result w :
  result send_packet w = Next tt \/ result send_packet w = Returned.
Proof.
  unfold result, send_packet. rewrite run_gets.
  destruct (lorawan_enable (g_lorawan_settings (api w))).
  - unfold check_payload_size. rewrite run_bind_assoc, run_gets.
    destruct (lora_region (g_lorawan_settings (api w)) =? 8);
      [destruct (data_rate (g_lorawan_settings (api w)) =? 0) |].
    + right. reflexivity.
    + left. cbn [when]. unfold ret at 1, bind at 1.
      destruct (send_over_lorawan_falls w) as [[] Hr]. exact Hr.
    + left. cbn [when]. unfold ret at 1, bind at 1.
      destruct (send_over_lorawan_falls w) as [[] Hr]. exact Hr.
  - left.
    assert (Hf : falls (sent <- call_send_p2p_packet (packet w) ;;
                        if sent then ret tt else emit (AT_PRINTF "+EVT:SIZE_ERROR")))
      by falls_auto.
    destruct (Hf w) as [[] Hr]. exact Hr.
Qed.

Lemma gnss_fin_event_result h w :
  result (gnss_fin_event h) w = Next tt \/ result (gnss_fin_event h) w = Returned.
Proof.
  destruct (pending (GNSS_FIN h) w) eqn:Hp.
  - assert (He : result (gnss_fin_event h) w = result send_packet (fix_built h w)).
    { unfold result. rewrite (gnss_fin_event_steps h w Hp). reflexivity. }
    rewrite He. apply send_packet_result.
  - left. unfold result. rewrite (gnss_fin_event_idle h w Hp). reflexivity.
Qed.

Lemma app_event_handler_falls h : falls (app_event_handler h).
Proof.
  intro w. exists tt. unfold result, app_event_handler, function_.
  rewrite (run_seq (status_event h) _ w (status_event_falls h)).
  rewrite (run_seq (acc_event h) _ _ (acc_event_falls h)).
  destruct (gnss_fin_event_result h (exec (acc_event h) (exec (status_event h) w)))
    as [Hr | Hr]; unfold result in Hr;
    destruct (gnss_fin_event h (exec (acc_event h) (exec (status_event h) w)))
      as [r w3]; cbn [fst] in Hr; subst r; reflexivity.
Qed.

(** * Battery readings in a row *)

Section Wakeups.

Variable h : app_h.
Hypothesis Hok : flags_ok h.

Lemma battery_protection_adc : keeps (fun w => adc (out w)) battery_protection.
Proof. keeps_auto. Qed.

Lemma send_battery_level_adc : keeps (fun w => adc (out w)) (send_battery_level h).
Proof. keeps_auto. Qed.

Lemma acc_event_adc : keeps (fun w => adc (out w)) (acc_event h).
Proof. keeps_auto. Qed.

Lemma gnss_fin_event_adc : keeps (fun w => adc (out w)) (gnss_fin_event h).
Proof. keeps_auto. Qed.

(** A timer event takes exactly one value from the converter. *)
Lemma handler_adc w :
  pending (STATUS h) w = true ->
  adc (out (exec (app_event_handler h) w)) = snd (pull (adc (out w))).
Proof.
  intro Hp. rewrite handler_exec, (status_event_exec h w Hp).
  rewrite gnss_fin_event_adc, acc_event_adc, send_battery_level_adc, battery_protection_adc.
  apply (status_measured_facts h w).
Qed.

(** The flag after a timer event, from the flag before and the reading. *)
Lemma handler_low w :
  pending (STATUS h) w = true ->
  low_batt_protection (app (exec (app_event_handler h) w)) =
  if battery_reading w <? 290 then true
  else if (battery_reading w >? 410) && low_batt_protection (app w) then false
  else low_batt_protection (app w).
Proof.
  intro Hp. destruct (handler_battery h w Hp) as (Hlow & _ & _). rewrite Hlow.
  destruct (status_measured_facts h w) as (Hb & Hl & _).
  revert Hb Hl. generalize (status_measured h w). intros m Hb Hl.
  rewrite <- Hb, <- Hl.
  destruct (Z.ltb_spec (batt_level (app m)) 290) as [H1 | H1].
  - apply (battery_protection_low m H1).
  - destruct (Z.gtb_spec (batt_level (app m)) 410) as [H2 | H2];
      [destruct (low_batt_protection (app m)) eqn:Hm |]; cbn [andb].
    + apply (battery_protection_high m); [lia | exact Hm].
    + unfold exec. rewrite (battery_protection_idle m H1 (or_intror Hm)). exact Hm.
    + unfold exec. rewrite (battery_protection_idle m H1); [reflexivity | left; lia].
Qed.

Lemma wakeup_state w :
  let w0 := exec (or_events (STATUS h)) w in
  pending (STATUS h) w0 = true /\
  adc (out w0) = adc (out w) /\
  low_batt_protection (app w0) = low_batt_protection (app w).
Proof.
  pose proof (flags_ok_facts h Hok) as Hf.
  split; [| split; reflexivity].
  unfold STATUS. rewrite pending_event_bit by lia. apply event_bit_or_events. lia.
Qed.

Lemma wakeup_falls : falls (wakeup h).
Proof.
  unfold wakeup. apply falls_bind; [apply falls_modify | intro; apply app_event_handler_falls].
Qed.

Lemma wakeup_exec w :
  exec (wakeup h) w = exec (app_event_handler h) (exec (or_events (STATUS h)) w).
Proof. unfold wakeup. apply exec_seq. apply falls_modify. Qed.

(** While the readings stay between 290 and 410, a protected tracker
    stays protected. *)
Lemma wakeups_sticky n : forall w,
  low_batt_protection (app w) = true ->
  (forall k, (k < n)%nat -> 290 <= reading_at w k <= 410) ->
  low_batt_protection (app (exec (wakeups h n) w)) = true.
Proof.
  induction n as [| n IH]; intros w Hlow Hband.
  - exact Hlow.
  - cbn [wakeups]. rewrite (exec_seq _ _ w wakeup_falls), wakeup_exec.
    destruct (wakeup_state w) as (Hp & Ha & Hl).
    revert Hp Ha Hl. generalize (exec (or_events (STATUS h)) w). intros w0 Hp Ha Hl.
    assert (Hr : battery_reading w0 = reading_at w 0).
    { unfold battery_reading, reading_at, pull. cbn [fst].
      rewrite Ha, Nat.add_0_r. reflexivity. }
    apply IH.
    + rewrite (handler_low w0 Hp), Hr, Hl, Hlow.
      specialize (Hband 0%nat ltac:(lia)).
      destruct (Z.ltb_spec (reading_at w 0) 290); [lia |].
      destruct (Z.gtb_spec (reading_at w 0) 410); [lia | reflexivity].
    + intros k Hk. specialize (Hband (S k) ltac:(lia)).
      unfold reading_at in *. rewrite (handler_adc w0 Hp), Ha.
      unfold pull. cbn [snd next pos].
      replace (S (pos (adc (out w))) + k)%nat with (pos (adc (out w)) + S k)%nat by lia.
      exact Hband.
Qed.

End Wakeups.

(** C2: at a timer event, protection is switched on only by a reading
    below 290, survives every reading from 290 to 410, and is switched off
    only by a reading above 410.  A reading below 290 sets the wake-up
    period to one hour and resets the timer; a reading above 410 under
    protection sets the period back to send_repeat_time and resets the timer.
    Over any number of timer events whose readings stay in [290, 410], a
    protected tracker stays protected. *)
Theorem C2_battery_hysteresis (h : app_h) (w : world) :
  flags_ok h ->
  pending (STATUS h) w = true ->
  let level := battery_reading w in
  let low := low_batt_protection (app w) in
  let rep := send_repeat_time (g_lorawan_settings (api w)) in
  let w' := exec (app_event_handler h) w in
  let low' := low_batt_protection (app w') in
  let calls ops :=
    exists pre post, trace (out w') = (trace (out w) ++ pre ++ ops ++ post)%list in
  (low = false -> low' = true -> level < 290) /\
  (low = true -> 290 <= level <= 410 -> low' = true) /\
  (low = true -> low' = false -> level > 410) /\
  (level < 290 ->
   low' = true /\ period (g_task_wakeup_timer (api w')) = 3600000 /\
   calls [wake_call (t_setPeriod 3600000); wake_call t_reset]) /\
  (low = true -> level > 410 ->
   low' = false /\ period (g_task_wakeup_timer (api w')) = wrap32 rep /\
   calls [wake_call (t_setPeriod rep); wake_call t_reset]) /\
  (forall n, low = true ->
             (forall k, (k < n)%nat -> 290 <= reading_at w k <= 410) ->
             low_batt_protection (app (exec (wakeups h n) w)) = true).
Proof.
  intros Hok Hp level low rep w' low' calls.
  pose proof (handler_low h w Hp) as Hlow. fold level low w' low' in Hlow.
  destruct (handler_battery h w Hp) as (_ & Hper & l3 & Htr). fold w' in Hper, Htr.
  destruct (status_measured_facts h w) as (Hb & Hl & Hs & _ & l1 & Ht1).
  fold level low in Hb, Hl.
  revert Hper Htr Hb Hl Hs Ht1. generalize (status_measured h w).
  intros m Hper Htr Hb Hl Hs Ht1.
  split; [| split; [| split; [| split; [| split]]]].
  - intros Hf Ht. rewrite Hf, andb_false_r in Hlow.
    destruct (Z.ltb_spec level 290); [assumption | congruence].
  - intros Ht Hband. rewrite Hlow, Ht.
    destruct (Z.ltb_spec level 290); [lia |].
    destruct (Z.gtb_spec level 410); [lia | reflexivity].
  - intros Ht Hf. rewrite Ht in Hlow.
    destruct (Z.ltb_spec level 290); [congruence |].
    destruct (Z.gtb_spec level 410); [lia | cbn [andb] in Hlow; congruence].
  - intro Hlt. rewrite <- Hb in Hlt.
    destruct (battery_protection_low m Hlt) as (_ & Hp1 & Ht2).
    split; [| split].
    + rewrite Hlow. rewrite Hb in Hlt. apply Z.ltb_lt in Hlt. rewrite Hlt. reflexivity.
    + rewrite Hper. exact Hp1.
    + exists l1, l3. rewrite Htr, Ht2, Ht1, <- !app_assoc. reflexivity.
  - intros Ht Hgt. rewrite <- Hb in Hgt. rewrite <- Hl in Ht.
    destruct (battery_protection_high m ltac:(lia) Ht) as (_ & Hp1 & Ht2).
    rewrite Hs in Hp1, Ht2. fold rep in Hp1, Ht2.
    split; [| split].
    + rewrite Hlow. rewrite Hb in Hgt. rewrite Hl in Ht. rewrite Ht.
      destruct (Z.ltb_spec level 290); [lia |].
      destruct (Z.gtb_spec level 410); [reflexivity | lia].
    + rewrite Hper. exact Hp1.
    + exists l1, l3. rewrite Htr, Ht2, Ht1, <- !app_assoc. reflexivity.
  - intros n Ht Hband. apply (wakeups_sticky h Hok n w Ht Hband).
Qed.

Lemma C2_battery_hysteresis_witness :
  pending (STATUS sample_h) (timer_event_world 2800 false) = true /\
  battery_reading (timer_event_world 2800 false) = 280 /\
  low_batt_protection
    (app (exec (app_event_handler sample_h) (timer_event_world 2800 false))) = true /\
  period (g_task_wakeup_timer
            (api (exec (app_event_handler sample_h) (timer_event_world 2800 false)))) =
    3600000.
Proof.
  split; [reflexivity | split; [reflexivity |]].
  destruct (C2_battery_hysteresis sample_h (timer_event_world 2800 false)
              sample_flags_ok eq_refl) as (_ & _ & _ & Hentry & _).
  destruct Hentry as (Hlow & Hperiod & _); [vm_compute; reflexivity |].
  split; assumption.
Defined.

(** The readings 300, 280, 450 in a row: protection starts at the second
    and ends at the third. *)
Example battery_300_280_450 :
  let w := set_adc (list_tape [3000; 2800; 4500] 4500) sample_world in
  map (fun n => low_batt_protection (app (exec (wakeups sample_h n) w))) [1; 2; 3]%nat =
  [false; true; false].
Proof. vm_compute. reflexivity. Qed.

(** * The send governor *)

(** The first clock value that the next read returns. *)
Lemma check_send_now_decision w :
  let rep := send_repeat_time (g_lorawan_settings (api w)) in
  let now := fst (pull (clock (out w))) in
  result check_send_now w =
  Next ((rep =? 0) || negb (now - last_pos_send (app w) <? min_delay (app w))).
Proof.
  intros rep now. unfold result, check_send_now. rewrite run_gets. fold rep.
  destruct (rep =? 0); [reflexivity |]. cbn [negb orb].
  unfold millis. rewrite run_read_tape, !run_gets. fold now.
  cbn [app set_clock with_out last_pos_send min_delay].
  destruct (now - last_pos_send (app w) <? min_delay (app w)); [| reflexivity].
  rewrite run_gets. cbn [app set_clock with_out delayed_active negb].
  destruct (delayed_active (app w)); [reflexivity |]. cbn [negb when].
  assert (Hf : falls (timer delayed_sending_id t_stop ;;
                      wait_time <- compute_wait_time (last_pos_send (app w)) (min_delay (app w)) ;;
                      timer delayed_sending_id (t_setPeriod wait_time) ;;
                      timer delayed_sending_id t_start ;;
                      modify (set_delayed_active true))) by falls_auto.
  rewrite (run_seq _ _ _ Hf). reflexivity.
Qed.

(** With a delayed send pending, the check touches neither the timer nor
    the flag. *)
Lemma check_send_now_pending w :
  delayed_active (app w) = true ->
  delayed_sending (app (exec check_send_now w)) = delayed_sending (app w) /\
  delayed_active (app (exec check_send_now w)) = true /\
  trace (out (exec check_send_now w)) = trace (out w).
Proof.
  intro Hact. unfold exec, check_send_now. rewrite run_gets.
  destruct (negb (send_repeat_time (g_lorawan_settings (api w)) =? 0));
    [| repeat split; exact Hact].
  unfold millis. rewrite run_read_tape, !run_gets.
  cbn [app set_clock with_out last_pos_send min_delay].
  destruct (fst (pull (clock (out w))) - last_pos_send (app w) <? min_delay (app w));
    [| repeat split; exact Hact].
  rewrite run_gets. cbn [app set_clock with_out delayed_active].
  rewrite Hact. repeat split. exact Hact.
Qed.

Lemma check_send_now_falls : falls check_send_now.
Proof. falls_auto. Qed.

(** Appending an action that is no call on the delayed_sending timer. *)
Lemma keeps_emit_other a :
  is_delayed_call a = false ->
  keeps (fun w => delayed_calls (trace (out w))) (emit a).
Proof.
  intros Ha w. unfold exec, emit, modify, delayed_calls. cbn [snd out set_trace with_out trace].
  rewrite filter_app. cbn [filter]. rewrite Ha. apply app_nil_r.
Qed.

Ltac quiet_auto :=
  repeat lazymatch goal with
         | |- keeps _ (emit _) => apply keeps_emit_other; reflexivity
         | _ => keeps_step
         end.

Section Governor.

Variable h : app_h.

Lemma request_send_timer b : keeps (fun w => delayed_sending (app w)) (request_send h b).
Proof. keeps_auto. Qed.

Lemma request_send_quiet b :
  keeps (fun w => delayed_calls (trace (out w))) (request_send h b).
Proof. quiet_auto. Qed.

Lemma status_event_timer : keeps (fun w => delayed_sending (app w)) (status_event h).
Proof. keeps_auto. Qed.

Lemma status_event_quiet :
  keeps (fun w => delayed_calls (trace (out w))) (status_event h).
Proof. quiet_auto. Qed.

Lemma status_event_active : keeps (fun w => delayed_active (app w)) (status_event h).
Proof. keeps_auto. Qed.

Lemma gnss_fin_event_quiet :
  keeps (fun w => delayed_calls (trace (out w))) (gnss_fin_event h).
Proof. quiet_auto. Qed.

Lemma acc_event_idle w :
  pending (ACC_TRIGGER h) w && g_lpwan_has_joined (api w) = false ->
  acc_event h w = (Next tt, w).
Proof.
  intro Hc. unfold acc_event, event_pending. rewrite !run_gets, Hc. reflexivity.
Qed.

(** The motion section, when it runs: the latch is cleared, the check is
    made, and its answer goes to the send request. *)
Lemma acc_event_steps w :
  pending (ACC_TRIGGER h) w && g_lpwan_has_joined (api w) = true ->
  let w2 := exec (emit clear_acc_int) (exec (and_events (N_ACC_TRIGGER h)) w) in
  exists b,
    result check_send_now w2 = Next b /\
    acc_event h w = request_send h b (exec check_send_now w2).
Proof.
  intros Hc w2. destruct (check_send_now_falls w2) as [b Hb].
  exists b. split; [exact Hb |].
  unfold acc_event, event_pending. rewrite !run_gets, Hc. unfold when.
  rewrite (run_seq (and_events (N_ACC_TRIGGER h)) _ w (falls_modify _)).
  rewrite (run_seq (emit clear_acc_int) _ _ (falls_modify _)).
  fold w2. apply (run_bind_next _ _ w2 b Hb).
Qed.

(** With a delayed send pending, the motion section leaves the
    delayed_sending timer alone. *)
Lemma acc_event_pending w :
  delayed_active (app w) = true ->
  delayed_sending (app (exec (acc_event h) w)) = delayed_sending (app w) /\
  delayed_calls (trace (out (exec (acc_event h) w))) = delayed_calls (trace (out w)).
Proof.
  intro Hact.
  destruct (pending (ACC_TRIGGER h) w && g_lpwan_has_joined (api w)) eqn:Hc.
  - destruct (acc_event_steps w Hc) as (b & _ & Hrun). cbv zeta in Hrun.
    unfold exec. rewrite Hrun. clear Hrun.
    set (w2 := exec (emit clear_acc_int) (exec (and_events (N_ACC_TRIGGER h)) w)).
    assert (H2 : delayed_active (app w2) = true /\
                 delayed_sending (app w2) = delayed_sending (app w) /\
                 delayed_calls (trace (out w2)) = delayed_calls (trace (out w))).
    { split; [exact Hact | split; [reflexivity |]].
      unfold w2. rewrite (keeps_emit_other clear_acc_int eq_refl). reflexivity. }
    clearbody w2. destruct H2 as (Ha2 & Ht2 & Hq2).
    destruct (check_send_now_pending w2 Ha2) as (Ht3 & _ & Hq3).
    revert Ht3 Hq3. generalize (exec check_send_now w2). intros w3 Ht3 Hq3.
    pose proof (request_send_timer b w3) as Hk1.
    pose proof (request_send_quiet b w3) as Hk2.
    unfold exec in Hk1, Hk2. cbv beta in Hk1, Hk2.
    rewrite Hk1, Hk2. split; congruence.
  - unfold exec. rewrite (acc_event_idle w Hc). split; reflexivity.
Qed.

End Governor.

(** * The delayed_sending timer running out *)

Section Expiry.

Variable h : app_h.

Lemma timer_expire_stopped c w :
  running (delayed_sending (app w)) = false ->
  timer_expire delayed_sending_id c w = (Next tt, w).
Proof.
  intro Hr. unfold timer_expire. rewrite run_gets. cbn [timer_get]. rewrite Hr. reflexivity.
Qed.

Lemma timer_expire_running c w :
  running (delayed_sending (app w)) = true ->
  timer_expire delayed_sending_id c w =
  c (set_delayed_sending
       {| period := period (delayed_sending (app w));
          repeating := repeating (delayed_sending (app w));
          running := repeating (delayed_sending (app w)) |} w).
Proof.
  intro Hr. unfold timer_expire. rewrite run_gets. cbn [timer_get]. rewrite Hr.
  unfold when. rewrite run_modify. reflexivity.
Qed.

Lemma expirations_stopped n : forall w,
  running (delayed_sending (app w)) = false ->
  expirations h n w = (Next tt, w).
Proof.
  induction n as [| n IH]; intros w Hr; [reflexivity |].
  cbn [expirations]. unfold bind at 1. rewrite (timer_expire_stopped _ w Hr).
  apply IH. exact Hr.
Qed.

(** A one-shot timer that is running calls send_delayed once, however
    often it is found expired afterwards. *)
Lemma expirations_one_shot n w :
  running (delayed_sending (app w)) = true ->
  repeating (delayed_sending (app w)) = false ->
  expirations h (S n) w =
  send_delayed h (set_delayed_sending
                    {| period := period (delayed_sending (app w));
                       repeating := false; running := false |} w).
Proof.
  intros Hrun Hrep. cbn [expirations]. unfold bind at 1.
  rewrite (timer_expire_running _ w Hrun), Hrep.
  set (w1 := set_delayed_sending _ w).
  assert (H1 : running (delayed_sending (app w1)) = false) by reflexivity.
  clearbody w1.
  assert (Hs : send_delayed h w1 = (Next tt, exec (send_delayed h) w1)) by reflexivity.
  assert (H2 : running (delayed_sending (app (exec (send_delayed h) w1))) = false)
    by exact H1.
  rewrite Hs. apply expirations_stopped. exact H2.
Qed.

End Expiry.

(** C4: while delayed_active is set, a run of the handler (a further
    motion event or any other) leaves the delayed_sending timer as it is and
    makes no call on it.  Once running, this timer, begun without reload,
    calls send_delayed exactly once: however often it is found expired, the
    outcome is that of one call, which raises STATUS and gives the task
    semaphore. *)
Theorem C4_pending_delayed_send (h : app_h) (w : world) :
  flags_ok h ->
  delayed_active (app w) = true ->
  (let w' := exec (app_event_handler h) w in
   delayed_sending (app w') = delayed_sending (app w) /\
   delayed_calls (trace (out w')) = delayed_calls (trace (out w))) /\
  (running (delayed_sending (app w)) = true ->
   repeating (delayed_sending (app w)) = false ->
   forall n,
     let fired := exec (expirations h (S n)) w in
     pending (STATUS h) fired = true /\
     running (delayed_sending (app fired)) = false /\
     trace (out fired) = (trace (out w) ++ [give_task_sem])%list).
Proof.
  intros Hok Hact. split.
  - intro w'. unfold w'. rewrite handler_exec.
    rewrite (gnss_fin_event_timer h), (gnss_fin_event_quiet h).
    assert (H1 : delayed_active (app (exec (status_event h) w)) = true).
    { rewrite (status_event_active h). exact Hact. }
    destruct (acc_event_pending h _ H1) as [Ht Hq].
    rewrite Ht, Hq, (status_event_timer h), (status_event_quiet h).
    split; reflexivity.
  - intros Hrun Hrep n fired. unfold fired, exec.
    rewrite (expirations_one_shot h n w Hrun Hrep).
    pose proof (flags_ok_facts h Hok) as Hf.
    split; [| split; reflexivity].
    unfold STATUS. rewrite pending_event_bit by lia.
    unfold send_delayed. rewrite (run_seq (or_events (STATUS h)) _ _ (falls_modify _)).
    unfold emit, modify. cbn [snd]. unfold event_bit.
    cbn [api set_trace with_out].
    apply (event_bit_or_events (STATUS_bit h)). lia.
Qed.

Lemma C4_pending_delayed_send_witness :
  delayed_active (app second_motion) = true /\
  running (delayed_sending (app second_motion)) = true /\
  period (delayed_sending (app second_motion)) = 29000 /\
  delayed_sending (app (exec (app_event_handler sample_h) second_motion)) =
    delayed_sending (app second_motion) /\
  trace (out (exec (expirations sample_h 3) second_motion)) =
    (trace (out second_motion) ++ [give_task_sem])%list.
Proof.
  assert (Ha : delayed_active (app second_motion) = true) by (vm_compute; reflexivity).
  assert (Hr : running (delayed_sending (app second_motion)) = true)
    by (vm_compute; reflexivity).
  assert (Ho : repeating (delayed_sending (app second_motion)) = false)
    by (vm_compute; reflexivity).
  destruct (C4_pending_delayed_send sample_h second_motion sample_flags_ok Ha)
    as [[Hkeep _] Hfire].
  destruct (Hfire Hr Ho 2%nat) as (_ & _ & Htrace).
  split; [exact Ha | split; [exact Hr | split; [vm_compute; reflexivity |]]].
  split; [exact Hkeep | exact Htrace].
Defined.

(** C3: a motion event 29999 ms after the last send, during which the
    clock moves on to 30000 ms and then to 30001 ms.  The send is put off,
    the test on the remaining time passes at 30000 ms, and the wait computed
    at 30001 ms is -1: the timer is given the period 4294967295. *)
Theorem C3_wait_time_below_zero :
  result check_send_now clock_moves_on = Next false /\
  delayed_calls (trace (out (exec (app_event_handler sample_h) clock_moves_on))) =
    [timer_call delayed_sending_id t_stop;
     timer_call delayed_sending_id (t_setPeriod (-1));
     timer_call delayed_sending_id t_start] /\
  delayed_sending (app (exec (app_event_handler sample_h) clock_moves_on)) =
    {| period := 4294967295; repeating := false; running := true |}.
Proof. vm_compute. repeat split. Qed.

(** * The position fields *)

Lemma val8_div_mod v k : 0 <= k -> val8 v k = (v / 2 ^ (8 * k)) mod 256.
Proof.
  intro Hk. unfold val8. rewrite Z.shiftr_div_pow2 by lia.
  change 255 with (Z.ones 8). rewrite Z.land_ones by lia. reflexivity.
Qed.

Lemma val8_range v k : 0 <= k -> 0 <= val8 v k < 256.
Proof. intro Hk. rewrite val8_div_mod by exact Hk. apply Z.mod_pos_bound. lia. Qed.

(** Four bytes hold the value modulo 2^32, three bytes modulo 2^24. *)
Lemma be_unsigned_4 v :
  be_unsigned [val8 v 3; val8 v 2; val8 v 1; val8 v 0] = v mod 2 ^ 32.
Proof.
  rewrite !val8_div_mod by lia. unfold be_unsigned. cbn [fold_left].
  change (2 ^ (8 * 0)) with 1. change (2 ^ (8 * 1)) with 256.
  change (2 ^ (8 * 2)) with (256 * 256). change (2 ^ (8 * 3)) with (256 * 256 * 256).
  change (2 ^ 32) with (256 * 256 * 256 * 256).
  rewrite Z.div_1_r, <- !Z.div_div by lia.
  pose proof (Z.div_mod v 256 ltac:(lia)).
  pose proof (Z.mod_pos_bound v 256 ltac:(lia)).
  set (q0 := v / 256) in *.
  pose proof (Z.div_mod q0 256 ltac:(lia)).
  pose proof (Z.mod_pos_bound q0 256 ltac:(lia)).
  set (q1 := q0 / 256) in *.
  pose proof (Z.div_mod q1 256 ltac:(lia)).
  pose proof (Z.mod_pos_bound q1 256 ltac:(lia)).
  set (q2 := q1 / 256) in *.
  pose proof (Z.div_mod q2 256 ltac:(lia)).
  pose proof (Z.mod_pos_bound q2 256 ltac:(lia)).
  apply (Z.mod_unique_pos v _ (q2 / 256)); lia.
Qed.

Lemma be_unsigned_3 v :
  be_unsigned [val8 v 2; val8 v 1; val8 v 0] = v mod 2 ^ 24.
Proof.
  rewrite !val8_div_mod by lia. unfold be_unsigned. cbn [fold_left].
  change (2 ^ (8 * 0)) with 1. change (2 ^ (8 * 1)) with 256.
  change (2 ^ (8 * 2)) with (256 * 256).
  change (2 ^ 24) with (256 * 256 * 256).
  rewrite Z.div_1_r, <- !Z.div_div by lia.
  pose proof (Z.div_mod v 256 ltac:(lia)).
  pose proof (Z.mod_pos_bound v 256 ltac:(lia)).
  set (q0 := v / 256) in *.
  pose proof (Z.div_mod q0 256 ltac:(lia)).
  pose proof (Z.mod_pos_bound q0 256 ltac:(lia)).
  set (q1 := q0 / 256) in *.
  pose proof (Z.div_mod q1 256 ltac:(lia)).
  pose proof (Z.mod_pos_bound q1 256 ltac:(lia)).
  apply (Z.mod_unique_pos v _ (q1 / 256)); lia.
Qed.

Lemma signed_of_mod v n :
  0 < n -> - 2 ^ (n - 1) <= v < 2 ^ (n - 1) ->
  (if v mod 2 ^ n <? 2 ^ (n - 1) then v mod 2 ^ n else v mod 2 ^ n - 2 ^ n) = v.
Proof.
  intros Hn Hv.
  assert (Hp : 2 ^ n = 2 * 2 ^ (n - 1)).
  { replace n with (Z.succ (n - 1)) at 1 by lia. apply Z.pow_succ_r. lia. }
  assert (0 < 2 ^ (n - 1)) by (apply Z.pow_pos_nonneg; lia).
  destruct (Z_lt_le_dec v 0) as [Hneg | Hpos].
  - assert (Hm : v mod 2 ^ n = v + 2 ^ n).
    { symmetry. apply (Z.mod_unique_pos v _ (-1)); lia. }
    rewrite Hm. destruct (Z.ltb_spec (v + 2 ^ n) (2 ^ (n - 1))); lia.
  - rewrite Z.mod_small by lia.
    destruct (Z.ltb_spec v (2 ^ (n - 1))); lia.
Qed.

Lemma be_signed_4 v :
  - 2 ^ 31 <= v < 2 ^ 31 ->
  be_signed [val8 v 3; val8 v 2; val8 v 1; val8 v 0] = v.
Proof.
  intro Hv. unfold be_signed. rewrite be_unsigned_4.
  change (8 * Z.of_nat (List.length [val8 v 3; val8 v 2; val8 v 1; val8 v 0])) with 32.
  apply (signed_of_mod v 32); [lia | exact Hv].
Qed.

Lemma be_signed_3 v :
  - 2 ^ 23 <= v < 2 ^ 23 ->
  be_signed [val8 v 2; val8 v 1; val8 v 0] = v.
Proof.
  intro Hv. unfold be_signed. rewrite be_unsigned_3.
  change (8 * Z.of_nat (List.length [val8 v 2; val8 v 1; val8 v 0])) with 24.
  apply (signed_of_mod v 24); [lia | exact Hv].
Qed.

(** X1: the extended-precision fields read back, most significant byte
    first and signed, give latitude / 10 and longitude / 10 (truncated
    towards zero) whenever these fit 32 bits, and altitude / 10 whenever it
    fits 24 bits. *)
Theorem save_prec_round_trip (l : poll_locals) :
  - 2 ^ 31 <= Z.quot (latitude l) 10 < 2 ^ 31 ->
  - 2 ^ 31 <= Z.quot (longitude l) 10 < 2 ^ 31 ->
  - 2 ^ 23 <= Z.quot (altitude l) 10 < 2 ^ 23 ->
  let t := save_prec l in
  be_signed [l_lat_1 t; l_lat_2 t; l_lat_3 t; l_lat_4 t] = Z.quot (latitude l) 10 /\
  be_signed [l_long_1 t; l_long_2 t; l_long_3 t; l_long_4 t] = Z.quot (longitude l) 10 /\
  be_signed [l_alt_1 t; l_alt_2 t; l_alt_3 t] = Z.quot (altitude l) 10.
Proof.
  intros Hlat Hlon Halt t. unfold t, save_prec. cbn [l_lat_1 l_lat_2 l_lat_3 l_lat_4
    l_long_1 l_long_2 l_long_3 l_long_4 l_alt_1 l_alt_2 l_alt_3].
  split; [apply be_signed_4; exact Hlat |].
  split; [apply be_signed_4; exact Hlon | apply be_signed_3; exact Halt].
Qed.

Lemma save_prec_round_trip_witness :
  let t := save_prec south_west in
  be_signed [l_lat_1 t; l_lat_2 t; l_lat_3 t; l_lat_4 t] = -33924868 /\
  be_signed [l_long_1 t; l_long_2 t; l_long_3 t; l_long_4 t] = -70650927 /\
  be_signed [l_alt_1 t; l_alt_2 t; l_alt_3 t] = -1200.
Proof. apply (save_prec_round_trip south_west); vm_compute; (split; [discriminate | reflexivity]). Defined.

(** X2: the Cayenne LPP fields read back, most significant byte first and
    signed, give latitude / 1000, longitude / 1000 and altitude / 10
    (truncated towards zero) whenever these fit 24 bits. *)
Theorem save_short_round_trip (l : poll_locals) :
  - 2 ^ 23 <= Z.quot (latitude l) 1000 < 2 ^ 23 ->
  - 2 ^ 23 <= Z.quot (longitude l) 1000 < 2 ^ 23 ->
  - 2 ^ 23 <= Z.quot (altitude l) 10 < 2 ^ 23 ->
  let t := save_short l in
  be_signed [s_lat_1 t; s_lat_2 t; s_lat_3 t] = Z.quot (latitude l) 1000 /\
  be_signed [s_long_1 t; s_long_2 t; s_long_3 t] = Z.quot (longitude l) 1000 /\
  be_signed [s_alt_1 t; s_alt_2 t; s_alt_3 t] = Z.quot (altitude l) 10.
Proof.
  intros Hlat Hlon Halt t. unfold t, save_short. cbn [s_lat_1 s_lat_2 s_lat_3
    s_long_1 s_long_2 s_long_3 s_alt_1 s_alt_2 s_alt_3].
  split; [apply be_signed_3; exact Hlat |].
  split; [apply be_signed_3; exact Hlon | apply be_signed_3; exact Halt].
Qed.

Lemma save_short_round_trip_witness :
  let t := save_short manila in
  be_signed [s_lat_1 t; s_lat_2 t; s_lat_3 t] = 144213 /\
  be_signed [s_long_1 t; s_long_2 t; s_long_3 t] = 1210069 /\
  be_signed [s_alt_1 t; s_alt_2 t; s_alt_3 t] = 3500.
Proof. apply (save_short_round_trip manila); vm_compute; (split; [discriminate | reflexivity]). Defined.



(** * The location search *)

(** One turn of the polling loop. *)
Lemma poll_loop_turn fuel time_out limit l w :
  poll_loop (S fuel) time_out limit l w =
  if clock_at w 0 - time_out <? limit then
    if gnss_option_eqb (gnss_option (gnss w)) RAK12500_GNSS then
      if getGnssFixOk (sample_at w 0) then
        if getFixType (sample_at w 0) >=? 3 then
          (Next {| latitude := getLatitude (sample_at w 0);
                   longitude := getLongitude (sample_at w 0);
                   altitude := getAltitude (sample_at w 0);
                   accuracy := getHorizontalDOP (sample_at w 0);
                   has_pos := has_pos l; has_alt := has_alt l |},
           set_last_read_ok true (turn_taken w))
        else poll_loop fuel time_out limit l (turn_taken w)
      else poll_loop fuel time_out limit l (exec (emit (delay 1000)) (turn_taken w))
    else
      let l' := serial_loop (serial1 (sample_at w 0)) l in
      if has_pos l' && has_alt l' then (Next l', set_last_read_ok true (turn_taken w))
      else poll_loop fuel time_out limit l' (turn_taken w)
  else (Next l, set_clock (snd (pull (clock (out w)))) w).
Proof.
  cbn [poll_loop]. unfold millis. rewrite run_read_tape.
  unfold clock_at, sample_at. rewrite !Nat.add_0_r.
  change (fst (pull (clock (out w)))) with (next (clock (out w)) (pos (clock (out w)))).
  destruct (next (clock (out w)) (pos (clock (out w))) - time_out <? limit);
    [| reflexivity].
  rewrite run_gets, run_read_tape.
  change (gnss_option (gnss (set_clock (snd (pull (clock (out w)))) w)))
    with (gnss_option (gnss w)).
  change (fst (pull (receiver (out (set_clock (snd (pull (clock (out w)))) w)))))
    with (next (receiver (out w)) (pos (receiver (out w)))).
  change (set_receiver
            (snd (pull (receiver (out (set_clock (snd (pull (clock (out w)))) w)))))
            (set_clock (snd (pull (clock (out w)))) w))
    with (turn_taken w).
  destruct (gnss_option_eqb (gnss_option (gnss w)) RAK12500_GNSS).
  - destruct (getGnssFixOk (next (receiver (out w)) (pos (receiver (out w))))).
    + destruct (getFixType (next (receiver (out w)) (pos (receiver (out w)))) >=? 3);
        reflexivity.
    + apply (run_seq (emit (delay 1000)) _ _ (falls_modify _)).
  - cbv zeta.
    destruct (has_pos _ && has_alt _); reflexivity.
Qed.

Lemma turn_taken_clock_at w k : clock_at (turn_taken w) k = clock_at w (S k).
Proof.
  unfold clock_at, turn_taken, pull. cbn [out set_receiver set_clock with_out clock snd next pos].
  f_equal. lia.
Qed.

Lemma turn_taken_sample_at w k : sample_at (turn_taken w) k = sample_at w (S k).
Proof.
  unfold sample_at, turn_taken, pull.
  cbn [out set_receiver set_clock with_out receiver snd next pos].
  f_equal. lia.
Qed.

(** The loop ends as soon as the clock is found past the limit. *)
Lemma poll_loop_returns fuel : forall time_out limit l w n,
  (n < fuel)%nat ->
  limit <= clock_at w n - time_out ->
  exists l', result (poll_loop fuel time_out limit l) w = Next l'.
Proof.
  induction fuel as [| fuel IH]; intros time_out limit l w n Hn Hpast; [lia |].
  unfold result. rewrite poll_loop_turn.
  destruct (Z.ltb_spec (clock_at w 0 - time_out) limit) as [Hin | Hout];
    [| eexists; reflexivity].
  destruct n as [| n]; [lia |].
  assert (Hpast' : limit <= clock_at (turn_taken w) n - time_out)
    by (rewrite turn_taken_clock_at; exact Hpast).
  assert (Hn' : (n < fuel)%nat) by lia.
  destruct (gnss_option_eqb (gnss_option (gnss w)) RAK12500_GNSS).
  - destruct (getGnssFixOk (sample_at w 0)).
    + destruct (getFixType (sample_at w 0) >=? 3); [eexists; reflexivity |].
      apply (IH _ _ _ _ n Hn' Hpast').
    + apply (IH _ _ _ _ n Hn'). exact Hpast'.
  - cbv zeta. destruct (has_pos _ && has_alt _); [eexists; reflexivity |].
    apply (IH _ _ _ _ n Hn' Hpast').
Qed.

Lemma acquisition_start fuel w :
  acquisition fuel w =
  poll_loop fuel (clock_at w 0) (check_limit w) poll_start (search_started w).
Proof.
  unfold acquisition. rewrite run_modify.
  rewrite (run_seq (emit init_gnss) _ _ (falls_modify _)).
  unfold millis. rewrite run_read_tape, run_gets.
  unfold clock_at. rewrite Nat.add_0_r. reflexivity.
Qed.

Lemma search_started_facts w :
  (forall k, clock_at (search_started w) k = clock_at w (S k)) /\
  (forall k, sample_at (search_started w) k = sample_at w k) /\
  gnss_option (gnss (search_started w)) = gnss_option (gnss w) /\
  last_read_ok (gnss (search_started w)) = false.
Proof.
  repeat split.
  intro k. unfold clock_at, search_started, pull.
  cbn [out set_clock with_out clock snd next pos]. f_equal.
  cbn. lia.
Qed.

(** X4: poll_gnss comes back once the clock has advanced by the timeout:
    if one of the clock reads that the turns of the loop will make is
    check_limit or more after the first one, the function returns. *)
Theorem poll_gnss_returns (fuel : nat) (w : world) (n : nat) :
  (n < fuel)%nat ->
  check_limit w <= clock_at w (S n) - clock_at w 0 ->
  exists b, result (poll_gnss fuel) w = Next b.
Proof.
  intros Hn Hpast.
  destruct (search_started_facts w) as (Hc & _).
  destruct (poll_loop_returns fuel (clock_at w 0) (check_limit w) poll_start
              (search_started w) n Hn) as [l Hl].
  { rewrite Hc. exact Hpast. }
  assert (Hl' : result (acquisition fuel) w = Next l)
    by (unfold result in *; rewrite acquisition_start; exact Hl).
  unfold poll_gnss. rewrite (result_bind _ _ w l Hl').
  destruct (poll_finish_falls l (exec (acquisition fuel) w)) as [b Hb].
  exists b. exact Hb.
Qed.

Lemma poll_gnss_returns_witness : exists b, result (poll_gnss 100) blind_world = Next b.
Proof.
  apply (poll_gnss_returns 100 blind_world 30); [lia | vm_compute; discriminate].
Defined.

(** The answer of the last part of poll_gnss, and the flag it leaves. *)
Lemma poll_finish_result (l : poll_locals) (w : world) :
  let ok := last_read_ok (gnss w) &&
            negb ((latitude l =? 0) && (longitude l =? 0)) in
  result (poll_finish l) w = Next ok /\
  last_read_ok (gnss (exec (poll_finish l) w)) = ok.
Proof.
  intro ok. unfold ok, result, exec, poll_finish, emit.
  rewrite run_modify, run_gets. cbn [gnss set_trace with_out last_read_ok].
  destruct (last_read_ok (gnss w)) eqn:Hok; cbn [andb];
    [destruct ((latitude l =? 0) && (longitude l =? 0)) |];
    cbn [negb]; split; try reflexivity.
  cbn. exact Hok.
Qed.

(** X5: what poll_gnss answers and leaves in last_read_ok: true exactly
    when the loop ended with a fix that is not at latitude 0 and
    longitude 0. *)
Theorem poll_finish_answer (l : poll_locals) (w : world) :
  let ok := last_read_ok (gnss w) &&
            negb ((latitude l =? 0) && (longitude l =? 0)) in
  result (poll_finish l) w = Next ok /\
  last_read_ok (gnss (exec (poll_finish l) w)) = ok.
Proof.
  intro ok. unfold ok, result, exec, poll_finish, emit.
  rewrite run_modify, run_gets. cbn [gnss set_trace with_out last_read_ok].
  destruct (last_read_ok (gnss w)) eqn:Hok; cbn [andb];
    [destruct ((latitude l =? 0) && (longitude l =? 0)) |];
    cbn [negb]; split; try reflexivity.
  cbn. exact Hok.
Qed.

(** The payload structs after the last part of poll_gnss. *)
Lemma poll_finish_stores (l : poll_locals) (w : world) :
  let w' := exec (poll_finish l) w in
  let stored := (g_tracker_data_s (gnss w'), g_tracker_data_l (gnss w')) in
  stored =
  if last_read_ok (gnss w) then
    if (latitude l =? 0) && (longitude l =? 0)
    then (g_tracker_data_s (gnss w), g_tracker_data_l (gnss w))
    else (save_short l, save_prec l)
  else (zero_short, zero_prec).
Proof.
  intros w' stored. unfold stored, w', exec, poll_finish, emit.
  rewrite run_modify, run_gets. cbn [gnss set_trace with_out last_read_ok].
  destruct (last_read_ok (gnss w));
    [destruct ((latitude l =? 0) && (longitude l =? 0)) |]; reflexivity.
Qed.

(** X6: what poll_gnss leaves in the two payload structs: the encodings
    of the position after a fix, zeroes after a search without fix, and the
    previous content, untouched, after a fix at latitude 0 and longitude 0. *)
Theorem poll_finish_tracker (l : poll_locals) (w : world) :
  let w' := exec (poll_finish l) w in
  let stored := (g_tracker_data_s (gnss w'), g_tracker_data_l (gnss w')) in
  stored =
  if last_read_ok (gnss w) then
    if (latitude l =? 0) && (longitude l =? 0)
    then (g_tracker_data_s (gnss w), g_tracker_data_l (gnss w))
    else (save_short l, save_prec l)
  else (zero_short, zero_prec).
Proof.
  intros w' stored. unfold stored, w', exec, poll_finish, emit.
  rewrite run_modify, run_gets. cbn [gnss set_trace with_out last_read_ok].
  destruct (last_read_ok (gnss w));
    [destruct ((latitude l =? 0) && (longitude l =? 0)) |]; reflexivity.
Qed.

(** Without a 3D fix in any sample, the loop of a u-blox receiver ends at
    the timeout with last_read_ok still false. *)
Lemma poll_loop_without_fix fuel : forall time_out limit l w n,
  (n < fuel)%nat ->
  limit <= clock_at w n - time_out ->
  gnss_option (gnss w) = RAK12500_GNSS ->
  (forall k, fix_3d (sample_at w k) = false) ->
  last_read_ok (gnss w) = false ->
  result (poll_loop fuel time_out limit l) w = Next l /\
  last_read_ok (gnss (exec (poll_loop fuel time_out limit l) w)) = false.
Proof.
  induction fuel as [| fuel IH]; intros time_out limit l w n Hn Hpast Hopt Hno Hbad;
    [lia |].
  unfold result, exec. rewrite poll_loop_turn.
  destruct (Z.ltb_spec (clock_at w 0 - time_out) limit) as [Hin | Hout];
    [| split; [reflexivity | exact Hbad]].
  destruct n as [| n]; [lia |].
  rewrite Hopt. cbn [gnss_option_eqb].
  pose proof (Hno 0%nat) as H0. unfold fix_3d in H0.
  assert (Hn' : (n < fuel)%nat) by lia.
  destruct (getGnssFixOk (sample_at w 0));
    [cbn [andb] in H0; rewrite H0 |].
  - apply (IH _ _ _ _ n Hn').
    + rewrite turn_taken_clock_at. exact Hpast.
    + exact Hopt.
    + intro k. rewrite turn_taken_sample_at. apply Hno.
    + exact Hbad.
  - apply (IH _ _ _ _ n Hn').
    + change (clock_at (exec (emit (delay 1000)) (turn_taken w)) n)
        with (clock_at (turn_taken w) n).
      rewrite turn_taken_clock_at. exact Hpast.
    + exact Hopt.
    + intro k.
      change (sample_at (exec (emit (delay 1000)) (turn_taken w)) k)
        with (sample_at (turn_taken w) k).
      rewrite turn_taken_sample_at. apply Hno.
    + exact Hbad.
Qed.

(** X7: a u-blox receiver that never offers a 3D fix: once the clock has
    advanced by the timeout, poll_gnss answers false, with last_read_ok
    false and both payload structs zeroed. *)
Theorem poll_gnss_times_out (fuel : nat) (w : world) (n : nat) :
  (n < fuel)%nat ->
  check_limit w <= clock_at w (S n) - clock_at w 0 ->
  gnss_option (gnss w) = RAK12500_GNSS ->
  (forall k, fix_3d (sample_at w k) = false) ->
  let w' := exec (poll_gnss fuel) w in
  result (poll_gnss fuel) w = Next false /\
  last_read_ok (gnss w') = false /\
  g_tracker_data_s (gnss w') = zero_short /\
  g_tracker_data_l (gnss w') = zero_prec.
Proof.
  intros Hn Hpast Hopt Hno w'.
  destruct (search_started_facts w) as (Hc & Hs & Ho & Hb).
  destruct (poll_loop_without_fix fuel (clock_at w 0) (check_limit w) poll_start
              (search_started w) n Hn) as [Hres Hbad].
  { rewrite Hc. exact Hpast. }
  { rewrite Ho. exact Hopt. }
  { intro k. rewrite Hs. apply Hno. }
  { exact Hb. }
  assert (Hacq : result (acquisition fuel) w = Next poll_start)
    by (unfold result in *; rewrite acquisition_start; exact Hres).
  assert (Hbad' : last_read_ok (gnss (exec (acquisition fuel) w)) = false)
    by (unfold exec in *; rewrite acquisition_start; exact Hbad).
  unfold w', poll_gnss.
  rewrite (result_bind _ _ w _ Hacq), (exec_bind _ _ w _ Hacq).
  destruct (poll_finish_result poll_start (exec (acquisition fuel) w)) as [Hr Hl].
  pose proof (poll_finish_stores poll_start (exec (acquisition fuel) w)) as Ht.
  cbv zeta in Hr, Hl, Ht. rewrite Hbad' in Hr, Hl, Ht. cbn [andb] in Hr, Hl.
  split; [exact Hr | split; [exact Hl |]].
  split; [exact (f_equal fst Ht) | exact (f_equal snd Ht)].
Qed.

Lemma poll_gnss_times_out_witness :
  result (poll_gnss 100) blind_world = Next false /\
  last_read_ok (gnss (exec (poll_gnss 100) blind_world)) = false /\
  g_tracker_data_s (gnss (exec (poll_gnss 100) blind_world)) = zero_short /\
  g_tracker_data_l (gnss (exec (poll_gnss 100) blind_world)) = zero_prec.
Proof.
  apply (poll_gnss_times_out 100 blind_world 30);
    [lia | vm_compute; discriminate | reflexivity | intro k; reflexivity].
Defined.

(** The loop of a u-blox receiver takes the first sample with a 3D fix
    that it reads before the timeout. *)
Lemma poll_loop_accepts fuel : forall time_out limit l w n,
  (n < fuel)%nat ->
  (forall k, (k <= n)%nat -> clock_at w k - time_out < limit) ->
  gnss_option (gnss w) = RAK12500_GNSS ->
  (forall k, (k < n)%nat -> fix_3d (sample_at w k) = false) ->
  fix_3d (sample_at w n) = true ->
  result (poll_loop fuel time_out limit l) w =
    Next {| latitude := getLatitude (sample_at w n);
            longitude := getLongitude (sample_at w n);
            altitude := getAltitude (sample_at w n);
            accuracy := getHorizontalDOP (sample_at w n);
            has_pos := has_pos l; has_alt := has_alt l |} /\
  last_read_ok (gnss (exec (poll_loop fuel time_out limit l) w)) = true.
Proof.
  induction fuel as [| fuel IH]; intros time_out limit l w n Hn Hin Hopt Hno Hfix;
    [lia |].
  unfold result, exec. rewrite poll_loop_turn.
  pose proof (Hin 0%nat ltac:(lia)) as H0. apply Z.ltb_lt in H0. rewrite H0.
  rewrite Hopt. cbn [gnss_option_eqb].
  destruct n as [| n].
  - unfold fix_3d in Hfix. apply andb_prop in Hfix. destruct Hfix as [Hf1 Hf2].
    rewrite Hf1, Hf2. split; reflexivity.
  - pose proof (Hno 0%nat ltac:(lia)) as Hz. unfold fix_3d in Hz.
    assert (Hn' : (n < fuel)%nat) by lia.
    destruct (getGnssFixOk (sample_at w 0));
      [cbn [andb] in Hz; rewrite Hz |].
    + rewrite <- !(turn_taken_sample_at w n).
      apply (IH _ _ _ _ n Hn').
      * intros k Hk. rewrite turn_taken_clock_at. apply Hin. lia.
      * exact Hopt.
      * intros k Hk. rewrite turn_taken_sample_at. apply Hno. lia.
      * rewrite turn_taken_sample_at. exact Hfix.
    + rewrite <- !(turn_taken_sample_at w n).
      change (sample_at (turn_taken w) n)
        with (sample_at (exec (emit (delay 1000)) (turn_taken w)) n).
      apply (IH _ _ _ _ n Hn').
      * intros k Hk.
        change (clock_at (exec (emit (delay 1000)) (turn_taken w)) k)
          with (clock_at (turn_taken w) k).
        rewrite turn_taken_clock_at. apply Hin. lia.
      * exact Hopt.
      * intros k Hk.
        change (sample_at (exec (emit (delay 1000)) (turn_taken w)) k)
          with (sample_at (turn_taken w) k).
        rewrite turn_taken_sample_at. apply Hno. lia.
      * change (sample_at (exec (emit (delay 1000)) (turn_taken w)) n)
          with (sample_at (turn_taken w) n).
        rewrite turn_taken_sample_at. exact Hfix.
Qed.

(** X8: with a u-blox receiver, poll_gnss takes the first sample that
    offers a 3D fix (fix ok and fix type 3 or more), provided the clock is
    still within the timeout when that sample is read.  If its position is
    not latitude 0, longitude 0, the answer is true, last_read_ok is true
    and the two payload structs hold the encodings of that sample. *)
Theorem poll_gnss_accepts (fuel : nat) (w : world) (n : nat) :
  (n < fuel)%nat ->
  (forall k, (k <= n)%nat -> clock_at w (S k) - clock_at w 0 < check_limit w) ->
  gnss_option (gnss w) = RAK12500_GNSS ->
  (forall k, (k < n)%nat -> fix_3d (sample_at w k) = false) ->
  fix_3d (sample_at w n) = true ->
  (getLatitude (sample_at w n) =? 0) && (getLongitude (sample_at w n) =? 0) = false ->
  let w' := exec (poll_gnss fuel) w in
  result (poll_gnss fuel) w = Next true /\
  last_read_ok (gnss w') = true /\
  g_tracker_data_s (gnss w') = save_short (locals_of (sample_at w n)) /\
  g_tracker_data_l (gnss w') = save_prec (locals_of (sample_at w n)).
Proof.
  intros Hn Hin Hopt Hno Hfix Hnz w'.
  destruct (search_started_facts w) as (Hc & Hs & Ho & Hb).
  destruct (poll_loop_accepts fuel (clock_at w 0) (check_limit w) poll_start
              (search_started w) n Hn) as [Hres Hok].
  { intros k Hk. rewrite Hc. apply Hin. exact Hk. }
  { rewrite Ho. exact Hopt. }
  { intros k Hk. rewrite Hs. apply Hno. exact Hk. }
  { rewrite Hs. exact Hfix. }
  rewrite Hs in Hres. change (has_pos poll_start) with false in Hres.
  change (has_alt poll_start) with false in Hres.
  fold (locals_of (sample_at w n)) in Hres.
  assert (Hacq : result (acquisition fuel) w = Next (locals_of (sample_at w n)))
    by (unfold result in *; rewrite acquisition_start; exact Hres).
  assert (Hok' : last_read_ok (gnss (exec (acquisition fuel) w)) = true)
    by (unfold exec in *; rewrite acquisition_start; exact Hok).
  unfold w', poll_gnss.
  rewrite (result_bind _ _ w _ Hacq), (exec_bind _ _ w _ Hacq).
  destruct (poll_finish_result (locals_of (sample_at w n))
              (exec (acquisition fuel) w)) as [Hr Hl].
  pose proof (poll_finish_stores (locals_of (sample_at w n))
                (exec (acquisition fuel) w)) as Ht.
  cbv zeta in Hr, Hl, Ht. rewrite Hok' in Hr, Hl, Ht.
  cbn [locals_of latitude longitude] in Hr, Hl, Ht.
  rewrite Hnz in Hr, Hl, Ht. cbn [andb negb] in Hr, Hl.
  split; [exact Hr | split; [exact Hl |]].
  split; [exact (f_equal fst Ht) | exact (f_equal snd Ht)].
Qed.

Lemma poll_gnss_accepts_witness :
  result (poll_gnss 10) searching_world = Next true /\
  last_read_ok (gnss (exec (poll_gnss 10) searching_world)) = true /\
  g_tracker_data_s (gnss (exec (poll_gnss 10) searching_world)) =
    save_short (locals_of manila_sample) /\
  g_tracker_data_l (gnss (exec (poll_gnss 10) searching_world)) =
    save_prec (locals_of manila_sample).
Proof.
  apply (poll_gnss_accepts 10 searching_world 2).
  - lia.
  - intros k Hk. destruct k as [| [| [| k]]]; try lia; vm_compute; reflexivity.
  - reflexivity.
  - intros k Hk. destruct k as [| [| k]]; try lia; reflexivity.
  - reflexivity.
  - reflexivity.
Defined.

(** * The serial receiver *)

Lemma nmea_step_flags c l :
  (flags_set (nmea_step c l) <= flags_set l + (if encoded c then 1 else 0))%nat /\
  (has_pos l = true -> has_pos (nmea_step c l) = true) /\
  (has_alt l = true -> has_alt (nmea_step c l) = true).
Proof.
  unfold nmea_step, flags_set.
  destruct (encoded c); [| repeat split; auto; lia].
  destruct (nmea_location c) as [[lat lng] |];
    [| destruct (nmea_altitude c); [| destruct (nmea_hdop c)]];
    cbn [has_pos has_alt]; destruct (has_pos l), (has_alt l);
    repeat split; auto; lia.
Qed.

Lemma serial_loop_flags cs : forall l,
  (flags_set (serial_loop cs l) <= flags_set l + sentences cs)%nat.
Proof.
  induction cs as [| c cs IH]; intro l; [cbn; lia |].
  cbn [serial_loop]. cbv zeta.
  destruct (nmea_step_flags c l) as (Hstep & _).
  assert (Hs : sentences (c :: cs) = ((if encoded c then 1 else 0) + sentences cs)%nat).
  { unfold sentences. cbn [filter]. destruct (encoded c); reflexivity. }
  destruct (has_pos (nmea_step c l) && has_alt (nmea_step c l)).
  - lia.
  - specialize (IH (nmea_step c l)). lia.
Qed.

(** X9: the serial receiver needs two sentences for a fix.  Each decoded
    sentence sets at most one of has_pos and has_alt (the tests on location,
    altitude and HDOP exclude each other), so the inner loop, started on a
    fresh search, ends with both set only after at least two characters that
    completed a sentence; a sentence that carries position and altitude at
    once counts for its position only. *)
Theorem serial_fix_needs_two_sentences :
  (forall cs,
     has_pos (serial_loop cs poll_start) && has_alt (serial_loop cs poll_start) = true ->
     (2 <= sentences cs)%nat) /\
  (forall c l p,
     nmea_location c = Some p ->
     has_alt (nmea_step c l) = has_alt l /\ altitude (nmea_step c l) = altitude l).
Proof.
  split.
  - intros cs Hboth.
    pose proof (serial_loop_flags cs poll_start) as Hle.
    unfold flags_set in Hle. apply andb_prop in Hboth. destruct Hboth as [Hp Ha].
    rewrite Hp, Ha in Hle. cbn in Hle. lia.
  - intros c l [lat lng] Hloc. unfold nmea_step. rewrite Hloc.
    destruct (encoded c); split; reflexivity.
Qed.

Lemma serial_fix_needs_two_sentences_witness :
  (2 <= sentences [full_sentence; altitude_sentence])%nat /\
  has_alt (nmea_step full_sentence poll_start) = false.
Proof.
  destruct serial_fix_needs_two_sentences as [Htwo Hloc]. split.
  - apply Htwo. reflexivity.
  - apply (Hloc full_sentence poll_start (144213730, 1210069140)). reflexivity.
Defined.

(** * Initialisation *)

(** X10: init_app succeeds exactly when the receiver and the
    accelerometer answered (a missing environment sensor is recorded in
    has_env_sensor but does not make it fail); it leaves min_delay at half
    the send interval, or 30 s without interval, and the delayed_sending
    timer stopped, without reload, with that period; in P2P mode it marks the
    tracker as joined and takes the time of the start as last send. *)
Theorem init_app_outcome (gnss_ok acc_ok env_found : bool) (w : world) :
  let cfg := g_lorawan_settings (api w) in
  let delay_ms := if send_repeat_time cfg =? 0 then 30000 else send_repeat_time cfg / 2 in
  let w' := exec (init_app gnss_ok acc_ok env_found) w in
  result (init_app gnss_ok acc_ok env_found) w =
    Next (init_result (app w) && gnss_ok && acc_ok) /\
  has_env_sensor (app w') = env_found /\
  min_delay (app w') = delay_ms /\
  delayed_sending (app w') =
    {| period := wrap32 delay_ms; repeating := false; running := false |} /\
  g_lpwan_has_joined (api w') = (negb (lorawan_enable cfg) || g_lpwan_has_joined (api w)) /\
  last_pos_send (app w') =
    (if lorawan_enable cfg then last_pos_send (app w) else clock_at w 0).
Proof.
  destruct w as [[[lw rep rg dr cm] ev jn ble jr rx rxd envd wk]
                 [lps ds bl da md sf low ir p6 pb pl he] g [ck ad ra pp bm rc tr]].
  unfold result, exec, init_app, set_delay, timer, emit, millis, clock_at,
    bind, gets, modify, when, read_tape, ret.
  cbn [api app out g_lorawan_settings lorawan_enable send_repeat_time clock next pos
       init_result g_lpwan_has_joined last_pos_send].
  rewrite Nat.add_0_r.
  destruct lw, (rep =? 0) eqn:E, p6, gnss_ok, acc_ok, env_found, ir;
    cbn; rewrite ?E; cbn; repeat split.
Qed.

(** * Motion events *)

Lemma testbit_raised x b : 0 <= b -> Z.testbit (Z.lor x (flag b)) b = true.
Proof.
  intro Hb. rewrite Z.lor_spec, flag_testbit, Z.eqb_refl by lia. apply orb_true_r.
Qed.

Lemma testbit_cleared_then_raised x a s :
  0 <= a < 16 -> 0 <= s -> a <> s ->
  Z.testbit (Z.lor (Z.land x (N_flag a)) (flag s)) a = false.
Proof.
  intros Ha Hs Hne.
  rewrite Z.lor_spec, Z.land_spec, flag_testbit, N_flag_testbit, Z.eqb_refl by lia.
  destruct (Z.eqb_spec s a); [lia |]. cbn [negb]. rewrite andb_false_r. reflexivity.
Qed.



Ltac run_world :=
  cbn -[Z.testbit Z.lor Z.land Z.lxor flag N_flag Z.eqb Z.ltb Z.leb Z.gtb Z.geb
        Z.sub Z.add Z.mul Z.div Z.modulo Z.quot Z.abs Z.pow wrap8 wrap16 wrap32
        List.app firstn skipn Nat.add].

Ltac open_world w :=
  destruct w as [[[lw rep rg dr cm] ev jn ble jr rx rxd envd wk]
                 [lps ds bl da md sf low ir p6 pb pl he] g
                 [[ck cp] ad ra pp bm rc tr]].

(** X11: a motion event on a joined tracker that finds a send due (no send
    interval, or min_delay elapsed since the last send) clears the motion
    flag, takes the clock as the new time of the last send, raises STATUS for
    the next run of the handler, and leaves the delayed_sending timer and its
    flag alone. *)
Theorem motion_send_due (h : app_h) (w : world) :
  flags_ok h ->
  pending (ACC_TRIGGER h) w = true ->
  g_lpwan_has_joined (api w) = true ->
  send_due w = true ->
  let w' := exec (acc_event h) w in
  pending (STATUS h) w' = true /\
  pending (ACC_TRIGGER h) w' = false /\
  last_pos_send (app w') =
    (if send_repeat_time (g_lorawan_settings (api w)) =? 0
     then clock_at w 0 else clock_at w 1) /\
  delayed_sending (app w') = delayed_sending (app w) /\
  delayed_active (app w') = delayed_active (app w).
Proof.
  intros Hok Hacc Hj Hdue w'.
  pose proof (flags_ok_facts h Hok) as Hf.
  unfold w', STATUS, ACC_TRIGGER. rewrite !pending_event_bit by lia.
  unfold exec, acc_event, event_pending. rewrite !run_gets, Hacc, Hj.
  cbn [andb when].
  unfold send_due, clock_at in *. rewrite Nat.add_0_r in *.
  open_world w.
  cbn [api app out g_lorawan_settings send_repeat_time clock next pos last_pos_send
       min_delay delayed_sending delayed_active] in *.
  unfold event_bit, and_events, check_send_now, request_send, or_events, timer, emit,
    millis, bind, gets, modify, when, read_tape, ret.
  destruct (rep =? 0) eqn:Hrep; cbn [orb negb] in Hdue |- *.
  - run_world. repeat (rewrite Hrep; run_world). unfold STATUS, N_ACC_TRIGGER.
    repeat split.
    + apply testbit_raised. lia.
    + apply testbit_cleared_then_raised; lia.
  - apply negb_true_iff in Hdue.
    run_world. repeat (first [rewrite Hrep | rewrite Hdue]; run_world).
    unfold STATUS, N_ACC_TRIGGER.
    replace (cp + 1)%nat with (S cp) by lia.
    repeat split.
    + apply testbit_raised. lia.
    + apply testbit_cleared_then_raised; lia.
Qed.

Lemma motion_send_due_witness :
  pending (STATUS sample_h) (exec (acc_event sample_h) motion_after_40s) = true /\
  pending (ACC_TRIGGER sample_h) (exec (acc_event sample_h) motion_after_40s) = false /\
  last_pos_send (app (exec (acc_event sample_h) motion_after_40s)) = 40001.
Proof.
  destruct (motion_send_due sample_h motion_after_40s sample_flags_ok
              eq_refl eq_refl eq_refl) as (H1 & H2 & H3 & _).
  split; [exact H1 | split; [exact H2 | exact H3]].
Defined.



(** * What a run of the handler does to the flags *)

Section Flags.

Variable h : app_h.
Hypothesis Hok : flags_ok h.

Lemma check_send_now_events : keeps (fun w => g_task_event_type (api w)) check_send_now.
Proof. keeps_auto. Qed.

Lemma send_packet_events : keeps (fun w => g_task_event_type (api w)) send_packet.
Proof. keeps_auto. Qed.

Lemma request_send_ACC b : keeps (event_bit (ACC_TRIGGER_bit h)) (request_send h b).
Proof.
  pose proof (flags_ok_facts h Hok) as Hf.
  repeat lazymatch goal with
         | |- keeps _ (or_events _) => apply keeps_or_events; lia
         | _ => keeps_step
         end.
Qed.

(** A joined tracker leaves the motion section with the motion flag down. *)
Lemma acc_event_clears w :
  g_lpwan_has_joined (api w) = true ->
  event_bit (ACC_TRIGGER_bit h) (exec (acc_event h) w) = false.
Proof.
  intro Hj. pose proof (flags_ok_facts h Hok) as Hf.
  destruct (pending (ACC_TRIGGER h) w) eqn:Hp.
  - assert (Hc : pending (ACC_TRIGGER h) w && g_lpwan_has_joined (api w) = true)
      by (rewrite Hp, Hj; reflexivity).
    destruct (acc_event_steps h w Hc) as (b & _ & Hrun). cbv zeta in Hrun.
    unfold exec at 1. rewrite Hrun.
    change (snd (request_send h b ?x)) with (exec (request_send h b) x).
    rewrite (request_send_ACC b).
    unfold event_bit. rewrite check_send_now_events.
    change (Z.testbit (g_task_event_type (api ?x)) ?i) with (event_bit i x).
    change (event_bit (ACC_TRIGGER_bit h)
              (exec (and_events (N_flag (ACC_TRIGGER_bit h))) w) = false).
    apply event_bit_and_events. lia.
  - unfold exec. rewrite (acc_event_idle h w) by (rewrite Hp; reflexivity).
    unfold ACC_TRIGGER in Hp. rewrite pending_event_bit in Hp by lia. exact Hp.
Qed.

(** The fix section always ends with the fix-completed flag down. *)
Lemma gnss_fin_event_clears w :
  event_bit (GNSS_FIN_bit h) (exec (gnss_fin_event h) w) = false.
Proof.
  pose proof (flags_ok_facts h Hok) as Hf.
  destruct (pending (GNSS_FIN h) w) eqn:Hp.
  - rewrite (gnss_fin_event_exec h w Hp). unfold event_bit.
    rewrite send_packet_events.
    change (g_task_event_type (api (fix_built h w)))
      with (g_task_event_type (api (exec (build_packet h) (fix_noted h w)))).
    rewrite (build_packet_api h (fix_noted h w)).
    change (event_bit (GNSS_FIN_bit h)
              (exec (and_events (N_flag (GNSS_FIN_bit h))) w) = false).
    apply event_bit_and_events. lia.
  - unfold exec. rewrite (gnss_fin_event_idle h w Hp).
    unfold GNSS_FIN in Hp. rewrite pending_event_bit in Hp by lia. exact Hp.
Qed.

Lemma handler_other_bits i :
  0 <= i < 16 ->
  i <> STATUS_bit h -> i <> ACC_TRIGGER_bit h -> i <> GNSS_FIN_bit h ->
  keeps (event_bit i) (app_event_handler h).
Proof.
  intros Hi H1 H2 H3. pose proof (flags_ok_facts h Hok) as Hf.
  repeat lazymatch goal with
         | |- keeps _ (and_events _) => apply keeps_and_events; lia
         | |- keeps _ (or_events _) => apply keeps_or_events; lia
         | _ => keeps_step
         end.
Qed.

End Flags.

(** X13: after any run of the handler the fix-completed flag is down; on a
    joined tracker the motion flag is down as well; and the bits of
    g_task_event_type that belong to other events (join, TX, data and the
    rest) are as they were. *)
Theorem handler_flags (h : app_h) (w : world) :
  flags_ok h ->
  let w' := exec (app_event_handler h) w in
  pending (GNSS_FIN h) w' = false /\
  (g_lpwan_has_joined (api w) = true -> pending (ACC_TRIGGER h) w' = false) /\
  (forall i, 0 <= i < 16 ->
             i <> STATUS_bit h -> i <> ACC_TRIGGER_bit h -> i <> GNSS_FIN_bit h ->
             event_bit i w' = event_bit i w).
Proof.
  intros Hok w'. pose proof (flags_ok_facts h Hok) as Hf.
  unfold w', GNSS_FIN, ACC_TRIGGER. rewrite !pending_event_bit by lia.
  split; [| split].
  - rewrite handler_exec. apply gnss_fin_event_clears. exact Hok.
  - intro Hj. rewrite handler_exec, (gnss_fin_event_ACC h Hok).
    apply acc_event_clears; [exact Hok |].
    rewrite (status_event_joined h w). exact Hj.
  - intros i Hi H1 H2 H3. apply (handler_other_bits h Hok i Hi H1 H2 H3).
Qed.

Lemma handler_flags_witness :
  pending (GNSS_FIN sample_h) (exec (app_event_handler sample_h) no_fix_world) = false /\
  event_bit (LORA_TX_FIN_bit sample_h) (exec (app_event_handler sample_h) no_fix_world) =
    event_bit (LORA_TX_FIN_bit sample_h) no_fix_world.
Proof.
  destruct (handler_flags sample_h no_fix_world sample_flags_ok) as (H1 & _ & H3).
  split; [exact H1 |].
  apply H3; [cbn; lia | discriminate | discriminate | discriminate].
Defined.

(** X14: a fix-completed event always counts as a send for the governor:
    whatever becomes of the packet (sent, refused, or rejected with
    +EVT:DR_ERROR), the fix section takes the clock as the time of the last
    send and clears delayed_active. *)
Theorem fix_event_is_remembered (h : app_h) (w : world) :
  pending (GNSS_FIN h) w = true ->
  let w' := exec (gnss_fin_event h) w in
  last_pos_send (app w') = clock_at w 0 /\
  delayed_active (app w') = false.
Proof.
  intros Hp w'. unfold w'. rewrite (gnss_fin_event_exec h w Hp).
  rewrite (send_packet_app (fix_built h w)). unfold fix_built.
  assert (Hk1 : keeps (fun w => last_pos_send (app w)) (build_packet h)) by keeps_auto.
  assert (Hk2 : keeps (fun w => delayed_active (app w)) (build_packet h)) by keeps_auto.
  rewrite (Hk1 (fix_noted h w)), (Hk2 (fix_noted h w)).
  unfold clock_at. rewrite Nat.add_0_r. split; reflexivity.
Qed.

Lemma fix_event_is_remembered_witness :
  last_pos_send (app (exec (gnss_fin_event sample_h)
                        (with_clock [77000] 77000 fix_in_region8))) = 77000 /\
  delayed_active (app (exec (gnss_fin_event sample_h)
                         (with_clock [77000] 77000 fix_in_region8))) = false.
Proof.
  apply (fix_event_is_remembered sample_h (with_clock [77000] 77000 fix_in_region8)).
  reflexivity.
Defined.

(** * The packet after a fix *)

Lemma firstn_memcpy_two buf img env P n :
  List.length img = P -> (n <= List.length env)%nat ->
  firstn (P + n) (memcpy (memcpy buf 0 img P) P env n) = (img ++ firstn n env)%list.
Proof.
  intros Himg Hn. unfold memcpy. cbn [firstn List.app Nat.add].
  rewrite <- Himg at 1 2 3. rewrite firstn_all.
  rewrite (firstn_app (List.length img) img), firstn_all, Nat.sub_diag.
  cbn [firstn]. rewrite app_nil_r.
  rewrite firstn_app, firstn_all2 by lia.
  replace (List.length img + n - List.length img)%nat with n by lia.
  rewrite firstn_app, firstn_firstn, Nat.min_id.
  rewrite firstn_length_le by exact Hn. rewrite Nat.sub_diag. cbn [firstn].
  rewrite app_nil_r. reflexivity.
Qed.

Section ValidFix.

Variable h : app_h.
Hypothesis Hlayout : layout_ok h.

Lemma build_packet_fix w :
  last_read_ok (gnss w) = true ->
  packet (exec (build_packet h) w) =
  ((if g_gps_prec_6 (app w) then tracker_l h w else tracker_s h w) ++
   firstn (if has_env_sensor (app w) then ENVIRONMENT_DATA_LEN h else 4%nat)
          (env_data h w))%list.
Proof.
  intro Hgood. unfold build_packet. cbv zeta. unfold exec.
  rewrite run_modify, !run_gets. cbn [gnss app set_packet_buff with_app
    last_read_ok g_gps_prec_6 has_env_sensor].
  rewrite Hgood.
  destruct Hlayout as (Henv & Hshort & Hprec & H4 & Hsp & H256).
  destruct (g_gps_prec_6 (app w)), (has_env_sensor (app w));
    unfold copy_to_packet, set_len; rewrite !run_modify;
    unfold modify, packet; cbn [snd];
    cbn [app set_packet_len set_packet_buff with_app packet_len packet_buff];
    rewrite wrap8_small by lia;
    apply firstn_memcpy_two;
    unfold tracker_l, tracker_s, env_data; rewrite ?Hprec, ?Hshort, ?Henv;
    (reflexivity || lia).
Qed.

Hypothesis Hok : flags_ok h.

Lemma status_event_prec6 : keeps (fun w => g_gps_prec_6 (app w)) (status_event h).
Proof. keeps_auto. Qed.

Lemma acc_event_prec6 : keeps (fun w => g_gps_prec_6 (app w)) (acc_event h).
Proof. keeps_auto. Qed.

Lemma handler_fix w :
  pending (GNSS_FIN h) w = true ->
  last_read_ok (gnss w) = true ->
  packet (exec (app_event_handler h) w) =
  ((if g_gps_prec_6 (app w) then tracker_l h w else tracker_s h w) ++
   firstn (if has_env_sensor (app w) then ENVIRONMENT_DATA_LEN h else 4%nat)
          (env_data h (exec (app_event_handler h) w)))%list.
Proof.
  intros Hp Hgood. rewrite handler_exec.
  set (before := exec (acc_event h) (exec (status_event h) w)).
  assert (Hp' : pending (GNSS_FIN h) before = true)
    by (apply GNSS_FIN_reaches_section; assumption).
  assert (Hg : gnss before = gnss w).
  { unfold before. rewrite (acc_event_gnss h), (status_event_gnss h). reflexivity. }
  assert (He : has_env_sensor (app before) = has_env_sensor (app w)).
  { unfold before. rewrite acc_event_has_env, status_event_has_env. reflexivity. }
  assert (H6 : g_gps_prec_6 (app before) = g_gps_prec_6 (app w)).
  { unfold before. rewrite acc_event_prec6, status_event_prec6. reflexivity. }
  clearbody before.
  rewrite (gnss_fin_event_exec h before Hp').
  rewrite (packet_same_app _ _ (send_packet_app (fix_built h before))).
  rewrite (env_data_same_api h _ _ (send_packet_api (fix_built h before))).
  rewrite (env_data_same_api h (fix_built h before) (fix_noted h before))
    by apply build_packet_api.
  unfold tracker_l, tracker_s. rewrite <- Hg, <- He, <- H6.
  rewrite <- (fix_noted_gnss h before), <- (fix_noted_has_env h before).
  change (g_gps_prec_6 (app before)) with (g_gps_prec_6 (app (fix_noted h before))).
  apply (build_packet_fix (fix_noted h before)).
  rewrite (fix_noted_gnss h before), Hg. exact Hgood.
Qed.

End ValidFix.

(** X15: after a fix-completed event over a successful search, the packet
    is the position struct of the configured precision (extended, or
    Cayenne LPP) followed by the environment block: the whole
    environment struct with a sensor, its first four bytes without; its
    length is the sum of the two. *)
Theorem valid_fix_frame (h : app_h) (w : world) :
  flags_ok h ->
  layout_ok h ->
  pending (GNSS_FIN h) w = true ->
  last_read_ok (gnss w) = true ->
  let w' := exec (app_event_handler h) w in
  let position := if g_gps_prec_6 (app w) then tracker_l h w else tracker_s h w in
  let block := if has_env_sensor (app w) then ENVIRONMENT_DATA_LEN h else 4%nat in
  packet w' = (position ++ firstn block (env_data h w'))%list /\
  List.length (packet w') =
    ((if g_gps_prec_6 (app w) then TRACKER_DATA_PREC_LEN h else TRACKER_DATA_SHORT_LEN h)
     + block)%nat.
Proof.
  intros Hok Hlay Hp Hgood w' position block.
  pose proof (handler_fix h Hlay Hok w Hp Hgood) as Hpk. fold w' position block in Hpk.
  split; [exact Hpk |]. rewrite Hpk, length_app.
  destruct Hlay as (Henv & Hshort & Hprec & H4 & _).
  rewrite firstn_length_le.
  - unfold position, tracker_l, tracker_s.
    destruct (g_gps_prec_6 (app w)); rewrite ?Hprec, ?Hshort; reflexivity.
  - unfold env_data. rewrite Henv. unfold block.
    destruct (has_env_sensor (app w)); lia.
Qed.

Lemma valid_fix_frame_witness :
  packet (exec (app_event_handler sample_h) fix_world) =
    [1; 137; 0; 220; 13; 125; 7; 54; 107; 66; 0; 13; 172;
     2; 2; 0; 0; 0; 0; 0; 0; 0; 0; 0; 0; 0; 0; 0; 0] /\
  List.length (packet (exec (app_event_handler sample_h) fix_world)) = 29%nat.
Proof.
  destruct (valid_fix_frame sample_h fix_world sample_flags_ok sample_layout_ok
              eq_refl eq_refl) as [Hpk Hlen].
  split; [rewrite Hpk; vm_compute; reflexivity | exact Hlen].
Defined.

(** * The timer event around the protection *)

Lemma be_unsigned_2 v : be_unsigned [val8 v 1; val8 v 0] = v mod 2 ^ 16.
Proof.
  rewrite !val8_div_mod by lia. unfold be_unsigned. cbn [fold_left].
  change (2 ^ (8 * 0)) with 1. change (2 ^ (8 * 1)) with 256.
  change (2 ^ 16) with (256 * 256).
  rewrite Z.div_1_r.
  pose proof (Z.div_mod v 256 ltac:(lia)).
  pose proof (Z.mod_pos_bound v 256 ltac:(lia)).
  set (q0 := v / 256) in *.
  pose proof (Z.div_mod q0 256 ltac:(lia)).
  pose proof (Z.mod_pos_bound q0 256 ltac:(lia)).
  apply (Z.mod_unique_pos v _ (q0 / 256)); lia.
Qed.

Lemma send_battery_level_env h : keeps (fun w => g_env_data (api w)) (send_battery_level h).
Proof. keeps_auto. Qed.

Lemma battery_protection_env : keeps (fun w => g_env_data (api w)) battery_protection.
Proof. keeps_auto. Qed.

(** X16: the timer event stores the battery level in g_env_data most
    significant byte first: batt_1 and batt_2 are bytes, read back they give
    the reading, and the sensor fields are not touched. *)
Theorem battery_bytes (h : app_h) (w : world) :
  pending (STATUS h) w = true ->
  let e := g_env_data (api (exec (status_event h) w)) in
  be_unsigned [batt_1 e; batt_2 e] = battery_reading w /\
  0 <= batt_1 e < 256 /\
  0 <= batt_2 e < 256 /\
  sensor e = sensor (g_env_data (api w)).
Proof.
  intros Hp e. unfold e. rewrite (status_event_exec h w Hp).
  rewrite send_battery_level_env, battery_protection_env.
  unfold status_measured.
  assert (He : g_env_data (api (exec wake_sensors (exec (and_events (N_STATUS h)) w)))
               = g_env_data (api w)).
  { rewrite (wake_sensors_api (exec (and_events (N_STATUS h)) w)). reflexivity. }
  assert (Ha : adc (out (exec wake_sensors (exec (and_events (N_STATUS h)) w)))
               = adc (out w)).
  { rewrite (wake_sensors_adc (exec (and_events (N_STATUS h)) w)). reflexivity. }
  revert He Ha. generalize (exec wake_sensors (exec (and_events (N_STATUS h)) w)).
  intros w1 He Ha.
  assert (Hg : g_env_data (api (exec get_battery_level w1)) =
               {| batt_1 := val8 (battery_reading w1) 1;
                  batt_2 := val8 (battery_reading w1) 0;
                  sensor := sensor (g_env_data (api w1)) |}) by reflexivity.
  rewrite Hg. cbn [batt_1 batt_2 sensor]. rewrite He.
  assert (Hr : battery_reading w1 = battery_reading w)
    by (unfold battery_reading; rewrite Ha; reflexivity).
  rewrite Hr.
  split; [| split; [apply val8_range; lia | split; [apply val8_range; lia | reflexivity]]].
  rewrite be_unsigned_2. apply Z.mod_small.
  unfold battery_reading, wrap16. apply Z.mod_pos_bound. lia.
Qed.

Lemma battery_bytes_witness :
  let e := g_env_data (api (exec (status_event sample_h) (timer_event_world 3920 false))) in
  be_unsigned [batt_1 e; batt_2 e] = 392 /\
  0 <= batt_1 e < 256 /\
  0 <= batt_2 e < 256 /\
  sensor e = sensor (g_env_data (api (timer_event_world 3920 false))).
Proof.
  apply (battery_bytes sample_h (timer_event_world 3920 false)). reflexivity.
Defined.

(** What the first part of the timer event shows outside. *)
Lemma wake_sensors_trace w :
  trace (out (exec wake_sensors w)) =
    (trace (out w) ++
     (if init_result (app w) then [] else [AT_PRINTF "+EVT:HW_FAILURE"]) ++
     (if g_enable_ble (api w) then [restart_advertising 15] else []) ++
     (if low_batt_protection (app w) then []
      else (if init_result (app w) && has_env_sensor (app w) then [start_bme] else []) ++
           (if gnss_option_eqb (gnss_option (gnss w)) NO_GNSS_INIT then []
            else [give_gnss_sem])))%list.
Proof.
  unfold exec, wake_sensors, when, emit, bind, gets, modify, ret.
  destruct w as [a p g o]; destruct a, p, g, o. cbn.
  repeat match goal with
         | |- context [if ?b then _ else _] => is_var b; destruct b; cbn
         end;
    try match goal with
        | |- context [gnss_option_eqb ?x _] => destruct x; cbn
        end;
    rewrite <- ?app_assoc, ?app_nil_r; reflexivity.
Qed.

Lemma wake_sensors_rest :
  keeps (fun w => (gnss w, radio (out w), p2p (out w))) wake_sensors.
Proof. keeps_auto. Qed.

Lemma battery_protection_radio : keeps (fun w => radio (out w)) battery_protection.
Proof. keeps_auto. Qed.

Lemma battery_protection_gnss : keeps gnss battery_protection.
Proof. keeps_auto. Qed.

Lemma battery_protection_lorawan :
  keeps (fun w => lorawan_enable (g_lorawan_settings (api w))) battery_protection.
Proof. keeps_auto. Qed.

Section ProtectionEvents.

Variable h : app_h.

(** The state in which the battery test runs, against the state in which
    the timer event began. *)
Lemma status_measured_outside w :
  let m := status_measured h w in
  gnss m = gnss w /\
  radio (out m) = radio (out w) /\
  p2p (out m) = p2p (out w) /\
  g_enable_ble (api m) = g_enable_ble (api w) /\
  trace (out m) = trace (out (exec wake_sensors w)).
Proof.
  intro m. unfold m, status_measured.
  set (w0 := exec (and_events (N_STATUS h)) w).
  assert (H0 : gnss w0 = gnss w /\ radio (out w0) = radio (out w) /\
               p2p (out w0) = p2p (out w) /\ app w0 = app w /\
               g_enable_ble (api w0) = g_enable_ble (api w) /\
               trace (out w0) = trace (out w)) by (repeat split).
  clearbody w0. destruct H0 as (Hg0 & Hr0 & Hp0 & Ha0 & Hb0 & Ht0).
  pose proof (wake_sensors_rest w0) as Hk. cbv beta in Hk.
  pose proof (wake_sensors_api w0) as Hi.
  pose proof (wake_sensors_trace w0) as Ht.
  pose proof (wake_sensors_trace w) as Ht'.
  rewrite Ha0, Hb0, Hg0, Ht0 in Ht. rewrite <- Ht' in Ht. clear Ht'.
  revert Hk Hi Ht. generalize (exec wake_sensors w0) (exec wake_sensors w).
  intros w1 w1' Hk Hi Ht.
  injection Hk as Hg1 Hr1 Hp1.
  assert (Hm : gnss (exec get_battery_level w1) = gnss w1 /\
               radio (out (exec get_battery_level w1)) = radio (out w1) /\
               p2p (out (exec get_battery_level w1)) = p2p (out w1) /\
               g_enable_ble (api (exec get_battery_level w1)) = g_enable_ble (api w1) /\
               trace (out (exec get_battery_level w1)) = trace (out w1))
    by (repeat split).
  destruct Hm as (Hg2 & Hr2 & Hp2 & Hb2 & Ht2).
  rewrite Hg2, Hr2, Hp2, Hb2, Ht2, Hg1, Hr1, Hp1, Hi, Hg0, Hr0, Hp0, Hb0, Ht.
  repeat split.
Qed.

(** The battery packet and the report on it, for a protected tracker. *)
Lemma send_battery_level_sends w :
  low_batt_protection (app w) = true ->
  let data := firstn 4 (env_data h w) in
  trace (out (exec (send_battery_level h) w)) =
    (trace (out w) ++
     [if lorawan_enable (g_lorawan_settings (api w))
      then send_lora_packet data else send_p2p_packet data] ++
     (if lorawan_enable (g_lorawan_settings (api w)) then
        match fst (pull (radio (out w))) with
        | LMH_SUCCESS => []
        | LMH_BUSY => [AT_PRINTF "+EVT:BUSY"]
        | LMH_ERROR => [AT_PRINTF "+EVT:SIZE_ERROR"]
        end
      else []))%list.
Proof.
  intros Hlow data. unfold data, env_data, exec, send_battery_level.
  rewrite !run_gets, Hlow. cbn [orb when]. rewrite !run_gets.
  generalize (firstn 4 (env_image h (g_env_data (api w)))). intro d.
  destruct (lorawan_enable (g_lorawan_settings (api w))).
  - unfold call_send_lora_packet.
    rewrite run_bind_assoc.
    unfold emit at 1, bind at 1, modify at 1.
    rewrite run_read_tape.
    change (radio (out (set_trace (trace (out w) ++ [send_lora_packet d]) w)))
      with (radio (out w)).
    destruct (fst (pull (radio (out w))));
      unfold ret, emit, modify; cbn [snd out trace set_trace with_out set_radio];
      destruct w as [a p g o]; destruct o; cbn;
      rewrite <- ?app_assoc, ?app_nil_r; reflexivity.
  - unfold call_send_p2p_packet, emit, read_tape, bind, pull, ret, modify.
    destruct w as [a p g o]; destruct o; cbn.
    rewrite ?app_nil_r. reflexivity.
Qed.

(** With a receiver and no protection, nothing is sent at the timer event. *)
Lemma send_battery_level_quiet w :
  low_batt_protection (app w) = false ->
  gnss_option_eqb (gnss_option (gnss w)) NO_GNSS_INIT = false ->
  send_battery_level h w = (Next tt, w).
Proof.
  intros Hlow Hopt. unfold send_battery_level.
  rewrite !run_gets, Hlow, Hopt. reflexivity.
Qed.

(** X17: the timer event at which protection starts.  Whether the sensors
    are started is decided on the flag as it was, before the battery is
    read: the location search is still started (the GNSS semaphore is
    given), then the wake-up period goes to one hour, and the battery level
    is sent as well. *)
Theorem protection_entry_event (w : world) :
  pending (STATUS h) w = true ->
  low_batt_protection (app w) = false ->
  battery_reading w < 290 ->
  gnss_option_eqb (gnss_option (gnss w)) NO_GNSS_INIT = false ->
  let w' := exec (status_event h) w in
  let cfg := g_lorawan_settings (api w) in
  let hw := if init_result (app w) then [] else [AT_PRINTF "+EVT:HW_FAILURE"] in
  let adv := if g_enable_ble (api w) then [restart_advertising 15] else [] in
  let sensors :=
    if init_result (app w) && has_env_sensor (app w) then [start_bme] else [] in
  let data := firstn 4 (env_data h w') in
  let send := if lorawan_enable cfg then send_lora_packet data else send_p2p_packet data in
  let report :=
    if lorawan_enable cfg then
      match fst (pull (radio (out w))) with
      | LMH_SUCCESS => []
      | LMH_BUSY => [AT_PRINTF "+EVT:BUSY"]
      | LMH_ERROR => [AT_PRINTF "+EVT:SIZE_ERROR"]
      end
    else [] in
  low_batt_protection (app w') = true /\
  trace (out w') =
    (trace (out w) ++ hw ++ adv ++ sensors ++
     [give_gnss_sem; wake_call (t_setPeriod 3600000); wake_call t_reset; send] ++
     report)%list.
Proof.
  intros Hp Hlow Hlt Hopt. cbv zeta.
  rewrite (status_event_exec h w Hp).
  destruct (status_measured_facts h w) as (Hb & _ & Hs & _ & _).
  destruct (status_measured_outside w) as (_ & Hr & _ & _ & Ht).
  rewrite wake_sensors_trace, Hlow, Hopt in Ht.
  rewrite <- Hb in Hlt.
  destruct (battery_protection_low (status_measured h w) Hlt) as (Hl4 & _ & Ht4).
  pose proof (battery_protection_radio (status_measured h w)) as Hr4.
  pose proof (battery_protection_lorawan (status_measured h w)) as Hs4.
  cbv beta in Hr4, Hs4. rewrite Hr in Hr4. rewrite Hs in Hs4.
  rewrite Ht in Ht4. clear Ht Hlt Hb Hr Hs.
  revert Hl4 Ht4 Hr4 Hs4. generalize (exec battery_protection (status_measured h w)).
  intros w4 Hl4 Ht4 Hr4 Hs'.
  split.
  - rewrite send_battery_level_low. exact Hl4.
  - rewrite (send_battery_level_sends w4 Hl4). cbv zeta.
    unfold env_data. rewrite (send_battery_level_env h w4).
    rewrite Hs', Hr4, Ht4, <- !app_assoc. reflexivity.
Qed.

(** X18: the timer event at which protection ends (a reading above 410
    under protection, with a receiver configured): the sensors are not
    started, no location search is started and nothing is sent; the event
    only sets the wake-up period back to send_repeat_time and resets the
    timer. *)
Theorem protection_exit_event (w : world) :
  pending (STATUS h) w = true ->
  low_batt_protection (app w) = true ->
  410 < battery_reading w ->
  gnss_option_eqb (gnss_option (gnss w)) NO_GNSS_INIT = false ->
  let w' := exec (status_event h) w in
  let hw := if init_result (app w) then [] else [AT_PRINTF "+EVT:HW_FAILURE"] in
  let adv := if g_enable_ble (api w) then [restart_advertising 15] else [] in
  low_batt_protection (app w') = false /\
  trace (out w') =
    (trace (out w) ++ hw ++ adv ++
     [wake_call (t_setPeriod (send_repeat_time (g_lorawan_settings (api w))));
      wake_call t_reset])%list.
Proof.
  intros Hp Hlow Hgt Hopt. cbv zeta.
  rewrite (status_event_exec h w Hp).
  destruct (status_measured_facts h w) as (Hb & Hl & Hs & _ & _).
  destruct (status_measured_outside w) as (Hg & _ & _ & _ & Ht).
  rewrite wake_sensors_trace, Hlow in Ht.
  rewrite <- Hb in Hgt. rewrite Hlow in Hl.
  destruct (battery_protection_high (status_measured h w) Hgt Hl) as (Hl4 & _ & Ht4).
  pose proof (battery_protection_gnss (status_measured h w)) as Hg4.
  rewrite Hg in Hg4. rewrite Ht, Hs in Ht4. clear Ht Hgt Hb Hg Hs Hl.
  revert Hl4 Ht4 Hg4. generalize (exec battery_protection (status_measured h w)).
  intros w4 Hl4 Ht4 Hg4.
  assert (Hq : send_battery_level h w4 = (Next tt, w4))
    by (apply send_battery_level_quiet; [exact Hl4 | rewrite Hg4; exact Hopt]).
  unfold exec. rewrite Hq. cbn [snd].
  split; [exact Hl4 |]. rewrite Ht4, <- !app_assoc, ?app_nil_r. reflexivity.
Qed.

End ProtectionEvents.

Lemma protection_entry_event_witness :
  low_batt_protection (app (exec (status_event sample_h) (timer_event_world 2800 false)))
    = true /\
  trace (out (exec (status_event sample_h) (timer_event_world 2800 false))) =
    [give_gnss_sem; wake_call (t_setPeriod 3600000); wake_call t_reset;
     send_lora_packet [2; 2; 1; 24]].
Proof.
  destruct (protection_entry_event sample_h (timer_event_world 2800 false)
              eq_refl eq_refl) as [Hlow Htr];
    [vm_compute; reflexivity | reflexivity |].
  split; [exact Hlow | rewrite Htr; vm_compute; reflexivity].
Defined.

Lemma protection_exit_event_witness :
  low_batt_protection (app (exec (status_event sample_h) (timer_event_world 4200 true)))
    = false /\
  trace (out (exec (status_event sample_h) (timer_event_world 4200 true))) =
    [wake_call (t_setPeriod 60000); wake_call t_reset].
Proof.
  destruct (protection_exit_event sample_h (timer_event_world 4200 true)
              eq_refl eq_refl) as [Hlow Htr];
    [vm_compute; reflexivity | reflexivity |].
  split; [exact Hlow | rewrite Htr; vm_compute; reflexivity].
Defined.

(** * A turn of the location task *)

Lemma result_bind_next {A B} (c : M A) (k : A -> M B) w b :
  result (bind c k) w = Next b ->
  exists a, result c w = Next a /\ result (k a) (exec c w) = Next b.
Proof.
  unfold result, exec, bind. destruct (c w) as [[a| | |] w']; cbn [fst snd];
    intro Hr; try discriminate Hr.
  exists a. split; [reflexivity | exact Hr].
Qed.

(** The answer of poll_gnss is what it leaves in last_read_ok. *)
Lemma poll_gnss_answer fuel w b :
  result (poll_gnss fuel) w = Next b ->
  last_read_ok (gnss (exec (poll_gnss fuel) w)) = b.
Proof.
  intro Hr. unfold poll_gnss in *.
  destruct (result_bind_next _ _ w b Hr) as (l & Hl & Hb).
  rewrite (exec_bind _ _ w l Hl).
  revert Hb. generalize (exec (acquisition fuel) w). intros w1 Hb.
  destruct (poll_finish_result l w1) as [H1 H2]. cbv zeta in H1, H2.
  rewrite H2. rewrite H1 in Hb. injection Hb as Hb. exact Hb.
Qed.

(** X19: a turn of gnss_task around a search that comes back: the task
    prints the outcome once, LOCATION FIX exactly when last_read_ok is
    left true, raises the fix-completed flag and no other, and gives the
    task semaphore last; this also after a search without fix. *)
Theorem gnss_task_turn (h : app_h) (fuel : nat) (b : bool) (w : world) :
  flags_ok h ->
  result (poll_gnss fuel) (task_started w) = Next b ->
  let w' := exec (gnss_task h fuel) w in
  result (gnss_task h fuel) w = Next tt /\
  last_read_ok (gnss w') = b /\
  pending (GNSS_FIN h) w' = true /\
  (forall i, 0 <= i -> i <> GNSS_FIN_bit h -> event_bit i w' = event_bit i w) /\
  trace (out w') =
    (trace (out (exec (poll_gnss fuel) (task_started w))) ++
     [AT_PRINTF (if b then "+EVT:LOCATION FIX" else "+EVT:LOCATION NOFIX");
      give_task_sem])%list.
Proof.
  intros Hok Hres. cbv zeta.
  assert (Hrun : gnss_task h fuel w =
                 (emit (AT_PRINTF (if b then "+EVT:LOCATION FIX"
                                   else "+EVT:LOCATION NOFIX")) ;;
                  or_events (GNSS_FIN h) ;;
                  emit give_task_sem) (exec (poll_gnss fuel) (task_started w))).
  { unfold gnss_task.
    rewrite (run_seq (emit (AT_PRINTF "+EVT:START_LOCATION")) _ w (falls_modify _)).
    fold (task_started w).
    rewrite (run_bind_next _ _ _ b Hres). reflexivity. }
  pose proof (poll_gnss_answer fuel (task_started w) b Hres) as Hans.
  pose proof (poll_gnss_api fuel (task_started w)) as Hapi.
  assert (Hs : api (task_started w) = api w) by reflexivity.
  rewrite Hs in Hapi. clear Hs Hres.
  revert Hrun Hans Hapi.
  generalize (exec (poll_gnss fuel) (task_started w)). intros w1 Hrun Hans Hapi.
  unfold result, exec. rewrite Hrun. clear Hrun.
  pose proof (flags_ok_facts h Hok) as Hf.
  unfold GNSS_FIN. rewrite pending_event_bit by lia.
  unfold emit, or_events. rewrite !run_modify. unfold modify, event_bit.
  cbn [fst snd api gnss out trace set_trace with_out set_g_task_event_type with_api
       g_task_event_type last_read_ok].
  rewrite Hapi.
  split; [reflexivity | split; [exact Hans | split; [| split]]].
  - apply testbit_raised. lia.
  - intros i Hi Hne. rewrite Z.lor_spec, flag_testbit by lia.
    destruct (Z.eqb_spec (GNSS_FIN_bit h) i) as [He | _]; [congruence |].
    apply orb_false_r.
  - rewrite <- app_assoc. reflexivity.
Qed.

Lemma gnss_task_turn_witness :
  result (gnss_task sample_h 100) blind_world = Next tt /\
  last_read_ok (gnss (exec (gnss_task sample_h 100) blind_world)) = false /\
  pending (GNSS_FIN sample_h) (exec (gnss_task sample_h 100) blind_world) = true.
Proof.
  destruct (gnss_task_turn sample_h 100 false blind_world sample_flags_ok)
    as (H1 & H2 & H3 & _).
  - vm_compute. reflexivity.
  - split; [exact H1 | split; [exact H2 | exact H3]].
Defined.

(** * The flags of the LoRa handler *)

(** A section of a handler: test of the flag, flag down, then a body that
    leaves g_task_event_type alone. *)
Lemma section_clears b (body : M unit) w :
  0 <= b < 16 ->
  keeps (fun w => g_task_event_type (api w)) body ->
  event_bit b (exec (raised <- event_pending (flag b) ;;
                     when raised (and_events (N_flag b) ;; body)) w) = false.
Proof.
  intros Hb Hbody. unfold exec, event_pending. rewrite run_gets.
  destruct (pending (flag b) w) eqn:Hp; cbn [when].
  - change (event_bit b (exec (and_events (N_flag b) ;; body) w) = false).
    rewrite exec_seq by apply falls_modify.
    unfold event_bit. rewrite Hbody.
    apply (event_bit_and_events b w Hb).
  - rewrite pending_event_bit in Hp by lia. exact Hp.
Qed.

Lemma section_keeps i b (body : M unit) :
  0 <= b -> 0 <= i < 16 -> i <> b ->
  keeps (fun w => g_task_event_type (api w)) body ->
  keeps (event_bit i) (raised <- event_pending (flag b) ;;
                       when raised (and_events (N_flag b) ;; body)).
Proof.
  intros Hb Hi Hne Hbody.
  apply keeps_bind; [apply keeps_gets | intro raised].
  apply keeps_when. apply keeps_bind; [apply keeps_and_events; assumption | intros _].
  intro w. unfold event_bit. rewrite Hbody. reflexivity.
Qed.

Section LoraFlags.

Variable h : app_h.
Hypothesis Hok : flags_ok h.

Ltac section_body :=
  lazymatch goal with
  | |- keeps _ _ => keeps_auto
  | _ => let H := fresh in pose proof (flags_ok_facts h Hok) as H; lia
  end.

Lemma join_fin_event_clears w :
  event_bit (LORA_JOIN_FIN_bit h) (exec (join_fin_event h) w) = false.
Proof. apply section_clears; section_body. Qed.

Lemma tx_fin_event_clears w :
  event_bit (LORA_TX_FIN_bit h) (exec (tx_fin_event h) w) = false.
Proof. apply section_clears; section_body. Qed.

Lemma lora_data_event_clears w :
  event_bit (LORA_DATA_bit h) (exec (lora_data_event h) w) = false.
Proof. apply section_clears; section_body. Qed.

Lemma join_fin_event_bit i :
  0 <= i < 16 -> i <> LORA_JOIN_FIN_bit h -> keeps (event_bit i) (join_fin_event h).
Proof. intros Hi Hne. apply section_keeps; try assumption; section_body. Qed.

Lemma tx_fin_event_bit i :
  0 <= i < 16 -> i <> LORA_TX_FIN_bit h -> keeps (event_bit i) (tx_fin_event h).
Proof. intros Hi Hne. apply section_keeps; try assumption; section_body. Qed.

Lemma lora_data_event_bit i :
  0 <= i < 16 -> i <> LORA_DATA_bit h -> keeps (event_bit i) (lora_data_event h).
Proof. intros Hi Hne. apply section_keeps; try assumption; section_body. Qed.

(** The handler as its three sections; the last one is not reached when
    the TX section resets the device. *)
Lemma lora_data_handler_run w :
  let w1 := exec (join_fin_event h) w in
  lora_data_handler h w =
  match result (tx_fin_event h) w1 with
  | Next _ => (Next tt, exec (lora_data_event h) (exec (tx_fin_event h) w1))
  | Returned => (Next tt, exec (tx_fin_event h) w1)
  | r => (r, exec (tx_fin_event h) w1)
  end.
Proof.
  intro w1. unfold lora_data_handler, function_.
  rewrite (run_seq (join_fin_event h) _ w (join_fin_event_falls h)). fold w1.
  clearbody w1. unfold bind, result, exec.
  destruct (tx_fin_event h w1) as [[[]| | |] w2]; cbn [fst snd]; try reflexivity.
  destruct (lora_data_event_falls h w2) as [[] Hr]. unfold result in Hr.
  destruct (lora_data_event h w2) as [r w3]. cbn [fst snd] in *. subst r. reflexivity.
Qed.

End LoraFlags.

(** X20: the flags after lora_data_handler.  The join-finished and the
    TX-finished flag are always down afterwards; the data flag is down
    when the handler comes back, and is left as it was when the TX section
    resets the device; no other bit of g_task_event_type changes. *)
Theorem lora_handler_flags (h : app_h) (w : world) (i : Z) :
  flags_ok h ->
  0 <= i < 16 ->
  let w' := exec (lora_data_handler h) w in
  event_bit i w' =
    event_bit i w
    && negb (LORA_JOIN_FIN_bit h =? i)
    && negb (LORA_TX_FIN_bit h =? i)
    && match result (lora_data_handler h) w with
       | Halted => true
       | _ => negb (LORA_DATA_bit h =? i)
       end.
Proof.
  intros Hok Hi. cbv zeta.
  pose proof (flags_ok_facts h Hok) as Hf.
  unfold exec at 1, result. rewrite (lora_data_handler_run h w). cbv zeta.
  pose proof (join_fin_event_clears h Hok w) as Hj.
  pose proof (fun Hne => join_fin_event_bit h Hok i Hi Hne w) as Hj'.
  revert Hj Hj'. generalize (exec (join_fin_event h) w). intros w1 Hj Hj'.
  pose proof (tx_fin_event_clears h Hok w1) as Ht.
  pose proof (fun Hne => tx_fin_event_bit h Hok i Hi Hne w1) as Ht'.
  pose proof (tx_fin_event_bit h Hok (LORA_JOIN_FIN_bit h) ltac:(lia) ltac:(lia) w1) as Htj.
  assert (Hres : result (tx_fin_event h) w1 = Next tt \/
                 result (tx_fin_event h) w1 = Halted).
  { destruct (pending (LORA_TX_FIN h) w1) eqn:Hp.
    - destruct (g_rx_fin_result (api w1)) eqn:Hack.
      + left. apply (tx_fin_event_ack h w1 Hack).
      + destruct (tx_fin_event_nak h w1 Hp Hack) as (_ & Hr & _). cbv zeta in Hr.
        rewrite Hr. destruct (_ =? 10); [right | left]; reflexivity.
    - left. unfold result, tx_fin_event, event_pending. rewrite run_gets, Hp.
      reflexivity. }
  revert Ht Ht' Htj Hres. generalize (exec (tx_fin_event h) w1) (result (tx_fin_event h) w1).
  intros w2 r Ht Ht' Htj Hres.
  pose proof (lora_data_event_clears h Hok w2) as Hd.
  pose proof (fun Hne => lora_data_event_bit h Hok i Hi Hne w2) as Hd'.
  pose proof (lora_data_event_bit h Hok (LORA_JOIN_FIN_bit h) ltac:(lia) ltac:(lia) w2)
    as Hdj.
  pose proof (lora_data_event_bit h Hok (LORA_TX_FIN_bit h) ltac:(lia) ltac:(lia) w2)
    as Hdt.
  revert Hd Hd' Hdj Hdt. generalize (exec (lora_data_event h) w2).
  intros w3 Hd Hd' Hdj Hdt.
  destruct Hres as [-> | ->]; cbn [fst snd];
    destruct (Z.eqb_spec (LORA_JOIN_FIN_bit h) i) as [Ej | Ej];
    destruct (Z.eqb_spec (LORA_TX_FIN_bit h) i) as [Et | Et];
    destruct (Z.eqb_spec (LORA_DATA_bit h) i) as [Ed | Ed];
    cbn [negb]; rewrite ?andb_false_r, ?andb_true_r;
    try (exfalso; lia);
    try subst i;
    first [ congruence
          | rewrite Hd', Ht', Hj' by congruence; reflexivity
          | rewrite Ht', Hj' by congruence; reflexivity
          | rewrite Hd' by congruence; congruence
          | idtac ].
Qed.

Lemma lora_handler_flags_witness :
  event_bit (LORA_DATA_bit sample_h)
    (exec (lora_data_handler sample_h)
       (set_g_task_event_type (LORA_DATA sample_h) sample_world)) = false.
Proof.
  rewrite (lora_handler_flags sample_h
             (set_g_task_event_type (LORA_DATA sample_h) sample_world)
             (LORA_DATA_bit sample_h) sample_flags_ok);
    [vm_compute; reflexivity | vm_compute; split; [discriminate | reflexivity]].
Defined.

(** * The join-finished event *)

Section JoinEvent.

Variable h : app_h.
Hypothesis Hok : flags_ok h.

Lemma tx_fin_event_idle w :
  pending (LORA_TX_FIN h) w = false -> tx_fin_event h w = (Next tt, w).
Proof.
  intro Hp. unfold tx_fin_event, event_pending. rewrite run_gets, Hp. reflexivity.
Qed.

Lemma lora_data_event_idle w :
  pending (LORA_DATA h) w = false -> lora_data_event h w = (Next tt, w).
Proof.
  intro Hp. unfold lora_data_event, event_pending. rewrite run_gets, Hp. reflexivity.
Qed.

(** The join section on its own. *)
Lemma join_fin_event_outcome w :
  pending (LORA_JOIN_FIN h) w = true ->
  let w' := exec (join_fin_event h) w in
  trace (out w') =
    (trace (out w) ++
     (if g_join_result (api w)
      then [AT_PRINTF "+EVT:JOINED"; start_gnss_task]
      else [AT_PRINTF "+EVT:JOIN FAILED"; lmh_join]))%list /\
  last_pos_send (app w') =
    (if g_join_result (api w) then fst (pull (clock (out w))) else last_pos_send (app w)) /\
  g_lpwan_has_joined (api w') = g_lpwan_has_joined (api w) /\
  clock (out w') =
    (if g_join_result (api w) then snd (pull (clock (out w))) else clock (out w)).
Proof.
  intros Hp. cbv zeta.
  unfold exec, join_fin_event, event_pending. rewrite run_gets, Hp. cbn [when].
  unfold and_events. rewrite run_modify, run_gets.
  cbn [api set_g_task_event_type with_api g_join_result].
  destruct (g_join_result (api w));
    unfold emit, millis, read_tape, bind, modify, pull;
    destruct w as [a p g o]; destruct o; cbn; rewrite <- ?app_assoc;
    repeat split.
Qed.

(** X21: a join-finished event with nothing else pending.  After a
    successful join the location task is started and last_pos_send takes
    the clock; after a failed one the join is requested again at once and
    no task is started.  In neither case does the handler itself set
    g_lpwan_has_joined. *)
Theorem join_finished_event (w : world) :
  pending (LORA_JOIN_FIN h) w = true ->
  pending (LORA_TX_FIN h) w = false ->
  pending (LORA_DATA h) w = false ->
  let w' := exec (lora_data_handler h) w in
  result (lora_data_handler h) w = Next tt /\
  pending (LORA_JOIN_FIN h) w' = false /\
  trace (out w') =
    (trace (out w) ++
     (if g_join_result (api w)
      then [AT_PRINTF "+EVT:JOINED"; start_gnss_task]
      else [AT_PRINTF "+EVT:JOIN FAILED"; lmh_join]))%list /\
  last_pos_send (app w') =
    (if g_join_result (api w) then fst (pull (clock (out w))) else last_pos_send (app w)) /\
  g_lpwan_has_joined (api w') = g_lpwan_has_joined (api w).
Proof.
  intros Hj Ht Hd. cbv zeta.
  pose proof (flags_ok_facts h Hok) as Hf.
  unfold result, exec at 1 2 3 4. rewrite (lora_data_handler_run h w). cbv zeta.
  destruct (join_fin_event_outcome w Hj) as (Htr & Hlast & Hjoined & _).
  pose proof (join_fin_event_clears h Hok w) as Hc.
  pose proof (join_fin_event_bit h Hok (LORA_TX_FIN_bit h) ltac:(lia) ltac:(lia) w) as Ht1.
  pose proof (join_fin_event_bit h Hok (LORA_DATA_bit h) ltac:(lia) ltac:(lia) w) as Hd1.
  unfold LORA_TX_FIN in Ht. unfold LORA_DATA in Hd. unfold LORA_JOIN_FIN.
  rewrite pending_event_bit in Ht, Hd by lia. rewrite Ht in Ht1. rewrite Hd in Hd1.
  rewrite pending_event_bit by lia.
  revert Htr Hlast Hjoined Hc Ht1 Hd1. generalize (exec (join_fin_event h) w).
  intros w1 Htr Hlast Hjoined Hc Ht1 Hd1.
  rewrite <- (pending_event_bit (LORA_TX_FIN_bit h) w1) in Ht1 by lia.
  rewrite <- (pending_event_bit (LORA_DATA_bit h) w1) in Hd1 by lia.
  unfold result, exec. rewrite (tx_fin_event_idle w1 Ht1). cbn [fst snd].
  rewrite (lora_data_event_idle w1 Hd1). cbn [fst snd].
  repeat split; assumption.
Qed.

End JoinEvent.

Lemma join_finished_event_witness :
  trace (out (exec (lora_data_handler sample_h) (join_finished_world false))) =
    [AT_PRINTF "+EVT:JOIN FAILED"; lmh_join].
Proof.
  destruct (join_finished_event sample_h sample_flags_ok (join_finished_world false)
              eq_refl eq_refl eq_refl) as (_ & _ & Htr & _).
  rewrite Htr. vm_compute. reflexivity.
Defined.

(** * The choice of the receiver *)

(** X22: init_gnss always comes back, and always with true, also when no
    receiver answers at all; afterwards gnss_option is no longer
    NO_GNSS_INIT; and a choice made earlier is never changed, nor is
    i2c_gnss. *)
Theorem init_gnss_detect_returns (fuel : nat) (b : receiver_bus) :
  (3 <= fuel)%nat ->
  exists b',
    init_gnss_detect fuel b = Some (true, b') /\
    chosen b' <> NO_GNSS_INIT /\
    (chosen b <> NO_GNSS_INIT -> chosen b' = chosen b /\ i2c_gnss b' = i2c_gnss b).
Proof.
  intro Hfuel.
  destruct fuel as [| [| [| fuel]]]; try lia.
  destruct b as [i2c opt [ia ip] [sa sp] cs].
  unfold init_gnss_detect, ask_i2c, pull.
  destruct opt; cbn -[wrap8 Z.eqb].
  - destruct (ia ip); cbn -[wrap8 Z.eqb].
    + eexists. split; [reflexivity |]. cbn. split; [discriminate | intro H; contradiction H; reflexivity].
    + destruct (sa sp); cbn -[wrap8 Z.eqb];
        [eexists; split; [reflexivity |]; cbn; split;
         [discriminate | intro H; contradiction H; reflexivity] |].
      destruct (sa (S sp)); cbn;
        (destruct (sa (S (S sp))); cbn;
         [eexists; split; [reflexivity |]; cbn; split;
          [discriminate | intro H; contradiction H; reflexivity] |]);
        (destruct (sa (S (S (S sp)))); cbn;
         (destruct (sa (S (S (S (S sp))))); cbn;
          [eexists; split; [reflexivity |]; cbn; split;
           [discriminate | intro H; contradiction H; reflexivity] |]);
         destruct (sa (S (S (S (S (S sp)))))); cbn;
         eexists; (split; [reflexivity |]); cbn; (split;
           [discriminate | intro H; contradiction H; reflexivity])).
  - eexists. split; [reflexivity |]. cbn. split; [discriminate | intros _; split; reflexivity].
  - destruct i2c; cbn; eexists; (split; [reflexivity |]); cbn;
      (split; [discriminate | intros _; split; reflexivity]).
Qed.

Lemma init_gnss_detect_returns_witness :
  exists b',
    init_gnss_detect 3 (fresh_bus false []) = Some (true, b') /\
    chosen b' <> NO_GNSS_INIT /\
    (chosen (fresh_bus false []) <> NO_GNSS_INIT ->
     chosen b' = chosen (fresh_bus false []) /\
     i2c_gnss b' = i2c_gnss (fresh_bus false [])).
Proof.
  apply (init_gnss_detect_returns 3 (fresh_bus false [])). apply le_n.
Defined.

(** X23: which receiver the detection chooses.  The u-blox receiver is
    chosen exactly when it answers on I2C, or at one of the at most three
    attempts at 38400 baud (the first, third and fifth use of the serial
    port); an answer at 9600 baud only switches the baud rate and does not
    count, so that a receiver first reached at 9600 baud in the third turn is
    taken for the other model.  i2c_gnss records the answer on I2C, and the
    serial port is asked at most six times. *)
Theorem init_gnss_detect_choice (fuel : nat) (b b' : receiver_bus) (r : bool) :
  (3 <= fuel)%nat ->
  chosen b = NO_GNSS_INIT ->
  init_gnss_detect fuel b = Some (r, b') ->
  let on_i2c := fst (pull (i2c_answers b)) in
  chosen b' =
    (if on_i2c || serial_answer b 0 || serial_answer b 2 || serial_answer b 4
     then RAK12500_GNSS else RAK1910_GNSS) /\
  i2c_gnss b' = on_i2c /\
  (pos (serial_answers b') <= pos (serial_answers b) + 6)%nat.
Proof.
  intros Hfuel Hopt.
  destruct fuel as [| [| [| fuel]]]; try lia.
  destruct b as [i2c opt [ia ip] [sa sp] cs]. cbn in Hopt. subst opt.
  unfold init_gnss_detect, ask_i2c, pull, serial_answer.
  cbn -[wrap8 Z.eqb].
  destruct (ia ip); cbn -[wrap8 Z.eqb].
  - intro H. injection H as _ <-. cbn. repeat split. lia.
  - destruct (sa sp); cbn -[wrap8 Z.eqb];
      [intro H; injection H as _ <-; cbn; repeat split; lia |].
    destruct (sa (S sp)); cbn;
      (destruct (sa (S (S sp))); cbn;
       [intro H; injection H as _ <-; cbn; repeat split; lia |]);
      (destruct (sa (S (S (S sp)))); cbn;
       (destruct (sa (S (S (S (S sp))))); cbn;
        [intro H; injection H as _ <-; cbn; repeat split; lia |]);
       destruct (sa (S (S (S (S (S sp)))))); cbn;
       intro H; injection H as _ <-; cbn; repeat split; lia).
Qed.

Lemma init_gnss_detect_choice_witness :
  exists b',
    init_gnss_detect 3 (fresh_bus false [false; false; false; false; false; true])
      = Some (true, b') /\
    chosen b' = RAK1910_GNSS /\ i2c_gnss b' = false.
Proof.
  pose (b' := match init_gnss_detect 3
                      (fresh_bus false [false; false; false; false; false; true]) with
              | Some (_, x) => x
              | None => fresh_bus false []
              end).
  assert (E : init_gnss_detect 3
                (fresh_bus false [false; false; false; false; false; true])
              = Some (true, b')) by (vm_compute; reflexivity).
  exists b'. split; [exact E |].
  destruct (init_gnss_detect_choice 3
              (fresh_bus false [false; false; false; false; false; true])
              b' true (le_n 3) eq_refl E) as (H1 & H2 & _).
  split; [rewrite H1 | rewrite H2]; vm_compute; reflexivity.
Defined.

(** * The copy of the received data *)

Lemma store_length buf off chars buf' :
  store buf off chars = Some buf' -> List.length buf' = List.length buf.
Proof.
  unfold store, memcpy.
  destruct (Nat.leb_spec (off + List.length chars) (List.length buf)) as [Hle | Hgt];
    [| discriminate].
  intro H. injection H as <-.
  rewrite !length_app, firstn_all, length_firstn, length_skipn. lia.
Qed.

Lemma log_loop_last_store (data : list Z) (k : nat) (buf : list Z) :
  data <> [] ->
  List.length buf = ((k + List.length data) * 3)%nat ->
  (k + List.length data <= 85)%nat ->
  log_loop data (Z.of_nat (k * 3)) buf = None.
Proof.
  revert k buf. induction data as [| v rest IH]; intros k buf Hne Hlen Hmax;
    [contradiction Hne; reflexivity |].
  cbn [log_loop]. rewrite Nat2Z.id.
  destruct (store buf (k * 3) (sprintf_02X v)) as [buf' |] eqn:Hst; [| reflexivity].
  destruct rest as [| v' rest'].
  - exfalso. unfold store in Hst. cbn [List.length sprintf_02X] in Hst, Hlen.
    destruct (Nat.leb_spec (k * 3 + 4) (List.length buf)) as [Hle | Hgt];
      [lia | discriminate].
  - assert (Hw : wrap8 (Z.of_nat (k * 3) + 3) = Z.of_nat (S k * 3)).
    { unfold wrap8. cbn [List.length] in Hmax. rewrite Z.mod_small by lia. lia. }
    rewrite Hw. apply IH.
    + discriminate.
    + rewrite (store_length _ _ _ _ Hst), Hlen. cbn [List.length]. lia.
    + cbn [List.length] in *. lia.
Qed.

Lemma log_loop_fits (data : list Z) (k : nat) (buf : list Z) :
  ((k + List.length data) * 3 < List.length buf)%nat ->
  (k + List.length data <= 85)%nat ->
  exists buf', log_loop data (Z.of_nat (k * 3)) buf = Some buf'.
Proof.
  revert k buf. induction data as [| v rest IH]; intros k buf Hlen Hmax;
    [exists buf; reflexivity |].
  cbn [log_loop]. rewrite Nat2Z.id. cbn [List.length] in Hlen, Hmax.
  destruct (store buf (k * 3) (sprintf_02X v)) as [buf' |] eqn:Hst.
  - assert (Hw : wrap8 (Z.of_nat (k * 3) + 3) = Z.of_nat (S k * 3)).
    { unfold wrap8. rewrite Z.mod_small by lia. lia. }
    rewrite Hw. apply IH.
    + rewrite (store_length _ _ _ _ Hst). lia.
    + lia.
  - exfalso. unfold store in Hst. cbn [List.length sprintf_02X] in Hst.
    destruct (Nat.leb_spec (k * 3 + 4) (List.length buf)) as [Hle | Hgt];
      [discriminate | lia].
Qed.

(** X24: the copy of the received data into log_buff does not fit.  The
    array has 3 chars per received byte, and each sprintf stores 4 (two
    digits, a space, a terminating zero): for 1 to 85 received bytes all
    stores but the last fit, and the last one ends one char behind the
    array. *)
Theorem log_received_overflows (data : list Z) :
  data <> [] ->
  (List.length data <= 85)%nat ->
  log_received data = None /\
  exists log_buff,
    log_loop (removelast data) 0 (memset0 (List.length data * 3)) = Some log_buff.
Proof.
  intros Hne Hmax. split.
  - unfold log_received. apply (log_loop_last_store data 0 _ Hne).
    + unfold memset0. rewrite repeat_length. reflexivity.
    + exact Hmax.
  - assert (Hlast : (List.length (removelast data) < List.length data)%nat).
    { destruct (exists_last Hne) as (l & a & ->).
      rewrite removelast_last, length_app. cbn. lia. }
    apply (log_loop_fits (removelast data) 0).
    + unfold memset0. rewrite repeat_length. lia.
    + cbn. lia.
Qed.

Lemma log_received_overflows_witness :
  log_received [202; 254] = None /\
  exists log_buff, log_loop [202] 0 (memset0 6) = Some log_buff.
Proof.
  apply (log_received_overflows [202; 254]); [discriminate | cbn; lia].
Defined.
